(** * Personnel scoring engine and algorithm-configuration service

    A shallow embedding of the scoring functions and of the personnel
    statistics of [blueprints/personnel.py], of the configuration service of
    [services/algorithm_config_service.py] and of the presets of
    [migrate_add_algorithm_config.py], with the properties the specification
    states about them and further properties of the code.

    Conventions of the embedding.
    - Python numbers are exact rationals ([Q]); results are compared with
      [==] ([Qeq]).  Integers that the code counts with ([len], loop
      counters) are [nat] or [Z] and are injected where Python promotes them.
      The float NaN has no rational counterpart: the weight-sum check of
      [validate_config] is given on binary64 floats as well.
    - A function that can raise returns a [result]: [Ok v] or [Raise e].
      [try ... except Exception] is a [match] on the result.
    - Configuration sections are records.  A key the code reads with
      [d[k]] is a field; a key read with [d.get(k, default)] or tested with
      [k in d] is an [option] field; a dict indexed by a computed key is a
      [gmap].
    - An f-string is the list of its literal chunks and formatted values. *)

From Stdlib Require Import PrimFloat.
From Stdlib Require Import ZArith QArith Qround Qminmax Qabs Qpower Lqa Lia.
From Stdlib Require Import String Ascii List.
From stdpp Require Import base option list gmap strings.

Set Warnings "-register-all,-inexact-float".
Local Open Scope Q_scope.

(** ** Python values and primitives *)

Inductive exn : Type :=
  | ZeroDivisionError
  | KeyError (key : string)
  | IndexError
  | TypeError
  | AttributeError
  | ValueError
  | IntegrityError.

Inductive result (A : Type) : Type :=
  | Ok (a : A)
  | Raise (e : exn).
Arguments Ok {A} a.
Arguments Raise {A} e.

#[export] Instance result_ret : MRet result := λ A a, Ok a.
#[export] Instance result_bind : MBind result := λ A B f m,
  match m with
  | Ok a => f a
  | Raise e => Raise e
  end.

Definition Qltb (a b : Q) : bool := negb (Qle_bool b a).

(** [a / b] on numbers. *)
Definition py_truediv (a b : Q) : result Q :=
  if Qeq_bool b 0 then Raise ZeroDivisionError else Ok (a / b).

(** [b ** e] with an integer exponent. *)
Definition py_pow (b : Q) (e : Z) : result Q :=
  if Qeq_bool b 0 && (e <? 0)%Z then Raise ZeroDivisionError else Ok (b ^ e).

(** Rounding to the nearest integer, ties to the even one. *)
Definition round_half_even (x : Q) : Z :=
  let f := Qfloor x in
  match Qcompare (x - inject_Z f) (1 # 2) with
  | Lt => f
  | Gt => (f + 1)%Z
  | Eq => if Z.even f then f else (f + 1)%Z
  end.

(** [round(x, ndigits)]. *)
Definition py_round (x : Q) (ndigits : nat) : Q :=
  let scale := inject_Z (10 ^ Z.of_nat ndigits) in
  inject_Z (round_half_even (x * scale)) / scale.

(** [math.ceil]. *)
Definition math_ceil (x : Q) : Z := Qceiling x.

(** [sum] of a list of numbers. *)
Definition py_sum (l : list Q) : Q := fold_left Qplus l 0.

Definition upper_ascii (c : ascii) : ascii :=
  let n := nat_of_ascii c in
  if (97 <=? n)%nat && (n <=? 122)%nat then ascii_of_nat (n - 32) else c.

(** [s.upper()], on the ASCII letters. *)
Fixpoint upper (s : string) : string :=
  match s with
  | EmptyString => EmptyString
  | String c s' => String (upper_ascii c) (upper s')
  end.

(** [grade.upper() if grade else 'B+']. *)
Definition normalize_grade (grade : string) : string :=
  match grade with
  | EmptyString => "B+"
  | _ => upper grade
  end.

Inductive color : Type :=
  RED | ORANGE | YELLOW | GREEN | GOLD | GRAY | PURPLE | BLUE.

(** The pieces of an f-string: literal text, [{x}] and [{x:.nf}]. *)
Inductive fpiece : Type :=
  | Lit (s : string)
  | Num (q : Q)
  | Fixed (digits : nat) (q : Q).

Definition fstring : Type := list fpiece.

(** ** The configuration tree ([STANDARD_CONFIG] and its variants) *)

Record GradeRange := {
  range_min : Q;
  range_max : Q }.

Record GradeRanges := {
  ranges_D_min : Q;
  ranges_D_max : Q;
  ranges_D_radar_override : Q;
  ranges_C : GradeRange;
  ranges_B : GradeRange;
  ranges_Bplus : GradeRange;
  ranges_A : GradeRange }.

Record ContaminationRules := {
  d_count_threshold : Q;
  c_count_threshold : Q;
  d_cap_score : Q;
  c_cap_score : Q }.

Record TimeDecay := {
  td_enabled : option bool;
  td_decay_months : option Q;
  td_decay_rate : option Q }.

Record PerformanceConfig := {
  grade_coefficients : gmap string Q;
  grade_ranges : GradeRanges;
  contamination_rules : ContaminationRules;
  time_decay : option TimeDecay }.

Record BehaviorTrack := {
  freq_thresholds : list Q;
  freq_multipliers : list Q }.

(** One entry of [severity_track.score_ranges]: [min] and [max] are each
    optional. *)
Record ScoreRange := {
  sr_min : option Q;
  sr_max : option Q;
  sr_multiplier : Q }.

Record SeverityTrack := {
  score_ranges : list ScoreRange;
  critical_threshold : Q }.

Record SafetyThresholds := {
  fail_score : Q;
  warning_score : Q }.

Record SafetyConfig := {
  behavior_track : BehaviorTrack;
  severity_track : SeverityTrack;
  thresholds : SafetyThresholds }.

Record AbsoluteThreshold := {
  at_fail_count : Z;
  at_coefficient : Q }.

Record SmallSample := {
  sample_size : Q;
  ss_coefficient : Q }.

(** One entry of an AFR threshold table: [max] is optional. *)
Record AfrRule := {
  afr_min : Q;
  afr_max : option Q;
  afr_coefficient : Q;
  afr_label : string }.

Record PenaltyRules := {
  absolute_threshold : AbsoluteThreshold;
  small_sample : SmallSample;
  afr_thresholds : option (list AfrRule);
  afr_thresholds_new_employee : option (list AfrRule);
  afr_thresholds_experienced : option (list AfrRule) }.

Record DefaultScores := {
  default_short : Q;
  default_mid : Q;
  default_long : Q }.

Record DurationThresholds := {
  short_term_days : Q;
  mid_term_days : Q;
  default_scores : DefaultScores }.

Record TrainingConfig := {
  penalty_rules : PenaltyRules;
  duration_thresholds : DurationThresholds }.

Record ScoreWeights := {
  w_performance : Q;
  w_safety : Q;
  w_training : Q;
  w_stability : Q;
  w_learning : Q }.

Record ComprehensiveConfig := {
  score_weights : ScoreWeights }.

Record KeyPersonnelConfig := {
  comprehensive_threshold : Q;
  monthly_violation_threshold : Q }.

Record SeniorityWeights := {
  sw_age : Q;
  sw_working_years : Q;
  sw_company_years : Q;
  sw_cert_years : Q;
  sw_solo_years : Q }.

Record SeniorityThresholds := {
  age_cap : Q;
  working_cap : Q;
  company_cap : Q;
  cert_cap : Q;
  solo_cap : Q }.

Record DimensionWeights := {
  dw_seniority : Q;
  dw_volatility : Q }.

Record VolatilityPenalty := {
  low_threshold : Q;
  high_threshold : Q;
  max_penalty : Q }.

Record StabilityConfig := {
  seniority_weights : SeniorityWeights;
  seniority_thresholds : SeniorityThresholds;
  dimension_weights : DimensionWeights;
  volatility_penalty : VolatilityPenalty }.

Record AlgorithmConfig := {
  performance : PerformanceConfig;
  safety : SafetyConfig;
  training : TrainingConfig;
  comprehensive : ComprehensiveConfig;
  key_personnel : KeyPersonnelConfig;
  stability : option StabilityConfig }.

(** [STANDARD_CONFIG] of [migrate_add_algorithm_config.py]. *)
Definition STANDARD_CONFIG : AlgorithmConfig := {|
  performance := {|
    grade_coefficients :=
      {[ "D" := 0.0; "C" := 0.6; "B" := 0.9; "B+" := 1.0; "A" := 1.1 ]};
    grade_ranges := {|
      ranges_D_min := 0; ranges_D_max := 79.9; ranges_D_radar_override := 50;
      ranges_C := {| range_min := 80; range_max := 89.9 |};
      ranges_B := {| range_min := 90; range_max := 94.9 |};
      ranges_Bplus := {| range_min := 95; range_max := 99.9 |};
      ranges_A := {| range_min := 100; range_max := 110 |} |};
    contamination_rules := {|
      d_count_threshold := 1; c_count_threshold := 2;
      d_cap_score := 90; c_cap_score := 94.9 |};
    time_decay := None |};
  safety := {|
    behavior_track := {|
      freq_thresholds := [2; 5; 6];
      freq_multipliers := [2; 5; 10] |};
    severity_track := {|
      score_ranges := [
        {| sr_min := None; sr_max := Some 3; sr_multiplier := 1.0 |};
        {| sr_min := Some 3; sr_max := Some 5; sr_multiplier := 2.5 |};
        {| sr_min := Some 5; sr_max := None; sr_multiplier := 5.0 |} ];
      critical_threshold := 12 |};
    thresholds := {| fail_score := 60; warning_score := 90 |} |};
  training := {|
    penalty_rules := {|
      absolute_threshold := {| at_fail_count := 3; at_coefficient := 0.5 |};
      small_sample := {| sample_size := 10; ss_coefficient := 0.7 |};
      afr_thresholds := Some [
        {| afr_min := 2.5; afr_max := None; afr_coefficient := 0.5;
           afr_label := "高频失格" |};
        {| afr_min := 1.5; afr_max := Some 2.5; afr_coefficient := 0.7;
           afr_label := "频率偏高" |};
        {| afr_min := 0.5; afr_max := Some 1.5; afr_coefficient := 0.9;
           afr_label := "偶发失格" |} ];
      afr_thresholds_new_employee := None;
      afr_thresholds_experienced := None |};
    duration_thresholds := {|
      short_term_days := 60; mid_term_days := 180;
      default_scores :=
        {| default_short := 65; default_mid := 50; default_long := 0 |} |} |};
  comprehensive := {|
    score_weights := {|
      w_performance := 0.35; w_safety := 0.30; w_training := 0.20;
      w_stability := 0.10; w_learning := 0.05 |} |};
  key_personnel := {|
    comprehensive_threshold := 70; monthly_violation_threshold := 3 |};
  stability := None |}.

(** ** Performance, single period: [calculate_performance_score_monthly] *)

Record MonthlyResult := {
  m_radar_value : Q;
  m_display_label : fstring;
  m_status_color : color;
  m_alert_tag : string;
  m_grade : string;
  m_mode : string }.

(** [grade_coefficients[g]]. *)
Definition coefficient_of (coeffs : gmap string Q) (g : string) : result Q :=
  match coeffs !! g with
  | Some c => Ok c
  | None => Raise (KeyError g)
  end.

(** [min(max(raw_score, r['min']), r['max'])]. *)
Definition clamp_to_range (raw_score : Q) (r : GradeRange) : Q :=
  Qmin (Qmax raw_score (range_min r)) (range_max r).

Definition calculate_performance_score_monthly
    (grade : string) (raw_score : Q) (config : AlgorithmConfig)
    : result MonthlyResult :=
  let grade_coefficients := grade_coefficients (performance config) in
  let grade_ranges := grade_ranges (performance config) in
  let grade := normalize_grade grade in
  '(radar_value, status_color, alert_tag, display_label) ←
    (if String.eqb grade "D" then
       c ← coefficient_of grade_coefficients "D";
       Ok (ranges_D_radar_override grade_ranges, RED, "⛔ 绩效不合格",
           [Lit "D级 (系数"; Num c; Lit ")"])
     else if String.eqb grade "C" then
       c ← coefficient_of grade_coefficients "C";
       Ok (clamp_to_range raw_score (ranges_C grade_ranges), ORANGE,
           "⚠️ 绩效预警", [Lit "C级 (系数"; Num c; Lit ")"])
     else if String.eqb grade "B" then
       c ← coefficient_of grade_coefficients "B";
       Ok (clamp_to_range raw_score (ranges_B grade_ranges), ORANGE,
           "⚠️ 未达基准", [Lit "B级 (系数"; Num c; Lit ")"])
     else if String.eqb grade "B+" then
       c ← coefficient_of grade_coefficients "B+";
       Ok (clamp_to_range raw_score (ranges_Bplus grade_ranges), GREEN,
           "✅ 达标", [Lit "B+级 (系数"; Num c; Lit ")"])
     else if String.eqb grade "A" then
       c ← coefficient_of grade_coefficients "A";
       Ok (clamp_to_range raw_score (ranges_A grade_ranges), GREEN,
           "✅ 优秀", [Lit "A级 (系数"; Num c; Lit ")"])
     else
       c ← coefficient_of grade_coefficients "B+";
       Ok (clamp_to_range raw_score (ranges_Bplus grade_ranges), GREEN,
           "✅ 达标", [Lit "B+级 (系数"; Num c; Lit ")"]));
  Ok {| m_radar_value := py_round radar_value 1;
        m_display_label := display_label;
        m_status_color := status_color;
        m_alert_tag := alert_tag;
        m_grade := grade;
        m_mode := "MONTHLY" |}.

(** ** Performance, several periods: [calculate_performance_score_period] *)

(** The accumulators of the counting loop. *)
Record GradeScan := {
  coeffs : list Q;
  d_count : Z;
  c_count : Z;
  d_count_effective : Q;
  c_count_effective : Q }.

(** The locals of the function after its Step 3. *)
Record PeriodLocals := {
  use_time_decay : bool;
  scan : GradeScan;
  avg_coeff : Q;
  base_score : Q }.

Record PeriodResult := {
  p_radar_value : Q;
  p_display_label : fstring;
  p_status_color : color;
  p_alert_tag : fstring;
  p_mode : string;
  p_d_count_raw : option Z;
  p_d_count_effective : option Q;
  p_time_decay_applied : option bool }.

(** The default of [config['performance'].get('time_decay', ...)]. *)
Definition default_time_decay : TimeDecay :=
  {| td_enabled := Some true;
     td_decay_months := Some 6;
     td_decay_rate := Some 0.9 |}.

(** [coeff_map.get(grade, 1.0)]. *)
Definition coeff_get (coeff_map : gmap string Q) (grade : string) : Q :=
  default 1.0 (coeff_map !! grade).

Definition empty_scan : GradeScan :=
  {| coeffs := []; d_count := 0; c_count := 0;
     d_count_effective := 0.0; c_count_effective := 0.0 |}.

Definition append_coeff (c : Q) (acc : GradeScan) : GradeScan :=
  {| coeffs := coeffs acc ++ [c];
     d_count := d_count acc; c_count := c_count acc;
     d_count_effective := d_count_effective acc;
     c_count_effective := c_count_effective acc |}.

(** [d_count += n; d_count_effective += w]. *)
Definition add_d (n : Z) (w : Q) (acc : GradeScan) : GradeScan :=
  {| coeffs := coeffs acc;
     d_count := d_count acc + n; c_count := c_count acc;
     d_count_effective := d_count_effective acc + w;
     c_count_effective := c_count_effective acc |}.

(** [c_count += n; c_count_effective += w]. *)
Definition add_c (n : Z) (w : Q) (acc : GradeScan) : GradeScan :=
  {| coeffs := coeffs acc;
     d_count := d_count acc; c_count := c_count acc + n;
     d_count_effective := d_count_effective acc;
     c_count_effective := c_count_effective acc + w |}.

(** The body of the loop that runs without time decay. *)
Definition scan_plain (coeff_map : gmap string Q)
    (acc : GradeScan) (grade : string) : GradeScan :=
  let grade := normalize_grade grade in
  let acc := append_coeff (coeff_get coeff_map grade) acc in
  if String.eqb grade "D" then
    let n := (d_count acc + 1)%Z in
    {| coeffs := coeffs acc; d_count := n; c_count := c_count acc;
       d_count_effective := inject_Z n;
       c_count_effective := c_count_effective acc |}
  else if String.eqb grade "C" then
    let n := (c_count acc + 1)%Z in
    {| coeffs := coeffs acc; d_count := d_count acc; c_count := n;
       d_count_effective := d_count_effective acc;
       c_count_effective := inject_Z n |}
  else acc.

Section PerformancePeriod.

(** [datetime.strptime(s, '%Y-%m')]: the year and the month, or [None]
    when it raises. *)
Variable strptime_ym : string → option (Z * Z).

(** [datetime.now()]: its year and month. *)
Variable now_year now_month : Z.

(** The [try] block of the time-decay loop, up to [months_ago]. *)
Definition months_ago_of (date_str : string) : option Z :=
  let s := if (String.length date_str =? 7)%nat then date_str
           else substring 0 7 date_str in
  '(year, month) ← strptime_ym s;
  Some ((now_year - year) * 12 + (now_month - month))%Z.

(** The [except Exception] handler of the time-decay loop. *)
Definition scan_except (grade : string) (acc : GradeScan) : GradeScan :=
  if String.eqb grade "D" then add_d 1 1 acc
  else if String.eqb grade "C" then add_c 1 1 acc
  else acc.

(** The body of the time-decay loop. *)
Definition scan_decay (coeff_map : gmap string Q)
    (decay_months_threshold decay_rate_per_month : Q)
    (acc : GradeScan) (item : string * string) : GradeScan :=
  let '(grade, date_str) := item in
  let grade := normalize_grade grade in
  let acc := append_coeff (coeff_get coeff_map grade) acc in
  match months_ago_of date_str with
  | None => scan_except grade acc
  | Some months_ago =>
      if String.eqb grade "D" then
        let acc := add_d 1 0 acc in
        if Qle_bool (inject_Z months_ago) decay_months_threshold then
          match py_pow decay_rate_per_month months_ago with
          | Ok decay_weight => add_d 0 decay_weight acc
          | Raise _ => scan_except grade acc
          end
        else acc
      else if String.eqb grade "C" then
        let acc := add_c 1 0 acc in
        if Qle_bool (inject_Z months_ago) decay_months_threshold then
          match py_pow decay_rate_per_month months_ago with
          | Ok decay_weight => add_c 0 decay_weight acc
          | Raise _ => scan_except grade acc
          end
        else acc
      else acc
  end.

(** Steps 1 to 3: coefficients and counts, average coefficient, base
    score.  [grade_list] is not empty here. *)
Definition period_locals (grade_list : list string)
    (grade_dates : option (list string)) (config : AlgorithmConfig)
    : result PeriodLocals :=
  let coeff_map := grade_coefficients (performance config) in
  let time_decay := default default_time_decay (time_decay (performance config)) in
  let use_time_decay :=
    default true (td_enabled time_decay) &&
    match grade_dates with
    | Some ((_ :: _) as ds) => (length ds =? length grade_list)%nat
    | _ => false
    end in
  let scan :=
    if use_time_decay then
      let decay_months_threshold := default 6 (td_decay_months time_decay) in
      let decay_rate_per_month := default 0.9 (td_decay_rate time_decay) in
      fold_left (scan_decay coeff_map decay_months_threshold decay_rate_per_month)
        (combine grade_list (default [] grade_dates)) empty_scan
    else fold_left (scan_plain coeff_map) grade_list empty_scan in
  avg_coeff ←
    match coeffs scan with
    | [] => Ok 1.0
    | _ => py_truediv (py_sum (coeffs scan))
                      (inject_Z (Z.of_nat (length (coeffs scan))))
    end;
  Ok {| use_time_decay := use_time_decay; scan := scan;
        avg_coeff := avg_coeff; base_score := avg_coeff * 95 |}.

(** Step 4, the contamination rules: the final score, the colour and the
    alert tag. *)
Definition period_final (locals : PeriodLocals) (config : AlgorithmConfig)
    : Q * color * fstring :=
  let contamination_rules := contamination_rules (performance config) in
  let d_threshold := d_count_threshold contamination_rules in
  let c_threshold := c_count_threshold contamination_rules in
  let d_cap := d_cap_score contamination_rules in
  let c_cap := c_cap_score contamination_rules in
  let d_count_effective := d_count_effective (scan locals) in
  let c_count_effective := c_count_effective (scan locals) in
  if Qle_bool d_threshold d_count_effective then
    (Qmin (base_score locals) d_cap, RED,
     if use_time_decay locals
        && Qltb d_count_effective (inject_Z (d_count (scan locals)))
     then [Lit "⛔ 存在D级考核 (有效"; Fixed 1 d_count_effective; Lit "次)"]
     else [Lit "⛔ 存在D级考核"])
  else if Qle_bool c_threshold c_count_effective then
    (Qmin (base_score locals) c_cap, ORANGE,
     if use_time_decay locals
        && Qltb c_count_effective (inject_Z (c_count (scan locals)))
     then [Lit "⚠️ 多次C级预警 (有效"; Fixed 1 c_count_effective; Lit "次)"]
     else [Lit "⚠️ 多次C级预警"])
  else
    let final_score := Qmin (base_score locals) 110 in
    if Qle_bool 95 final_score then (final_score, GREEN, [Lit "✅ 综合达标"])
    else if Qle_bool 80 final_score then
      (final_score, ORANGE, [Lit "⚠️ 未达基准"])
    else (final_score, RED, [Lit "⛔ 综合不合格"]).

Definition calculate_performance_score_period (grade_list : list string)
    (grade_dates : option (list string)) (config : AlgorithmConfig)
    : result PeriodResult :=
  match grade_list with
  | [] =>
      Ok {| p_radar_value := 95.0;
            p_display_label := [Lit "暂无数据"];
            p_status_color := GREEN;
            p_alert_tag := [Lit "✅ 暂无数据"];
            p_mode := "PERIOD";
            p_d_count_raw := None;
            p_d_count_effective := None;
            p_time_decay_applied := None |}
  | _ =>
      locals ← period_locals grade_list grade_dates config;
      let '(final_score, status_color, alert_tag) :=
        period_final locals config in
      Ok {| p_radar_value := py_round final_score 1;
            p_display_label := [Lit "平均系数"; Fixed 2 (avg_coeff locals)];
            p_status_color := status_color;
            p_alert_tag := alert_tag;
            p_mode := "PERIOD";
            p_d_count_raw := Some (d_count (scan locals));
            p_d_count_effective :=
              Some (py_round (d_count_effective (scan locals)) 2);
            p_time_decay_applied := Some (use_time_decay locals) |}
  end.

End PerformancePeriod.

(** ** Safety: [calculate_safety_score_dual_track] *)

Record SafetyResult := {
  score_a : Q;
  score_b : Q;
  final_score : Q;
  s_status_color : color;
  s_alert_tag : string;
  violation_count : Z;
  avg_freq : Z }.

(** The locals of the function before its [return]. *)
Record SafetyLocals := {
  l_avg_freq : Z;
  l_score_a : Q;
  l_score_b : Q;
  l_has_critical_violation : bool;
  l_final_score : Q }.

(** [l[i]] on a list. *)
Definition list_index {A} (l : list A) (i : nat) : result A :=
  match l !! i with
  | Some x => Ok x
  | None => Raise IndexError
  end.

(** [math.ceil(violation_count / months_active) if months_active > 0 else 0]. *)
Definition monthly_avg_freq (violation_count months_active : Z) : result Z :=
  if (0 <? months_active)%Z then
    q ← py_truediv (inject_Z violation_count) (inject_Z months_active);
    Ok (math_ceil q)
  else Ok 0%Z.

(** The inner loop over [severity_track['score_ranges']]: the multiplier of
    the first rule that matches, [1.0] when none does. *)
Fixpoint severity_multiplier (score_ranges : list ScoreRange) (score_value : Q) : Q :=
  match score_ranges with
  | [] => 1.0
  | range_rule :: rest =>
      match sr_min range_rule, sr_max range_rule with
      | None, Some max =>
          if Qltb score_value max then sr_multiplier range_rule
          else severity_multiplier rest score_value
      | Some min, Some max =>
          if Qle_bool min score_value && Qltb score_value max
          then sr_multiplier range_rule
          else severity_multiplier rest score_value
      | Some min, None =>
          if Qle_bool min score_value then sr_multiplier range_rule
          else severity_multiplier rest score_value
      | None, None => severity_multiplier rest score_value
      end
  end.

(** The body of the loop over [violations_list], on the pair
    [(score_b_deduction, has_critical_violation)]. *)
Definition severity_step (severity_track : SeverityTrack)
    (acc : Q * bool) (score_value : Q) : Q * bool :=
  let multiplier := severity_multiplier (score_ranges severity_track) score_value in
  (fst acc + score_value * multiplier,
   if Qle_bool (critical_threshold severity_track) score_value then true
   else snd acc).

Definition safety_locals (violations_list : list Q) (months_active : Z)
    (config : AlgorithmConfig) : result SafetyLocals :=
  let behavior_track := behavior_track (safety config) in
  let severity_track := severity_track (safety config) in
  let violation_count := Z.of_nat (length violations_list) in
  avg_freq ← monthly_avg_freq violation_count months_active;
  let freq_thresholds := freq_thresholds behavior_track in
  let freq_multipliers := freq_multipliers behavior_track in
  let freq := inject_Z avg_freq in
  t0 ← list_index freq_thresholds 0;
  score_a_deduction ←
    (if Qle_bool freq t0 then
       m ← list_index freq_multipliers 0; Ok (freq * m)
     else
       t0' ← list_index freq_thresholds 0;
       in_second_tier ←
         (if Qltb t0' freq then
            t1 ← list_index freq_thresholds 1; Ok (Qle_bool freq t1)
          else Ok false);
       if in_second_tier : bool then
         m ← list_index freq_multipliers 1; Ok (freq * m)
       else
         m ← list_index freq_multipliers 2; Ok (freq * m));
  let score_a := Qmax 0 (100 - score_a_deduction) in
  let '(score_b_deduction, has_critical_violation) :=
    fold_left (severity_step severity_track) violations_list (0, false) in
  let score_b := Qmax 0 (100 - score_b_deduction) in
  Ok {| l_avg_freq := avg_freq;
        l_score_a := score_a;
        l_score_b := score_b;
        l_has_critical_violation := has_critical_violation;
        l_final_score := Qmin score_a score_b |}.

Definition calculate_safety_score_dual_track (violations_list : list Q)
    (months_active : Z) (config : AlgorithmConfig) : result SafetyResult :=
  locals ← safety_locals violations_list months_active config;
  let thresholds := thresholds (safety config) in
  let score_a := l_score_a locals in
  let score_b := l_score_b locals in
  let final_score := l_final_score locals in
  let has_critical_violation := l_has_critical_violation locals in
  let fail_score := fail_score thresholds in
  let warning_score := warning_score thresholds in
  let '(status_color, alert_tag) :=
    if Qltb final_score fail_score || has_critical_violation then
      (RED, if has_critical_violation then "⛔ 重大红线（存在高扣分）"
            else "⛔ 安全不合格")
    else if Qle_bool fail_score final_score && Qltb final_score warning_score then
      (ORANGE, if Qltb score_a score_b then "⚠️ 高频违规风险"
               else "⚠️ 扣分过多风险")
    else (GREEN, "✅ 安全") in
  Ok {| score_a := py_round score_a 1;
        score_b := py_round score_b 1;
        final_score := py_round final_score 1;
        s_status_color := status_color;
        s_alert_tag := alert_tag;
        violation_count := Z.of_nat (length violations_list);
        avg_freq := l_avg_freq locals |}.

(** ** Training: [calculate_training_score_with_penalty] *)

(** A row [(score, is_qualified, is_disqualified, training_date)]; the
    three numeric columns can be NULL. *)
Record TrainingRecord := {
  tr_score : option Q;
  tr_is_qualified : option Z;
  tr_is_disqualified : option Z;
  tr_training_date : string }.

Inductive risk_level : Type :=
  NORMAL | NOTICE | WARNING | HIGH_RISK | CRITICAL.

Record TrainingStats := {
  total_ops : Z;
  fail_count : Z;
  duration_days : Z }.

Record RiskAlert := {
  show : bool;
  level : risk_level;
  text : fstring;
  description : fstring }.

Record TrainingResult := {
  radar_score : Q;
  original_score : Q;
  penalty_coefficient : Q;
  stats : TrainingStats;
  risk_alert : RiskAlert;
  t_status_color : color;
  t_alert_tag : fstring }.

(** The outcome of Step 3: the locals [coeff], [tag_level], [alert_msg],
    [description] and [duration_days]. *)
Record Penalty := {
  coeff : Q;
  tag_level : risk_level;
  alert_msg : fstring;
  penalty_description : fstring;
  penalty_duration_days : Z }.

(** The result returned when there is no record at all. *)
Definition no_training_result (config : AlgorithmConfig) (duration_days : Z)
    : TrainingResult :=
  let duration_thresholds := duration_thresholds (training config) in
  let default_scores := default_scores duration_thresholds in
  let stats := {| total_ops := 0; fail_count := 0; duration_days := duration_days |} in
  let days := Num (inject_Z duration_days) in
  if Qle_bool (inject_Z duration_days) (short_term_days duration_thresholds) then
    {| radar_score := default_short default_scores;
       original_score := default_short default_scores;
       penalty_coefficient := 1.0;
       stats := stats;
       risk_alert := {| show := true; level := NORMAL;
         text := [Lit "未开展培训"];
         description := [Lit "统计周期"; days; Lit "天内未开展培训，属于正常情况。"] |};
       t_status_color := GREEN;
       t_alert_tag := [Lit "未开展培训"] |}
  else if Qle_bool (inject_Z duration_days) (mid_term_days duration_thresholds) then
    {| radar_score := default_mid default_scores;
       original_score := default_mid default_scores;
       penalty_coefficient := 1.0;
       stats := stats;
       risk_alert := {| show := true; level := NOTICE;
         text := [Lit "⚠️ 长期未培训"];
         description := [Lit "统计周期"; days; Lit "天内未开展培训，建议安排培训。"] |};
       t_status_color := YELLOW;
       t_alert_tag := [Lit "⚠️ 长期未培训"] |}
  else
    {| radar_score := default_long default_scores;
       original_score := default_long default_scores;
       penalty_coefficient := 1.0;
       stats := stats;
       risk_alert := {| show := true; level := CRITICAL;
         text := [Lit "❌ 严重缺训"];
         description := [Lit "统计周期"; days;
           Lit "天（超过半年）内未开展任何培训，严重影响业务能力。"] |};
       t_status_color := RED;
       t_alert_tag := [Lit "❌ 严重缺训"] |}.

(** [is_disqualified == 1 or score == 0 or is_qualified == 0]. *)
Definition is_fail (record : TrainingRecord) : bool :=
  match tr_is_disqualified record with Some d => (d =? 1)%Z | None => false end
  || match tr_score record with Some s => Qeq_bool s 0 | None => false end
  || match tr_is_qualified record with Some q => (q =? 0)%Z | None => false end.

(** Step 1, the body of the loop, on the pair [(fail_count, total_score)]. *)
Definition count_step (acc : Z * Q) (record : TrainingRecord) : Z * Q :=
  ((if is_fail record then fst acc + 1 else fst acc)%Z,
   snd acc + default 0 (tr_score record)).

(** The loop over the AFR threshold table: the first rule that matches. *)
Fixpoint afr_lookup (afr_thresholds : list AfrRule) (AFR : Q) : option AfrRule :=
  match afr_thresholds with
  | [] => None
  | rule :: rest =>
      match afr_max rule with
      | Some max =>
          if Qle_bool (afr_min rule) AFR && Qltb AFR max then Some rule
          else afr_lookup rest AFR
      | None =>
          if Qle_bool (afr_min rule) AFR then Some rule
          else afr_lookup rest AFR
      end
  end.

(** [duration_days = max(1, duration_days)] and
    [AFR = (fail_count / duration_days) * 365]: the floored duration and
    the annualized failure rate. *)
Definition annualized_failure_rate (fail_count duration_days : Z)
    : result (Z * Q) :=
  let duration_days := Z.max 1 duration_days in
  rate ← py_truediv (inject_Z fail_count) (inject_Z duration_days);
  Ok (duration_days, rate * 365).

Definition normal_penalty (duration_days : Z) : Penalty :=
  {| coeff := 1.0; tag_level := NORMAL; alert_msg := [Lit "✅ 能力达标"];
     penalty_description := []; penalty_duration_days := duration_days |}.

(** Step 3: the penalty coefficient, by priority. *)
Definition select_penalty (config : AlgorithmConfig)
    (total_ops fail_count duration_days : Z) (cert_years : option Q)
    : result Penalty :=
  let penalty_rules := penalty_rules (training config) in
  let absolute_threshold := absolute_threshold penalty_rules in
  let small_sample := small_sample penalty_rules in
  if (at_fail_count absolute_threshold <=? fail_count)%Z then
    Ok {| coeff := at_coefficient absolute_threshold;
          tag_level := CRITICAL;
          alert_msg := [Lit "❌ 业务能力差 (高频失格)"];
          penalty_description :=
            [Lit "检测到绝对失格次数 ≥ ";
             Num (inject_Z (at_fail_count absolute_threshold));
             Lit "次（实际"; Num (inject_Z fail_count);
             Lit "次），系统判定为不合格。"];
          penalty_duration_days := duration_days |}
  else if Qltb (inject_Z total_ops) (sample_size small_sample)
          && (0 <? fail_count)%Z then
    Ok {| coeff := ss_coefficient small_sample;
          tag_level := HIGH_RISK;
          alert_msg := [Lit "⚠️ 观察期失格 (高风险-需带教)"];
          penalty_description :=
            [Lit "样本量不足（仅"; Num (inject_Z total_ops);
             Lit "次操作），但已出现"; Num (inject_Z fail_count);
             Lit "次失格。建议加强带教。"];
          penalty_duration_days := duration_days |}
  else if Qle_bool (sample_size small_sample) (inject_Z total_ops) then
    '(duration_days, AFR) ← annualized_failure_rate fail_count duration_days;
    let is_new_employee :=
      match cert_years with
      | None => true
      | Some years => Qltb years 1.0
      end in
    let shared := default [] (afr_thresholds penalty_rules) in
    let '(afr_thresholds, employee_type) :=
      if is_new_employee
      then (default shared (afr_thresholds_new_employee penalty_rules), "新员工")
      else (default shared (afr_thresholds_experienced penalty_rules), "老员工") in
    match afr_lookup afr_thresholds AFR with
    | Some rule =>
        match afr_max rule with
        | Some max =>
            Ok {| coeff := afr_coefficient rule;
                  tag_level :=
                    if Qle_bool (afr_coefficient rule) 0.7 then WARNING else NOTICE;
                  alert_msg :=
                    [Lit "⛔ "; Lit (afr_label rule); Lit " (年化 ";
                     Fixed 1 AFR; Lit " 次)"];
                  penalty_description :=
                    [Lit "年化失格频率"; Fixed 1 AFR; Lit "次/年，";
                     Lit employee_type; Lit "阈值"; Num (afr_min rule);
                     Lit "-"; Num max; Lit "，需要重点关注。"];
                  penalty_duration_days := duration_days |}
        | None =>
            Ok {| coeff := afr_coefficient rule;
                  tag_level := CRITICAL;
                  alert_msg :=
                    [Lit "❌ "; Lit (afr_label rule); Lit " (年化 ";
                     Fixed 1 AFR; Lit " 次)"];
                  penalty_description :=
                    [Lit "当前周期"; Num (inject_Z duration_days);
                     Lit "天内失格"; Num (inject_Z fail_count);
                     Lit "次，年化等效"; Fixed 1 AFR; Lit "次/年，超过";
                     Lit employee_type; Lit "红线阈值"; Num (afr_min rule);
                     Lit "次/年。"];
                  penalty_duration_days := duration_days |}
        end
    | None => Ok (normal_penalty duration_days)
    end
  else if (fail_count =? 0)%Z then Ok (normal_penalty duration_days)
  else Ok (normal_penalty duration_days).

Definition status_color_of_level (tag_level : risk_level) : color :=
  match tag_level with
  | CRITICAL => RED
  | HIGH_RISK => PURPLE
  | WARNING => ORANGE
  | NOTICE => YELLOW
  | NORMAL => GREEN
  end.

Definition calculate_training_score_with_penalty
    (training_records : list TrainingRecord) (duration_days : Z)
    (cert_years : option Q) (config : AlgorithmConfig)
    : result TrainingResult :=
  let total_ops := Z.of_nat (length training_records) in
  if (total_ops =? 0)%Z then Ok (no_training_result config duration_days)
  else
    let '(fail_count, total_score) :=
      fold_left count_step training_records (0%Z, 0) in
    avg_score ←
      (if (0 <? total_ops)%Z
       then py_truediv total_score (inject_Z total_ops)
       else Ok 0);
    let base_score := avg_score in
    penalty ← select_penalty config total_ops fail_count duration_days cert_years;
    let final_score := base_score * coeff penalty in
    Ok {| radar_score := py_round final_score 1;
          original_score := py_round base_score 1;
          penalty_coefficient := coeff penalty;
          stats := {| total_ops := total_ops;
                      fail_count := fail_count;
                      duration_days := penalty_duration_days penalty |};
          risk_alert := {| show := (0 <? fail_count)%Z;
                           level := tag_level penalty;
                           text := alert_msg penalty;
                           description := penalty_description penalty |};
          t_status_color := status_color_of_level (tag_level penalty);
          t_alert_tag := alert_msg penalty |}.

(** ** Stability: [calculate_stability_score] *)

Record StabilityMetrics := {
  age_years : Q;
  working_years : Q;
  company_years : Q;
  cert_years : Q;
  solo_years : Q;
  volatility : Q }.

Record StabilityResult := {
  stability_score : Q;
  seniority_score : Q;
  volatility_score : Q;
  metrics : StabilityMetrics;
  st_status_color : color;
  st_alert_tag : string;
  tier : fstring }.

(** The locals of the function before its grading. *)
Record StabilityLocals := {
  sl_metrics : StabilityMetrics;
  sl_seniority_score : Q;
  sl_volatility_score : Q;
  sl_final_score : Q }.

(** The default of [config.get('stability', ...)]. *)
Definition default_stability_config : StabilityConfig := {|
  seniority_weights := {|
    sw_age := 0.15; sw_working_years := 0.20; sw_company_years := 0.25;
    sw_cert_years := 0.20; sw_solo_years := 0.20 |};
  seniority_thresholds := {|
    age_cap := 30; working_cap := 20; company_cap := 10;
    cert_cap := 10; solo_cap := 10 |};
  dimension_weights := {| dw_seniority := 0.60; dw_volatility := 0.40 |};
  volatility_penalty := {|
    low_threshold := 5.0; high_threshold := 15.0; max_penalty := 0.5 |} |}.

(** [min(100, (years / cap) * 100)]. *)
Definition capped_ramp (years cap : Q) : result Q :=
  ratio ← py_truediv years cap;
  Ok (Qmin 100 (ratio * 100)).

(** The three-zone penalty on the volatility coefficient. *)
Definition volatility_score_of (penalty : VolatilityPenalty)
    (volatility_coefficient : Q) : result Q :=
  let low_threshold := low_threshold penalty in
  let high_threshold := high_threshold penalty in
  let max_penalty := max_penalty penalty in
  if Qle_bool volatility_coefficient low_threshold then Ok 100
  else if Qle_bool high_threshold volatility_coefficient then
    Ok (100 * (1 - max_penalty))
  else
    penalty_ratio ← py_truediv (volatility_coefficient - low_threshold)
                               (high_threshold - low_threshold);
    let penalty := max_penalty * penalty_ratio in
    Ok (100 * (1 - penalty)).

Section Stability.

(** For a date string that [datetime.strptime(s, '%Y-%m-%d')] accepts,
    [(now - parsed).days]; [None] when it raises. *)
Variable days_since : string → option Z.

(** [float(np.std(scores))]. *)
Variable np_std : list Q → Q.

(** The years elapsed since an optional date: 0 when the date is absent,
    empty or not parseable. *)
Definition years_since (date : option string) : Q :=
  match date with
  | None | Some EmptyString => 0
  | Some s =>
      match days_since s with
      | Some days => inject_Z days / 365.25
      | None => 0
      end
  end.

(** The standard deviations of the series that have two points or more. *)
Definition std_devs_of (historical_scores : gmap string (list Q)) : list Q :=
  flat_map
    (λ dimension,
       let scores := default [] (historical_scores !! dimension) in
       if (2 <=? length scores)%nat then [np_std scores] else [])
    ["performance"; "safety"; "training"]%string.

(** [historical_scores and any(historical_scores.values())]. *)
Definition has_history (historical_scores : option (gmap string (list Q))) : bool :=
  match historical_scores with
  | None => false
  | Some m =>
      existsb (λ kv, negb (Nat.eqb (length (snd kv)) 0)) (map_to_list m)
  end.

Definition stability_locals
    (birth_date work_start_date entry_date certification_date
       solo_driving_date : option string)
    (historical_scores : option (gmap string (list Q)))
    (config : AlgorithmConfig) : result StabilityLocals :=
  let stability_config := default default_stability_config (stability config) in
  let seniority_weights := seniority_weights stability_config in
  let seniority_thresholds := seniority_thresholds stability_config in
  let age_years := years_since birth_date in
  age_score ← capped_ramp age_years (age_cap seniority_thresholds);
  let working_years := years_since work_start_date in
  working_score ← capped_ramp working_years (working_cap seniority_thresholds);
  let company_years := years_since entry_date in
  company_score ← capped_ramp company_years (company_cap seniority_thresholds);
  let cert_years := years_since certification_date in
  cert_score ← capped_ramp cert_years (cert_cap seniority_thresholds);
  let solo_years := years_since solo_driving_date in
  solo_score ← capped_ramp solo_years (solo_cap seniority_thresholds);
  let seniority_score :=
    age_score * sw_age seniority_weights +
    working_score * sw_working_years seniority_weights +
    company_score * sw_company_years seniority_weights +
    cert_score * sw_cert_years seniority_weights +
    solo_score * sw_solo_years seniority_weights in
  '(volatility_score, volatility_coefficient) ←
    (if has_history historical_scores then
       match std_devs_of (default ∅ historical_scores) with
       | [] => Ok (100, 0)
       | std_devs =>
           let volatility_coefficient :=
             py_sum std_devs / inject_Z (Z.of_nat (length std_devs)) in
           score ← volatility_score_of (volatility_penalty stability_config)
                                       volatility_coefficient;
           Ok (score, volatility_coefficient)
       end
     else Ok (100, 0));
  let dimension_weights := dimension_weights stability_config in
  Ok {| sl_metrics := {|
          age_years := age_years; working_years := working_years;
          company_years := company_years; cert_years := cert_years;
          solo_years := solo_years; volatility := volatility_coefficient |};
        sl_seniority_score := seniority_score;
        sl_volatility_score := volatility_score;
        sl_final_score :=
          seniority_score * dw_seniority dimension_weights +
          volatility_score * dw_volatility dimension_weights |}.

Definition seniority_tier_of (company_years cert_years : Q) : string :=
  if Qle_bool 5 company_years && Qle_bool 5 cert_years then "资深员工"
  else if Qle_bool 2 company_years && Qle_bool 2 cert_years then "经验员工"
  else if Qle_bool 1 cert_years then "新手期"
  else "新员工".

(** [low_threshold] and [high_threshold] are bound in the source only when
    a standard deviation was computed, which is the only way for the
    coefficient to differ from 0. *)
Definition volatility_tier_of (penalty : VolatilityPenalty)
    (volatility_coefficient : Q) : string :=
  if Qeq_bool volatility_coefficient 0 then "无历史数据"
  else if Qle_bool volatility_coefficient (low_threshold penalty) then "表现稳定"
  else if Qle_bool volatility_coefficient (high_threshold penalty) then "波动适中"
  else "高波动风险".

(** The final grading: colour and alert tag by [final_score]. *)
Definition stability_grade (final_score : Q) : color * string :=
  if Qle_bool 85 final_score then (GREEN, "✅ 稳定可靠")
  else if Qle_bool 70 final_score then (GREEN, "✅ 基本稳定")
  else if Qle_bool 50 final_score then (ORANGE, "⚠️ 稳定性一般")
  else (RED, "⛔ 不稳定").

Definition calculate_stability_score
    (birth_date work_start_date entry_date certification_date
       solo_driving_date : option string)
    (historical_scores : option (gmap string (list Q)))
    (config : AlgorithmConfig) : result StabilityResult :=
  locals ← stability_locals birth_date work_start_date entry_date
             certification_date solo_driving_date historical_scores config;
  let stability_config := default default_stability_config (stability config) in
  let m := sl_metrics locals in
  let seniority_tier := seniority_tier_of (company_years m) (cert_years m) in
  let volatility_tier :=
    volatility_tier_of (volatility_penalty stability_config) (volatility m) in
  let '(status_color, alert_tag) := stability_grade (sl_final_score locals) in
  Ok {| stability_score := py_round (sl_final_score locals) 1;
        seniority_score := py_round (sl_seniority_score locals) 1;
        volatility_score := py_round (sl_volatility_score locals) 1;
        metrics := {|
          age_years := py_round (age_years m) 1;
          working_years := py_round (working_years m) 1;
          company_years := py_round (company_years m) 1;
          cert_years := py_round (cert_years m) 1;
          solo_years := py_round (solo_years m) 1;
          volatility := py_round (volatility m) 2 |};
        st_status_color := status_color;
        st_alert_tag := alert_tag;
        tier := [Lit seniority_tier; Lit "·"; Lit volatility_tier] |}.

End Stability.

(** ** Composite score and key-personnel flag ([api_students_list]) *)

(** The weighted sum of the five dimension scores, rounded to one decimal. *)
Definition comprehensive_score_of (score_weights : ScoreWeights)
    (performance_score safety_score training_score stability_score
       learning_score : Q) : Q :=
  py_round (performance_score * w_performance score_weights +
            safety_score * w_safety score_weights +
            training_score * w_training score_weights +
            stability_score * w_stability score_weights +
            learning_score * w_learning score_weights) 1.

(** The key-personnel test of one employee. *)
Definition is_key_personnel (comprehensive_score : Q)
    (violations_list : list Q) (months_active : Z)
    (key_personnel_config : KeyPersonnelConfig) : result bool :=
  let violation_count := Z.of_nat (length violations_list) in
  avg_freq ← monthly_avg_freq violation_count months_active;
  Ok (Qltb comprehensive_score (comprehensive_threshold key_personnel_config)
      || Qle_bool (monthly_violation_threshold key_personnel_config)
                  (inject_Z avg_freq)).

(** ** Configuration documents as JSON values *)

(** What [json.loads] produces: [None], [bool], [int], [float], [str],
    [list] and [dict].  A float is held by its value; the floats without one
    (NaN and the infinities, which [json.loads] reads from the literals
    [NaN] and [Infinity]) have no counterpart here. *)
Inductive json : Type :=
  | JNull
  | JBool (b : bool)
  | JInt (z : Z)
  | JFloat (q : Q)
  | JStr (s : string)
  | JArr (l : list json)
  | JObj (m : gmap string json).

(** The value of a number; [bool] is a subclass of [int]. *)
Definition as_number (j : json) : option Q :=
  match j with
  | JBool b => Some (if b then 1 else 0)
  | JInt z => Some (inject_Z z)
  | JFloat q => Some q
  | _ => None
  end.

(** [isinstance(j, int)]. *)
Definition is_int (j : json) : bool :=
  match j with
  | JBool _ | JInt _ => true
  | _ => false
  end.

Definition is_substring (needle haystack : string) : bool :=
  match String.index 0 needle haystack with
  | Some _ => true
  | None => false
  end.

(** [key in container]. *)
Definition py_in (key : string) (container : json) : result bool :=
  match container with
  | JObj m => Ok (match m !! key with Some _ => true | None => false end)
  | JArr l =>
      Ok (existsb (λ j, match j with JStr s => String.eqb s key | _ => false end) l)
  | JStr s => Ok (is_substring key s)
  | _ => Raise TypeError
  end.

(** [container[key]] with a string key. *)
Definition py_getitem (container : json) (key : string) : result json :=
  match container with
  | JObj m =>
      match m !! key with
      | Some v => Ok v
      | None => Raise (KeyError key)
      end
  | _ => Raise TypeError
  end.

(** [container.get(key, default)]. *)
Definition py_get (container : json) (key : string) (dflt : json) : result json :=
  match container with
  | JObj m => Ok (default dflt (m !! key))
  | _ => Raise AttributeError
  end.

(** [container.values()], as a list. *)
Definition py_values (container : json) : result (list json) :=
  match container with
  | JObj m => Ok (map snd (map_to_list m))
  | _ => Raise AttributeError
  end.

(** [sum(values)], which starts from the integer 0. *)
Fixpoint sum_values (values : list json) (acc : Q) : result Q :=
  match values with
  | [] => Ok acc
  | v :: rest =>
      match as_number v with
      | Some q => sum_values rest (acc + q)
      | None => Raise TypeError
      end
  end.

(** The messages of the service; the text is kept for the fixed ones. *)
Inductive message : Type :=
  | MissingSection (section : string)        (* 缺少必填配置节: ... *)
  | MissingGradeCoefficients                 (* 缺少绩效等级系数配置 *)
  | MissingGrade (grade : string)            (* 缺少等级系数: ... *)
  | GradeOutOfRange (grade : string) (coeff : json)
  | CriticalThresholdOutOfRange (threshold : json)
  | FailCountOutOfRange (fail_count : json)
  | MissingScoreWeights                      (* 缺少综合评分权重配置 *)
  | WeightSumNotOne (total_weight : Q)
  | MissingComprehensiveThreshold            (* 缺少关键人员综合分阈值 *)
  | ComprehensiveThresholdOutOfRange (threshold : json)
  | ValidationPassed                         (* 校验通过 *)
  | ValidationException (e : exn)            (* 校验异常: ... *)
  | UpdateRejected (error_msg : message)     (* 配置校验失败: ... *)
  | UpdateSucceeded                          (* 成功更新自定义配置 *)
  | UpdateFailed (e : exn).                  (* 更新配置失败: ... *)

(** A computation that continues, returns its verdict early, or raises. *)
Inductive flow (A : Type) : Type :=
  | Continue (a : A)
  | Return (verdict : bool * message)
  | Raised (e : exn).
Arguments Continue {A} a.
Arguments Return {A} verdict.
Arguments Raised {A} e.

#[export] Instance flow_ret : MRet flow := λ A a, Continue a.
#[export] Instance flow_bind : MBind flow := λ A B f m,
  match m with
  | Continue a => f a
  | Return v => Return v
  | Raised e => Raised e
  end.

Definition lift {A} (r : result A) : flow A :=
  match r with
  | Ok a => Continue a
  | Raise e => Raised e
  end.

(** [if not cond: return False, msg]. *)
Definition require (cond : bool) (msg : message) : flow unit :=
  if cond then Continue tt else Return (false, msg).

(** [not isinstance(v, (int, float)) or v < lo or v > hi]. *)
Definition out_of_range (v : json) (lo hi : Q) : bool :=
  match as_number v with
  | None => true
  | Some q => Qltb q lo || Qltb hi q
  end.

(** ** The configuration service: [AlgorithmConfigService] *)

(** The loop over [required_sections]. *)
Fixpoint check_sections (sections : list string) (config_data : json) : flow unit :=
  match sections with
  | [] => Continue tt
  | section :: rest =>
      present ← lift (py_in section config_data);
      require present (MissingSection section);;
      check_sections rest config_data
  end.

(** The loop over [required_grades]. *)
Fixpoint check_grades (grades : list string) (perf : json) : flow unit :=
  match grades with
  | [] => Continue tt
  | grade :: rest =>
      coefficients ← lift (py_getitem perf "grade_coefficients");
      present ← lift (py_in grade coefficients);
      require present (MissingGrade grade);;
      coefficients ← lift (py_getitem perf "grade_coefficients");
      coeff ← lift (py_getitem coefficients grade);
      require (negb (out_of_range coeff 0 2)) (GradeOutOfRange grade coeff);;
      check_grades rest perf
  end.

(** Check 1 of [validate_config]: the required sections. *)
Definition validate_structure (config_data : json) : flow unit :=
  check_sections ["performance"; "safety"; "training"; "comprehensive";
                  "key_personnel"]%string config_data.

(** Check 2: the grade coefficients. *)
Definition validate_performance (config_data : json) : flow unit :=
  perf ← lift (py_getitem config_data "performance");
  has_coefficients ← lift (py_in "grade_coefficients" perf);
  require has_coefficients MissingGradeCoefficients;;
  check_grades ["D"; "C"; "B"; "B+"; "A"]%string perf.

(** Check 3: the critical threshold of the severity track, when present. *)
Definition validate_safety (config_data : json) : flow unit :=
  safety ← lift (py_getitem config_data "safety");
  has_track ← lift (py_in "severity_track" safety);
  has_critical ←
    (if has_track : bool then
       track ← lift (py_getitem safety "severity_track");
       lift (py_in "critical_threshold" track)
     else Continue false);
  if has_critical : bool then
    track ← lift (py_getitem safety "severity_track");
    threshold ← lift (py_getitem track "critical_threshold");
    require (negb (out_of_range threshold 1 50))
            (CriticalThresholdOutOfRange threshold)
  else Continue tt.

(** Check 4: the absolute fail count, when present. *)
Definition validate_training (config_data : json) : flow unit :=
  training ← lift (py_getitem config_data "training");
  has_rules ← lift (py_in "penalty_rules" training);
  has_absolute ←
    (if has_rules : bool then
       rules ← lift (py_getitem training "penalty_rules");
       lift (py_in "absolute_threshold" rules)
     else Continue false);
  if has_absolute : bool then
    rules ← lift (py_getitem training "penalty_rules");
    absolute ← lift (py_getitem rules "absolute_threshold");
    fail_count ← lift (py_get absolute "fail_count" (JInt 3));
    require (is_int fail_count && negb (out_of_range fail_count 1 10))
            (FailCountOutOfRange fail_count)
  else Continue tt.

(** Check 5: the sum of the score weights. *)
Definition validate_comprehensive (config_data : json) : flow unit :=
  comprehensive ← lift (py_getitem config_data "comprehensive");
  has_weights ← lift (py_in "score_weights" comprehensive);
  require has_weights MissingScoreWeights;;
  weights ← lift (py_getitem comprehensive "score_weights");
  values ← lift (py_values weights);
  total_weight ← lift (sum_values values 0);
  require (negb (Qltb 0.01 (Qabs (total_weight - 1.0))))
          (WeightSumNotOne total_weight).

(** The sum and the comparison of check 5 on weights that are floats, in
    binary64 arithmetic: [sum(weights.values())], which adds the values from
    the left to the integer 0, and [abs(total_weight - 1.0) > 0.01]. *)
Definition float_sum (values : list float) : float :=
  fold_left PrimFloat.add values 0%float.

Definition weight_sum_rejected (values : list float) : bool :=
  let total_weight := float_sum values in
  PrimFloat.ltb 0.01%float (PrimFloat.abs (PrimFloat.sub total_weight 1.0%float)).

(** Check 6: the key-personnel threshold. *)
Definition validate_key_personnel (config_data : json) : flow unit :=
  key_personnel ← lift (py_getitem config_data "key_personnel");
  has_threshold ← lift (py_in "comprehensive_threshold" key_personnel);
  require has_threshold MissingComprehensiveThreshold;;
  threshold ← lift (py_getitem key_personnel "comprehensive_threshold");
  require (negb (out_of_range threshold 0 100))
          (ComprehensiveThresholdOutOfRange threshold).

(** The body of the [try] block of [validate_config]: its six checks in
    order, then [return True, ...]. *)
Definition validate_config_body (config_data : json) : flow (bool * message) :=
  validate_structure config_data;;
  validate_performance config_data;;
  validate_safety config_data;;
  validate_training config_data;;
  validate_comprehensive config_data;;
  validate_key_personnel config_data;;
  Return (true, ValidationPassed).

Definition validate_config (config_data : json) : bool * message :=
  match validate_config_body config_data with
  | Continue verdict | Return verdict => verdict
  | Raised e => (false, ValidationException e)
  end.

(** *** The store: the three tables the service uses, and the class cache *)

Record ActiveConfigRow := {
  based_on_preset : option string;
  is_customized : bool;
  row_config_data : json;
  updated_by : option Z;
  updated_at : string }.

Record ConfigLogRow := {
  action : string;
  preset_name : option string;
  old_config : option json;
  new_config : option json;
  change_reason : string;
  changed_by : Z;
  changed_by_name : fstring;
  ip_address : option string }.

Record Database := {
  algorithm_active_config : option ActiveConfigRow;
  algorithm_config_logs : list ConfigLogRow;
  users : gmap Z string;
  foreign_keys : bool }.

Record Service := {
  db : Database;
  _cache : option json;
  _cache_time : Q }.

Definition cache_ttl : Q := 300.

(** [clear_cache]. *)
Definition clear_cache (s : Service) : Service :=
  {| db := db s; _cache := None; _cache_time := 0 |}.

(** The foreign key towards [users(id)], checked when the pragma is on. *)
Definition references_user (d : Database) (user_id : option Z) : bool :=
  match user_id with
  | None => true
  | Some id =>
      negb (foreign_keys d) || match users d !! id with Some _ => true | None => false end
  end.

(** [INSERT OR REPLACE INTO algorithm_active_config]. *)
Definition replace_active_config (row : ActiveConfigRow) (d : Database)
    : result Database :=
  if references_user d (updated_by row) then
    Ok {| algorithm_active_config := Some row;
          algorithm_config_logs := algorithm_config_logs d;
          users := users d; foreign_keys := foreign_keys d |}
  else Raise IntegrityError.

(** [INSERT INTO algorithm_config_logs]; [changed_by] is [NOT NULL]. *)
Definition insert_config_log (mk : Z → ConfigLogRow) (user_id : option Z)
    (d : Database) : result Database :=
  match user_id with
  | None => Raise IntegrityError
  | Some id =>
      if references_user d user_id then
        Ok {| algorithm_active_config := algorithm_active_config d;
              algorithm_config_logs := algorithm_config_logs d ++ [mk id];
              users := users d; foreign_keys := foreign_keys d |}
      else Raise IntegrityError
  end.

(** [get_active_config], at time [current_time]. *)
Definition get_active_config (current_time : Q) (s : Service)
    : result json * Service :=
  let cached :=
    match _cache s with
    | Some config =>
        if Qltb (current_time - _cache_time s) cache_ttl then Some config
        else None
    | None => None
    end in
  match cached with
  | Some config => (Ok config, s)
  | None =>
      match algorithm_active_config (db s) with
      | None => (Raise ValueError, s)
      | Some row =>
          (Ok (row_config_data row),
           {| db := db s; _cache := Some (row_config_data row);
              _cache_time := current_time |})
      end
  end.

(** The name written to the log: the given one, or the one of the [users]
    table, or ["用户<id>"]. *)
Definition log_username (username : option string) (user_id : option Z)
    (d : Database) : fstring :=
  match username with
  | Some (String _ _ as name) => [Lit name]
  | _ =>
      match user_id with
      | Some id =>
          match users d !! id with
          | Some name => [Lit name]
          | None => [Lit "用户"; Num (inject_Z id)]
          end
      | None => [Lit "用户None"]
      end
  end.

(** The [try] block of [update_custom_config]: the statements of the
    transaction, up to [conn.commit()]. *)
Definition update_transaction (config_data : json) (user_id : option Z)
    (reason : string) (username ip_address : option string) (now : string)
    (d : Database) : result Database :=
  let old_config_data :=
    match algorithm_active_config d with
    | Some current_row => Some (row_config_data current_row)
    | None => None
    end in
  d1 ← replace_active_config
         {| based_on_preset := None; is_customized := true;
            row_config_data := config_data; updated_by := user_id;
            updated_at := now |} d;
  let username := log_username username user_id d1 in
  insert_config_log
    (λ id, {| action := "CUSTOM_UPDATE"; preset_name := None;
              old_config := old_config_data; new_config := Some config_data;
              change_reason := reason; changed_by := id;
              changed_by_name := username; ip_address := ip_address |})
    user_id d1.

(** [update_custom_config]: the verdict and the state it leaves. *)
Definition update_custom_config (config_data : json) (user_id : option Z)
    (reason : string) (username ip_address : option string) (now : string)
    (s : Service) : (bool * message) * Service :=
  let '(is_valid, error_msg) := validate_config config_data in
  if negb is_valid then ((false, UpdateRejected error_msg), s)
  else
    match update_transaction config_data user_id reason username ip_address
            now (db s) with
    | Ok committed =>
        ((true, UpdateSucceeded),
         clear_cache {| db := committed; _cache := _cache s;
                        _cache_time := _cache_time s |})
    | Raise e => ((false, UpdateFailed e), s)
    end.

(** ** The JSON document of a configuration *)

(** A dict literal; a key whose value is [None] here is left out. *)
Definition obj (fields : list (string * option json)) : json :=
  JObj (list_to_map (omap (λ kv, pair (fst kv) <$> snd kv) fields)).

Definition range_json (r : GradeRange) : json :=
  obj [("min", Some (JFloat (range_min r))); ("max", Some (JFloat (range_max r)))]%string.

Definition score_range_json (r : ScoreRange) : json :=
  obj [("min", JFloat <$> sr_min r); ("max", JFloat <$> sr_max r);
       ("multiplier", Some (JFloat (sr_multiplier r)))]%string.

Definition afr_rule_json (r : AfrRule) : json :=
  obj [("min", Some (JFloat (afr_min r))); ("max", JFloat <$> afr_max r);
       ("coefficient", Some (JFloat (afr_coefficient r)));
       ("label", Some (JStr (afr_label r)))]%string.

Definition afr_table_json (t : list AfrRule) : json :=
  JArr (map afr_rule_json t).

Definition performance_json (p : PerformanceConfig) : json :=
  let r := grade_ranges p in
  let c := contamination_rules p in
  obj [("grade_coefficients", Some (JObj (JFloat <$> grade_coefficients p)));
       ("grade_ranges", Some (obj [
          ("D", Some (obj [("min", Some (JFloat (ranges_D_min r)));
                           ("max", Some (JFloat (ranges_D_max r)));
                           ("radar_override",
                            Some (JFloat (ranges_D_radar_override r)))]));
          ("C", Some (range_json (ranges_C r)));
          ("B", Some (range_json (ranges_B r)));
          ("B+", Some (range_json (ranges_Bplus r)));
          ("A", Some (range_json (ranges_A r)))]));
       ("contamination_rules", Some (obj [
          ("d_count_threshold", Some (JFloat (d_count_threshold c)));
          ("c_count_threshold", Some (JFloat (c_count_threshold c)));
          ("d_cap_score", Some (JFloat (d_cap_score c)));
          ("c_cap_score", Some (JFloat (c_cap_score c)))]));
       ("time_decay",
        (λ t, obj [("enabled", JBool <$> td_enabled t);
                   ("decay_months", JFloat <$> td_decay_months t);
                   ("decay_rate", JFloat <$> td_decay_rate t)]) <$> time_decay p)
      ]%string.

Definition safety_json (s : SafetyConfig) : json :=
  obj [("behavior_track", Some (obj [
          ("freq_thresholds",
           Some (JArr (map JFloat (freq_thresholds (behavior_track s)))));
          ("freq_multipliers",
           Some (JArr (map JFloat (freq_multipliers (behavior_track s)))))]));
       ("severity_track", Some (obj [
          ("score_ranges",
           Some (JArr (map score_range_json (score_ranges (severity_track s)))));
          ("critical_threshold",
           Some (JFloat (critical_threshold (severity_track s))))]));
       ("thresholds", Some (obj [
          ("fail_score", Some (JFloat (fail_score (thresholds s))));
          ("warning_score", Some (JFloat (warning_score (thresholds s))))]))
      ]%string.

Definition training_json (t : TrainingConfig) : json :=
  let p := penalty_rules t in
  let d := duration_thresholds t in
  obj [("penalty_rules", Some (obj [
          ("absolute_threshold", Some (obj [
             ("fail_count", Some (JInt (at_fail_count (absolute_threshold p))));
             ("coefficient",
              Some (JFloat (at_coefficient (absolute_threshold p))))]));
          ("small_sample", Some (obj [
             ("sample_size", Some (JFloat (sample_size (small_sample p))));
             ("coefficient", Some (JFloat (ss_coefficient (small_sample p))))]));
          ("afr_thresholds", afr_table_json <$> afr_thresholds p);
          ("afr_thresholds_new_employee",
           afr_table_json <$> afr_thresholds_new_employee p);
          ("afr_thresholds_experienced",
           afr_table_json <$> afr_thresholds_experienced p)]));
       ("duration_thresholds", Some (obj [
          ("short_term_days", Some (JFloat (short_term_days d)));
          ("mid_term_days", Some (JFloat (mid_term_days d)));
          ("default_scores", Some (obj [
             ("short", Some (JFloat (default_short (default_scores d))));
             ("mid", Some (JFloat (default_mid (default_scores d))));
             ("long", Some (JFloat (default_long (default_scores d))))]))]))
      ]%string.

Definition stability_json (s : StabilityConfig) : json :=
  let w := seniority_weights s in
  let t := seniority_thresholds s in
  obj [("seniority_weights", Some (obj [
          ("age", Some (JFloat (sw_age w)));
          ("working_years", Some (JFloat (sw_working_years w)));
          ("company_years", Some (JFloat (sw_company_years w)));
          ("cert_years", Some (JFloat (sw_cert_years w)));
          ("solo_years", Some (JFloat (sw_solo_years w)))]));
       ("seniority_thresholds", Some (obj [
          ("age_cap", Some (JFloat (age_cap t)));
          ("working_cap", Some (JFloat (working_cap t)));
          ("company_cap", Some (JFloat (company_cap t)));
          ("cert_cap", Some (JFloat (cert_cap t)));
          ("solo_cap", Some (JFloat (solo_cap t)))]));
       ("dimension_weights", Some (obj [
          ("seniority", Some (JFloat (dw_seniority (dimension_weights s))));
          ("volatility", Some (JFloat (dw_volatility (dimension_weights s))))]));
       ("volatility_penalty", Some (obj [
          ("low_threshold", Some (JFloat (low_threshold (volatility_penalty s))));
          ("high_threshold", Some (JFloat (high_threshold (volatility_penalty s))));
          ("max_penalty", Some (JFloat (max_penalty (volatility_penalty s))))]))
      ]%string.

(** The document [json.dumps] writes for a configuration. *)
Definition config_json (c : AlgorithmConfig) : json :=
  let w := score_weights (comprehensive c) in
  obj [("performance", Some (performance_json (performance c)));
       ("safety", Some (safety_json (safety c)));
       ("training", Some (training_json (training c)));
       ("comprehensive", Some (obj [
          ("score_weights", Some (obj [
             ("performance", Some (JFloat (w_performance w)));
             ("safety", Some (JFloat (w_safety w)));
             ("training", Some (JFloat (w_training w)));
             ("stability", Some (JFloat (w_stability w)));
             ("learning", Some (JFloat (w_learning w)))]))]));
       ("key_personnel", Some (obj [
          ("comprehensive_threshold",
           Some (JFloat (comprehensive_threshold (key_personnel c))));
          ("monthly_violation_threshold",
           Some (JFloat (monthly_violation_threshold (key_personnel c))))]));
       ("stability", stability_json <$> stability c)]%string.

(** ** Sample inputs *)

(** A parser for ["YYYY-MM"] dates written with digits, and a clock, used
    to run the period calculator on examples. *)
Definition digit_of (c : ascii) : option Z :=
  let n := nat_of_ascii c in
  if (48 <=? n)%nat && (n <=? 57)%nat then Some (Z.of_nat (n - 48)) else None.

Definition sample_strptime_ym (s : string) : option (Z * Z) :=
  match s with
  | String y1 (String y2 (String y3 (String y4
      (String "-" (String m1 (String m2 EmptyString)))))) =>
      a ← digit_of y1; b ← digit_of y2; c ← digit_of y3; d ← digit_of y4;
      e ← digit_of m1; f ← digit_of m2;
      let month := (10 * e + f)%Z in
      if (1 <=? month)%Z && (month <=? 12)%Z
      then Some ((1000 * a + 100 * b + 10 * c + d)%Z, month)
      else None
  | _ => None
  end.

(** [(now - parsed).days] on 2026-11-06 for the two dates of an example:
    a birth 13000 days and a career start 1702 days before. *)
Definition sample_days_since (date_str : string) : option Z :=
  if String.eqb date_str "1991-04-04" then Some 13000%Z
  else if String.eqb date_str "2022-03-10" then Some 1702%Z
  else None.

(** The standard configuration with the coefficient of grade D raised to
    2.0, the largest value [validate_config] accepts. *)
Definition D_REWARDING_CONFIG : AlgorithmConfig := {|
  performance := {|
    grade_coefficients := <["D" := 2.0]> (grade_coefficients (performance STANDARD_CONFIG));
    grade_ranges := grade_ranges (performance STANDARD_CONFIG);
    contamination_rules := contamination_rules (performance STANDARD_CONFIG);
    time_decay := time_decay (performance STANDARD_CONFIG) |};
  safety := safety STANDARD_CONFIG;
  training := training STANDARD_CONFIG;
  comprehensive := comprehensive STANDARD_CONFIG;
  key_personnel := key_personnel STANDARD_CONFIG;
  stability := stability STANDARD_CONFIG |}.

(** The standard configuration with [radar_override] set to 50.25. *)
Definition FINE_OVERRIDE_CONFIG : AlgorithmConfig := {|
  performance := {|
    grade_coefficients := grade_coefficients (performance STANDARD_CONFIG);
    grade_ranges := {|
      ranges_D_min := 0; ranges_D_max := 79.9; ranges_D_radar_override := 50.25;
      ranges_C := ranges_C (grade_ranges (performance STANDARD_CONFIG));
      ranges_B := ranges_B (grade_ranges (performance STANDARD_CONFIG));
      ranges_Bplus := ranges_Bplus (grade_ranges (performance STANDARD_CONFIG));
      ranges_A := ranges_A (grade_ranges (performance STANDARD_CONFIG)) |};
    contamination_rules := contamination_rules (performance STANDARD_CONFIG);
    time_decay := time_decay (performance STANDARD_CONFIG) |};
  safety := safety STANDARD_CONFIG;
  training := training STANDARD_CONFIG;
  comprehensive := comprehensive STANDARD_CONFIG;
  key_personnel := key_personnel STANDARD_CONFIG;
  stability := stability STANDARD_CONFIG |}.

(** ** Notions used to state the properties *)

(** The number of failing records: those with [is_disqualified = 1], or
    [score = 0], or [is_qualified = 0]. *)
Definition count_failures (training_records : list TrainingRecord) : Z :=
  Z.of_nat (length (filter (λ record, is_fail record = true) training_records)).

(** The total the loop of the training calculator accumulates: the scores
    added from the left, a missing or zero score counting 0. *)
Definition score_total (training_records : list TrainingRecord) : Q :=
  fold_left Qplus
    (map (λ record, default 0 (tr_score record)) training_records) 0.

(** The plain mean of a list of numbers. *)
Definition mean (l : list Q) : Q :=
  py_sum l / inject_Z (Z.of_nat (length l)).

(** The coefficient of one month: that of its normalized grade, 1.0 when
    the configuration does not list it. *)
Definition month_coefficient (config : AlgorithmConfig) (grade : string) : Q :=
  coeff_get (grade_coefficients (performance config)) (normalize_grade grade).

(** [l] with [x] inserted at position [i] (at the end when [i] is past it). *)
Definition insert_at {A} (i : nat) (x : A) (l : list A) : list A :=
  take i l ++ x :: drop i l.

(** A record of a failed check: disqualified, with score 0. *)
Definition failed_record : TrainingRecord :=
  {| tr_score := Some 0; tr_is_qualified := Some 0%Z;
     tr_is_disqualified := Some 1%Z; tr_training_date := "2026-10-01" |}.

(** A record of a check scored 80 and judged not qualified. *)
Definition unqualified_record : TrainingRecord :=
  {| tr_score := Some 80; tr_is_qualified := Some 0%Z;
     tr_is_disqualified := Some 0%Z; tr_training_date := "2026-10-03" |}.

(** A computation that, when it returns early, returns a rejection. *)
Definition only_rejects {A} (c : flow A) : Prop :=
  ∀ verdict, c = Return verdict → fst verdict = false.

(** The standard configuration with the performance weight raised to 0.5:
    its weights sum to 1.15. *)
Definition HEAVY_WEIGHTS_CONFIG : AlgorithmConfig := {|
  performance := performance STANDARD_CONFIG;
  safety := safety STANDARD_CONFIG;
  training := training STANDARD_CONFIG;
  comprehensive := {|
    score_weights := {|
      w_performance := 0.5; w_safety := 0.30; w_training := 0.20;
      w_stability := 0.10; w_learning := 0.05 |} |};
  key_personnel := key_personnel STANDARD_CONFIG;
  stability := stability STANDARD_CONFIG |}.

(** A store as the migration leaves it, with one user and a warm cache. *)
Definition sample_service : Service := {|
  db := {|
    algorithm_active_config := Some {|
      based_on_preset := Some "standard"%string; is_customized := false;
      row_config_data := config_json STANDARD_CONFIG;
      updated_by := None; updated_at := "2026-01-01 00:00:00" |};
    algorithm_config_logs := [];
    users := {[ 1%Z := "admin"%string ]};
    foreign_keys := true |};
  _cache := Some (config_json STANDARD_CONFIG);
  _cache_time := 100 |}.

(** The sum of a list of numbers, from the right. *)
Definition Qsum (l : list Q) : Q := fold_right Qplus 0 l.

(** The configuration with its [time_decay] settings replaced. *)
Definition set_time_decay (td : option TimeDecay) (config : AlgorithmConfig)
    : AlgorithmConfig := {|
  performance := {|
    grade_coefficients := grade_coefficients (performance config);
    grade_ranges := grade_ranges (performance config);
    contamination_rules := contamination_rules (performance config);
    time_decay := td |};
  safety := safety config;
  training := training config;
  comprehensive := comprehensive config;
  key_personnel := key_personnel config;
  stability := stability config |}.

(** The decay settings in force: [decay_months] and [decay_rate]. *)
Definition decay_months_of (config : AlgorithmConfig) : Q :=
  default 6 (td_decay_months
               (default default_time_decay (time_decay (performance config)))).

Definition decay_rate_of (config : AlgorithmConfig) : Q :=
  default 0.9 (td_decay_rate
                 (default default_time_decay (time_decay (performance config)))).

(** Whether the time-decay loop runs. *)
Definition decay_applies (grade_list : list string)
    (grade_dates : option (list string)) (config : AlgorithmConfig) : bool :=
  default true (td_enabled
                  (default default_time_decay (time_decay (performance config))))
  && match grade_dates with
     | Some ((_ :: _) as ds) => (length ds =? length grade_list)%nat
     | _ => false
     end.

Section ContaminationCounts.

Variable strptime_ym : string → option (Z * Z).
Variable now_year now_month : Z.
Variable config : AlgorithmConfig.

(** What one D or C month adds to its effective count: 1 without a date or
    when the [try] block raises, the decay weight within the lookback, 0
    beyond it. *)
Definition month_weight (date : option string) : Q :=
  match date with
  | None => 1
  | Some date_str =>
      match months_ago_of strptime_ym now_year now_month date_str with
      | None => 1
      | Some months_ago =>
          if Qle_bool (inject_Z months_ago) (decay_months_of config) then
            match py_pow (decay_rate_of config) months_ago with
            | Ok decay_weight => decay_weight
            | Raise _ => 1
            end
          else 0
      end
  end.

(** The contribution of a month to the effective count of [grade]. *)
Definition grade_weight (grade : string) (item : string * option string) : Q :=
  if String.eqb (normalize_grade (fst item)) grade then month_weight (snd item)
  else 0.

(** The months the counting loop visits, each with its date when the
    time-decay loop runs. *)
Definition counted_months (grade_list : list string)
    (grade_dates : option (list string)) : list (string * option string) :=
  if decay_applies grade_list grade_dates config
  then combine grade_list (map Some (default [] grade_dates))
  else map (λ grade, (grade, None)) grade_list.

End ContaminationCounts.

(** The counters of the plain loop agree with their effective versions. *)
Definition plain_invariant (acc : GradeScan) : Prop :=
  d_count_effective acc == inject_Z (d_count acc) ∧
  c_count_effective acc == inject_Z (c_count acc).

(** ** Learning trend: [calculate_learning_ability_monthly] *)

Record MonthlyLearning := {
  ml_learning_score : Q;
  ml_delta : Q;
  ml_slope : Q;
  ml_status_color : color;
  ml_alert_tag : fstring;
  ml_tier : string }.

(** Step 3 of the monthly algorithm: the corrected score, the tier, the
    colour and the alert tag. *)
Definition monthly_learning_case (score_curr delta learning_score : Q)
    : Q * string * color * fstring :=
  if Qle_bool 95 score_curr && Qle_bool (-2) delta then
    (Qmax 100 learning_score, "高位企稳"%string, GOLD,
     [Lit "🏆 顶尖水平 (大师红利)"])
  else if Qltb score_curr 70 && Qle_bool delta 0 then
    (learning_score * 0.8, "低位躺平"%string, RED,
     [Lit "❌ 差且无进步 (学习态度有问题)"])
  else if Qltb 10 delta then
    (learning_score, "潜力股"%string, GOLD,
     [Lit "⭐ 进步神速 (+"; Fixed 1 delta; Lit "分)"])
  else if Qltb delta (-10) then
    (learning_score, "懈怠型"%string, RED,
     [Lit "⚠️ 严重退步 ("; Fixed 1 delta; Lit "分)"])
  else if Qltb 0 delta then
    (learning_score, "稳健型"%string, GREEN,
     [Lit "✅ 稳中有进 (+"; Fixed 1 delta; Lit "分)"])
  else if Qltb delta 0 then
    (learning_score, "需关注"%string, YELLOW,
     [Lit "⚡ 略有下滑 ("; Fixed 1 delta; Lit "分)"])
  else (learning_score, "稳健型"%string, GREEN, [Lit "✅ 状态正常"]).

Definition calculate_learning_ability_monthly (score_curr score_prev : Q)
    : MonthlyLearning :=
  let delta := score_curr - score_prev in
  let learning_score := score_curr + delta * 1.5 in
  let '(learning_score, tier, status_color, alert_tag) :=
    monthly_learning_case score_curr delta learning_score in
  let learning_score := Qmax 0 learning_score in
  {| ml_learning_score := py_round learning_score 1;
     ml_delta := py_round delta 1;
     ml_slope := 0;
     ml_status_color := status_color;
     ml_alert_tag := alert_tag;
     ml_tier := tier |}.

(** ** Learning trend: [calculate_learning_ability_longterm] *)

(** The [learning] section of the configuration; a key that is absent or
    null takes its default. *)
Record LearningConfig := {
  potential_threshold : option Q;
  decline_threshold : option Q;
  decline_penalty : option Q;
  slope_amplifier : option Q }.

(** The default of [config.get('learning', ...)]. *)
Definition default_learning_config : LearningConfig :=
  {| potential_threshold := Some 0.5;
     decline_threshold := Some (-0.2);
     decline_penalty := Some 0.8;
     slope_amplifier := Some 10 |}.

Record LongtermLearning := {
  lt_learning_score : Q;
  lt_slope : Q;
  lt_average_score : Q;
  lt_status_color : color;
  lt_alert_tag : fstring;
  lt_tier : string }.

(** [np.arange(n)], as numbers. *)
Definition np_arange (n : nat) : list Q :=
  map (λ i, inject_Z (Z.of_nat i)) (seq 0 n).

(** The element-wise product [x * y] of two arrays of one length. *)
Definition np_mul (x y : list Q) : list Q :=
  map (λ p, fst p * snd p) (combine x y).

(** Step 2: the least-squares slope [k] of the series. *)
Definition regression_slope (score_list : list Q) : Q :=
  let n := inject_Z (Z.of_nat (length score_list)) in
  let x := np_arange (length score_list) in
  let y := score_list in
  let sum_x := py_sum x in
  let sum_y := py_sum y in
  let sum_xy := py_sum (np_mul x y) in
  let sum_x2 := py_sum (np_mul x x) in
  if negb (Qeq_bool (n * sum_x2 - sum_x * sum_x) 0)
  then (n * sum_xy - sum_x * sum_y) / (n * sum_x2 - sum_x * sum_x)
  else 0.

(** [learning] is [config.get('learning')]: the section of the
    configuration when it has one. *)
Definition calculate_learning_ability_longterm (score_list : list Q)
    (learning : option LearningConfig) : LongtermLearning :=
  let learning_config := default default_learning_config learning in
  if (length score_list <? 2)%nat then
    {| lt_learning_score := 0; lt_slope := 0; lt_average_score := 0;
       lt_status_color := GRAY; lt_alert_tag := [Lit "⚪ 数据不足"];
       lt_tier := "数据不足" |}
  else
    let n := inject_Z (Z.of_nat (length score_list)) in
    let k := regression_slope score_list in
    let average_score := py_sum score_list / n in
    let slope_amplifier := default 10 (slope_amplifier learning_config) in
    let potential_threshold := default 0.5 (potential_threshold learning_config) in
    let decline_threshold := default (-0.2) (decline_threshold learning_config) in
    let decline_penalty := default 0.8 (decline_penalty learning_config) in
    let base_score := average_score in
    let trend_bonus := k * slope_amplifier in
    let final_score := base_score + trend_bonus in
    let final_score := Qmax 0 (Qmin 100 final_score) in
    let '(tier, status_color, alert_tag) :=
      if Qltb potential_threshold k then
        ("📈 上升趋势"%string, GREEN,
         [Lit "表现上升（平均分"; Fixed 1 average_score; Lit "，斜率";
          Fixed 2 k; Lit "）"])
      else if Qle_bool decline_threshold k then
        ("➡️ 稳定表现"%string, BLUE,
         [Lit "表现稳定（平均分"; Fixed 1 average_score; Lit "，斜率";
          Fixed 2 k; Lit "）"])
      else
        ("📉 下降趋势"%string, ORANGE,
         [Lit "表现下滑（平均分"; Fixed 1 average_score; Lit "，斜率";
          Fixed 2 k; Lit "）"]) in
    {| lt_learning_score := py_round final_score 1;
       lt_slope := py_round k 3;
       lt_average_score := py_round average_score 1;
       lt_status_color := status_color;
       lt_alert_tag := alert_tag;
       lt_tier := tier |}.

(** ** The configuration service: presets *)

(** [STRICT_CONFIG] of [migrate_add_algorithm_config.py]. *)
Definition STRICT_CONFIG : AlgorithmConfig := {|
  performance := {|
    grade_coefficients := grade_coefficients (performance STANDARD_CONFIG);
    grade_ranges := grade_ranges (performance STANDARD_CONFIG);
    contamination_rules := {|
      d_count_threshold := 1; c_count_threshold := 2;
      d_cap_score := 85; c_cap_score := 92 |};
    time_decay := time_decay (performance STANDARD_CONFIG) |};
  safety := {|
    behavior_track := behavior_track (safety STANDARD_CONFIG);
    severity_track := {|
      score_ranges := score_ranges (severity_track (safety STANDARD_CONFIG));
      critical_threshold := 10 |};
    thresholds := thresholds (safety STANDARD_CONFIG) |};
  training := {|
    penalty_rules := {|
      absolute_threshold := {| at_fail_count := 3; at_coefficient := 0.4 |};
      small_sample := {| sample_size := 10; ss_coefficient := 0.6 |};
      afr_thresholds := Some [
        {| afr_min := 2.5; afr_max := None; afr_coefficient := 0.4;
           afr_label := "高频失格" |};
        {| afr_min := 1.5; afr_max := Some 2.5; afr_coefficient := 0.6;
           afr_label := "频率偏高" |};
        {| afr_min := 0.5; afr_max := Some 1.5; afr_coefficient := 0.85;
           afr_label := "偶发失格" |} ];
      afr_thresholds_new_employee := None;
      afr_thresholds_experienced := None |};
    duration_thresholds := duration_thresholds (training STANDARD_CONFIG) |};
  comprehensive := comprehensive STANDARD_CONFIG;
  key_personnel := {|
    comprehensive_threshold := 75; monthly_violation_threshold := 2 |};
  stability := stability STANDARD_CONFIG |}.

(** [LENIENT_CONFIG] of [migrate_add_algorithm_config.py]. *)
Definition LENIENT_CONFIG : AlgorithmConfig := {|
  performance := {|
    grade_coefficients := grade_coefficients (performance STANDARD_CONFIG);
    grade_ranges := grade_ranges (performance STANDARD_CONFIG);
    contamination_rules := {|
      d_count_threshold := 1; c_count_threshold := 3;
      d_cap_score := 95; c_cap_score := 97 |};
    time_decay := time_decay (performance STANDARD_CONFIG) |};
  safety := {|
    behavior_track := behavior_track (safety STANDARD_CONFIG);
    severity_track := {|
      score_ranges := score_ranges (severity_track (safety STANDARD_CONFIG));
      critical_threshold := 15 |};
    thresholds := thresholds (safety STANDARD_CONFIG) |};
  training := {|
    penalty_rules := {|
      absolute_threshold := {| at_fail_count := 4; at_coefficient := 0.6 |};
      small_sample := {| sample_size := 10; ss_coefficient := 0.8 |};
      afr_thresholds := Some [
        {| afr_min := 3.0; afr_max := None; afr_coefficient := 0.6;
           afr_label := "高频失格" |};
        {| afr_min := 2.0; afr_max := Some 3.0; afr_coefficient := 0.8;
           afr_label := "频率偏高" |};
        {| afr_min := 0.8; afr_max := Some 2.0; afr_coefficient := 0.95;
           afr_label := "偶发失格" |} ];
      afr_thresholds_new_employee := None;
      afr_thresholds_experienced := None |};
    duration_thresholds := duration_thresholds (training STANDARD_CONFIG) |};
  comprehensive := comprehensive STANDARD_CONFIG;
  key_personnel := {|
    comprehensive_threshold := 65; monthly_violation_threshold := 4 |};
  stability := stability STANDARD_CONFIG |}.

(** A row of the table [algorithm_presets], which the service only reads. *)
Record PresetRow := {
  preset_row_name : string;
  preset_row_key : string;
  preset_row_description : string;
  preset_row_config_data : json }.

(** The rows the migration inserts. *)
Definition seeded_presets : list PresetRow := [
  {| preset_row_name := "严格"; preset_row_key := "strict";
     preset_row_description := "更严格的惩罚力度，适用于高要求场景";
     preset_row_config_data := config_json STRICT_CONFIG |};
  {| preset_row_name := "标准"; preset_row_key := "standard";
     preset_row_description := "标准惩罚力度，平衡公平与激励";
     preset_row_config_data := config_json STANDARD_CONFIG |};
  {| preset_row_name := "宽松"; preset_row_key := "lenient";
     preset_row_description := "较宽松的惩罚力度，适用于培养阶段";
     preset_row_config_data := config_json LENIENT_CONFIG |} ].

(** The messages of [apply_preset]. *)
Inductive preset_message : Type :=
  | PresetMissing (preset_key : string)     (* 预设方案不存在: ... *)
  | PresetApplied (preset_name : string)    (* 成功应用预设方案: ... *)
  | PresetFailed (e : exn).                 (* 应用预设方案失败: ... *)

(** [SELECT ... FROM algorithm_presets WHERE preset_key = ?]. *)
Definition find_preset (presets : list PresetRow) (preset_key : string)
    : option PresetRow :=
  List.find (λ row, String.eqb (preset_row_key row) preset_key) presets.

(** The statements of [apply_preset] after the preset was found, up to
    [conn.commit()]. *)
Definition preset_transaction (preset_row : PresetRow) (preset_key : string)
    (user_id : option Z) (reason : string) (username ip_address : option string)
    (now : string) (d : Database) : result Database :=
  let preset_name := preset_row_name preset_row in
  let new_config_data := preset_row_config_data preset_row in
  let old_config_data :=
    match algorithm_active_config d with
    | Some current_row => Some (row_config_data current_row)
    | None => None
    end in
  d1 ← replace_active_config
         {| based_on_preset := Some preset_key; is_customized := false;
            row_config_data := new_config_data; updated_by := user_id;
            updated_at := now |} d;
  let username := log_username username user_id d1 in
  insert_config_log
    (λ id, {| action := "APPLY_PRESET"; preset_name := Some preset_name;
              old_config := old_config_data; new_config := Some new_config_data;
              change_reason := reason; changed_by := id;
              changed_by_name := username; ip_address := ip_address |})
    user_id d1.

(** [apply_preset], over the preset table [presets]. *)
Definition apply_preset (presets : list PresetRow) (preset_key : string)
    (user_id : option Z) (reason : string) (username ip_address : option string)
    (now : string) (s : Service) : (bool * preset_message) * Service :=
  match find_preset presets preset_key with
  | None => ((false, PresetMissing preset_key), s)
  | Some preset_row =>
      match preset_transaction preset_row preset_key user_id reason username
              ip_address now (db s) with
      | Ok committed =>
          ((true, PresetApplied (preset_row_name preset_row)),
           clear_cache {| db := committed; _cache := _cache s;
                          _cache_time := _cache_time s |})
      | Raise e => ((false, PresetFailed e), s)
      end
  end.

(** The dict [get_current_info] returns. *)
Record CurrentInfo := {
  info_based_on_preset : option string;
  info_is_customized : bool;
  info_updated_at : option string }.

Definition get_current_info (s : Service) : CurrentInfo :=
  match algorithm_active_config (db s) with
  | Some row =>
      {| info_based_on_preset := based_on_preset row;
         info_is_customized := is_customized row;
         info_updated_at := Some (updated_at row) |}
  | None =>
      {| info_based_on_preset := None; info_is_customized := false;
         info_updated_at := None |}
  end.

(** The cache, when it holds a configuration, holds the stored one. *)
Definition cache_coherent (s : Service) : Prop :=
  ∀ cached, _cache s = Some cached →
    row_config_data <$> algorithm_active_config (db s) = Some cached.

(** ** Personnel: age and the statistics charts *)

(** A [datetime.date]. *)
Record date := {
  year : Z;
  month : Z;
  day : Z }.

(** The comparison [(m1, d1) < (m2, d2)] of two tuples of integers. *)
Definition pair_ltb (a b : Z * Z) : bool :=
  (fst a <? fst b)%Z || ((fst a =? fst b)%Z && (snd a <? snd b)%Z).

(** [_calculate_age], with [parsed] the result of [_parse_date_string] on
    the birth date and [today] the date of the call. *)
Definition _calculate_age (parsed : option date) (today : date) : option Z :=
  match parsed with
  | None => None
  | Some parsed =>
      let years := (year today - year parsed)%Z in
      let years :=
        if pair_ltb (month today, day today) (month parsed, day parsed)
        then (years - 1)%Z else years in
      Some (Z.max years 0)
  end.

(** The keys of a serialized person ([_serialize_person]) that the charts
    read: [age] is the [int] of [_calculate_age], [tenure_years] the number
    of [_calculate_years_since], [education] a column of the table. *)
Record PersonRow := {
  age : option Z;
  education : option string;
  tenure_years : option Q }.

(** [counts[i] += 1]; the index is one of the list. *)
Definition increment (i : nat) (counts : list Z) : list Z :=
  alter (λ c, (c + 1)%Z) i counts.

Definition age_step (age_counts : list Z) (row : PersonRow) : list Z :=
  match age row with
  | None => age_counts
  | Some age =>
      if (age <=? 25)%Z then increment 0 age_counts
      else if (26 <=? age)%Z && (age <=? 35)%Z then increment 1 age_counts
      else if (36 <=? age)%Z && (age <=? 45)%Z then increment 2 age_counts
      else increment 3 age_counts
  end.

Definition tenure_step (tenure_counts : list Z) (row : PersonRow) : list Z :=
  match tenure_years row with
  | None => tenure_counts
  | Some tenure =>
      if Qltb tenure 1 then increment 0 tenure_counts
      else if Qle_bool 1 tenure && Qltb tenure 3 then increment 1 tenure_counts
      else if Qle_bool 3 tenure && Qltb tenure 5 then increment 2 tenure_counts
      else if Qle_bool 5 tenure && Qltb tenure 10 then increment 3 tenure_counts
      else increment 4 tenure_counts
  end.

(** [row.get("education") or "未填写"]. *)
Definition education_of (row : PersonRow) : string :=
  match education row with
  | Some (String _ _ as label) => label
  | _ => "未填写"
  end.

(** A [collections.Counter]: the keys in the order of their first count. *)
Fixpoint counter_add (label : string) (counter : list (string * Z))
    : list (string * Z) :=
  match counter with
  | [] => [(label, 1%Z)]
  | (key, count) :: rest =>
      if String.eqb key label then (key, (count + 1)%Z) :: rest
      else (key, count) :: counter_add label rest
  end.

Definition Counter (labels : list string) : list (string * Z) :=
  fold_left (λ counter label, counter_add label counter) labels [].

(** [counter[label]]: 0 for a key that was never counted. *)
Fixpoint counter_getitem (counter : list (string * Z)) (label : string) : Z :=
  match counter with
  | [] => 0%Z
  | (key, count) :: rest =>
      if String.eqb key label then count else counter_getitem rest label
  end.

Record Chart := {
  labels : list string;
  values : list Z }.

Record PersonnelCharts := {
  chart_age : Chart;
  chart_education : Chart;
  chart_tenure : Chart }.

Definition _build_personnel_charts (rows : list PersonRow) : PersonnelCharts :=
  let age_labels := ["25岁及以下"; "26-35岁"; "36-45岁"; "46岁及以上"]%string in
  let age_counts := fold_left age_step rows [0; 0; 0; 0]%Z in
  let education_counter := Counter (map education_of rows) in
  let education_labels := map fst education_counter in
  let education_counts :=
    map (counter_getitem education_counter) education_labels in
  let tenure_labels :=
    ["1年以下"; "1-3年"; "3-5年"; "5-10年"; "10年以上"]%string in
  let tenure_counts := fold_left tenure_step rows [0; 0; 0; 0; 0]%Z in
  {| chart_age := {| labels := age_labels; values := age_counts |};
     chart_education :=
       {| labels := education_labels; values := education_counts |};
     chart_tenure := {| labels := tenure_labels; values := tenure_counts |} |}.

(** The number of rows that satisfy [p]. *)
Definition count_rows (p : PersonRow → bool) (rows : list PersonRow) : Z :=
  Z.of_nat (length (List.filter p rows)).

Definition sum_counts (counts : list Z) : Z := fold_right Z.add 0%Z counts.

(** The date [a] is not after the date [b]. *)
Definition date_le (a b : date) : Prop :=
  (year a < year b
   ∨ (year a = year b ∧ (month a < month b
                         ∨ (month a = month b ∧ day a <= day b))))%Z.

(** The birthday of the person in the year [y]. *)
Definition birthday (parsed : date) (y : Z) : date :=
  {| year := y; month := month parsed; day := day parsed |}.

(** ** Notions used to state further properties *)

(** Every AFR rule that the calculator can consult: the shared table and
    the tables of new and of experienced employees. *)
Definition all_afr_rules (rules : PenaltyRules) : list AfrRule :=
  default [] (afr_thresholds rules)
  ++ default [] (afr_thresholds_new_employee rules)
  ++ default [] (afr_thresholds_experienced rules).

(** The range that clamps the raw score of a normalized grade other than D:
    that of B+ for a grade that is not C, B or A. *)
Definition range_of_grade (grade_ranges : GradeRanges) (grade : string)
    : GradeRange :=
  if String.eqb grade "C" then ranges_C grade_ranges
  else if String.eqb grade "B" then ranges_B grade_ranges
  else if String.eqb grade "A" then ranges_A grade_ranges
  else ranges_Bplus grade_ranges.

(** Weights that are not negative and sum to at most 1, and a penalty that
    is not negative. *)
Definition normalized_stability (sc : StabilityConfig) : Prop :=
  let w := seniority_weights sc in
  let dw := dimension_weights sc in
  0 <= sw_age w ∧ 0 <= sw_working_years w ∧ 0 <= sw_company_years w ∧
  0 <= sw_cert_years w ∧ 0 <= sw_solo_years w ∧
  sw_age w + sw_working_years w + sw_company_years w + sw_cert_years w
    + sw_solo_years w <= 1 ∧
  0 <= dw_seniority dw ∧ 0 <= dw_volatility dw ∧
  dw_seniority dw + dw_volatility dw <= 1 ∧
  0 <= max_penalty (volatility_penalty sc).

(** [config_data[a][b]] and [config_data[a][b][c]]. *)
Definition py_path (config_data : json) (keys : list string) : result json :=
  foldl (λ acc key, container ← acc; py_getitem container key)
        (Ok config_data) keys.

(** A JSON number that is neither below [lo] nor above [hi]: what the
    comparisons [v < lo or v > hi] of a range check let through. *)
Definition number_not_outside (v : json) (lo hi : Q) : Prop :=
  ∃ q, as_number v = Some q ∧ ¬ q < lo ∧ ¬ hi < q.

(** A JSON number within [lo, hi]. *)
Definition number_within (v : json) (lo hi : Q) : Prop :=
  ∃ q, as_number v = Some q ∧ lo <= q <= hi.

(** The age groups of the chart. *)
Definition age_at_most (hi : Z) (row : PersonRow) : bool :=
  match age row with Some a => (a <=? hi)%Z | None => false end.

Definition age_between (lo hi : Z) (row : PersonRow) : bool :=
  match age row with Some a => (lo <=? a)%Z && (a <=? hi)%Z | None => false end.

Definition age_at_least (lo : Z) (row : PersonRow) : bool :=
  match age row with Some a => (lo <=? a)%Z | None => false end.

(** The tenure groups of the chart: [lo <= tenure < hi]; a bound that is
    [None] is absent. *)
Definition tenure_between (lo hi : option Q) (row : PersonRow) : bool :=
  match tenure_years row with
  | Some t =>
      match lo with Some lo => Qle_bool lo t | None => true end
      && match hi with Some hi => Qltb t hi | None => true end
  | None => false
  end.

Definition has_education (label : string) (row : PersonRow) : bool :=
  String.eqb (education_of row) label.

(** The learning settings with [decline_penalty] replaced. *)
Definition set_decline_penalty (p : option Q) (learning : LearningConfig)
    : LearningConfig :=
  {| potential_threshold := potential_threshold learning;
     decline_threshold := decline_threshold learning;
     decline_penalty := p;
     slope_amplifier := slope_amplifier learning |}.

(** * Properties *)

Example standard_config_validates :
  validate_config (config_json STANDARD_CONFIG) = (true, ValidationPassed).
Proof. vm_compute. reflexivity. Qed.

Example D_rewarding_config_validates :
  validate_config (config_json D_REWARDING_CONFIG) = (true, ValidationPassed).
Proof. vm_compute. reflexivity. Qed.

Example monthly_D_105 :
  calculate_performance_score_monthly "D" 105 STANDARD_CONFIG =
  Ok {| m_radar_value := 500 # 10; m_display_label := [Lit "D级 (系数"; Num 0.0; Lit ")"];
        m_status_color := RED; m_alert_tag := "⛔ 绩效不合格";
        m_grade := "D"; m_mode := "MONTHLY" |}.
Proof. vm_compute. reflexivity. Qed.

(** ** Comparisons and rounding *)

Lemma Qltb_lt a b : Qltb a b = true ↔ a < b.
Proof.
  unfold Qltb. rewrite negb_true_iff.
  split.
  - intros H. apply Qnot_le_lt. intros Hle. apply Qle_bool_iff in Hle. congruence.
  - intros H. destruct (Qle_bool b a) eqn:E; [|done].
    apply Qle_bool_iff in E. lra.
Qed.

Lemma Qltb_ge a b : Qltb a b = false ↔ b <= a.
Proof.
  unfold Qltb. rewrite negb_false_iff. apply Qle_bool_iff.
Qed.

Lemma Qle_bool_gt a b : Qle_bool a b = false ↔ b < a.
Proof.
  split.
  - intros H. apply Qnot_le_lt. intros Hle. apply Qle_bool_iff in Hle. congruence.
  - intros H. destruct (Qle_bool a b) eqn:E; [|done].
    apply Qle_bool_iff in E. lra.
Qed.

Lemma round_half_even_bounds x :
  (Qfloor x <= round_half_even x <= Qfloor x + 1)%Z.
Proof.
  unfold round_half_even. cbv zeta.
  destruct (Qcompare _ _); [destruct (Z.even _)|..]; lia.
Qed.

Lemma round_half_even_mono x y : x <= y → (round_half_even x <= round_half_even y)%Z.
Proof.
  intros Hxy.
  pose proof (Qfloor_resp_le _ _ Hxy) as Hf.
  destruct (Z.eq_dec (Qfloor x) (Qfloor y)) as [Heq|Hne].
  - unfold round_half_even. cbv zeta. rewrite <- Heq.
    destruct (Qcompare (x - inject_Z (Qfloor x)) (1 # 2)) eqn:Ex;
    destruct (Qcompare (y - inject_Z (Qfloor x)) (1 # 2)) eqn:Ey;
    try (destruct (Z.even (Qfloor x))); try lia;
    first [apply Qeq_alt in Ex | apply Qlt_alt in Ex | apply Qgt_alt in Ex];
    first [apply Qeq_alt in Ey | apply Qlt_alt in Ey | apply Qgt_alt in Ey];
    lra.
  - pose proof (round_half_even_bounds x).
    pose proof (round_half_even_bounds y). lia.
Qed.

Lemma round_half_even_comp x y : x == y → round_half_even x = round_half_even y.
Proof.
  intros H. apply Z.le_antisymm; apply round_half_even_mono; lra.
Qed.

Lemma scale_pos n : 0 < inject_Z (10 ^ Z.of_nat n).
Proof.
  change 0 with (inject_Z 0). rewrite <- Zlt_Qlt. apply Z.pow_pos_nonneg; lia.
Qed.

Lemma py_round_mono x y n : x <= y → py_round x n <= py_round y n.
Proof.
  intros Hxy. unfold py_round. cbv zeta.
  pose proof (scale_pos n) as Hs.
  apply Qmult_le_compat_r.
  - rewrite <- Zle_Qle. apply round_half_even_mono.
    apply Qmult_le_compat_r; lra.
  - apply Qinv_le_0_compat. lra.
Qed.

Lemma py_round_comp x y n : x == y → py_round x n == py_round y n.
Proof.
  intros H. apply Qle_antisym; apply py_round_mono; lra.
Qed.

#[export] Instance py_round_proper : Proper (Qeq ==> eq ==> Qeq) py_round.
Proof. intros x y H n ? <-. by apply py_round_comp. Qed.

Lemma py_round_min a b n :
  py_round (Qmin a b) n == Qmin (py_round a n) (py_round b n).
Proof.
  destruct (Q.min_spec_le a b) as [[H ->]|[H ->]].
  - symmetry. apply Q.min_l. by apply py_round_mono.
  - symmetry. apply Q.min_r. by apply py_round_mono.
Qed.

Lemma py_round_tenths x (k : Z) : x * 10 == inject_Z k → py_round x 1 == x.
Proof.
  intros H. unfold py_round. cbv zeta.
  change (inject_Z (10 ^ Z.of_nat 1)) with 10.
  rewrite (round_half_even_comp _ _ H).
  assert (round_half_even (inject_Z k) = k) as ->.
  { unfold round_half_even. cbv zeta. rewrite Qfloor_Z.
    assert (Qcompare (inject_Z k - inject_Z k) (1 # 2) = Lt) as ->; [|done].
    rewrite <- Qlt_alt. lra. }
  rewrite <- H. field.
Qed.


(** ** Divisions that cannot fail *)

Lemma py_truediv_ok a b : ¬ b == 0 → py_truediv a b = Ok (a / b).
Proof.
  intros H. unfold py_truediv.
  destruct (Qeq_bool b 0) eqn:E; [|done].
  by apply Qeq_bool_eq in E.
Qed.

Lemma inject_Z_nonzero z : z ≠ 0%Z → ¬ inject_Z z == 0.
Proof.
  intros Hz H. apply Hz. by apply inject_Z_injective.
Qed.

Lemma monthly_avg_freq_ok violation_count months_active :
  monthly_avg_freq violation_count months_active =
  Ok (if (0 <? months_active)%Z
      then math_ceil (inject_Z violation_count / inject_Z months_active)
      else 0%Z).
Proof.
  unfold monthly_avg_freq.
  destruct (Z.ltb_spec 0 months_active) as [Hpos|_]; [|reflexivity].
  rewrite py_truediv_ok by (apply inject_Z_nonzero; lia). reflexivity.
Qed.

(** Walks through the binds of a computation known to return [Ok]. *)
Ltac result_cases H :=
  repeat (unfold mbind, result_bind, mret, result_ret in H;
          match type of H with
          | match ?m with _ => _ end = _ => destruct m eqn:?; try discriminate H
          end).

(** ** Safety *)

Lemma safety_locals_final vs m cfg l :
  safety_locals vs m cfg = Ok l →
  l_final_score l = Qmin (l_score_a l) (l_score_b l).
Proof.
  unfold safety_locals. intros H. result_cases H.
  all: injection H as <-; reflexivity.
Qed.

Lemma safety_locals_returns vs months_active config :
  (3 <= length (freq_thresholds (behavior_track (safety config))))%nat →
  (3 <= length (freq_multipliers (behavior_track (safety config))))%nat →
  ∃ l, safety_locals vs months_active config = Ok l.
Proof.
  intros Ht Hm. unfold safety_locals. rewrite monthly_avg_freq_ok.
  destruct (freq_thresholds (behavior_track (safety config)))
    as [|t0 [|t1 [|t2 ts]]]; simpl in Ht; try lia.
  destruct (freq_multipliers (behavior_track (safety config)))
    as [|m0 [|m1 [|m2 ms]]]; simpl in Hm; try lia.
  unfold list_index, mbind, result_bind. simpl.
  repeat (match goal with
          | |- context [if ?b then _ else _] =>
              match type of b with bool => destruct b end
          | |- context [match ?x with pair _ _ => _ end] => destruct x
          end; eauto).
Qed.

(** Claim C1.  The safety calculator returns for every violations list and
    every [months_active] when the configuration gives the three frequency
    tiers, and whenever it returns, the [final_score] of the returned dict is
    the minimum of its [score_a] and [score_b]; the same holds of the
    unrounded locals, of which the three returned values are the roundings to
    one decimal. *)
Theorem safety_final_score_is_min vs months_active config :
  ((3 <= length (freq_thresholds (behavior_track (safety config))))%nat →
   (3 <= length (freq_multipliers (behavior_track (safety config))))%nat →
   ∃ r, calculate_safety_score_dual_track vs months_active config = Ok r) ∧
  (∀ r,
     calculate_safety_score_dual_track vs months_active config = Ok r →
     final_score r == Qmin (score_a r) (score_b r) ∧
     ∃ l, safety_locals vs months_active config = Ok l ∧
          l_final_score l = Qmin (l_score_a l) (l_score_b l) ∧
          final_score r = py_round (l_final_score l) 1 ∧
          score_a r = py_round (l_score_a l) 1 ∧
          score_b r = py_round (l_score_b l) 1).
Proof.
  unfold calculate_safety_score_dual_track. split.
  - intros Ht Hm.
    destruct (safety_locals_returns vs months_active config Ht Hm) as [l ->].
    unfold mbind, result_bind.
    match goal with
    | |- context [match ?p with pair _ _ => _ end] => destruct p
    end.
    eauto.
  - intros r H.
    destruct (safety_locals vs months_active config) as [l|e] eqn:El;
      [|discriminate H].
    pose proof (safety_locals_final _ _ _ _ El) as Hmin.
    unfold mbind, result_bind in H.
    match type of H with
    | context [match ?p with pair _ _ => _ end] => destruct p
    end.
    injection H as <-. simpl. split.
    + rewrite Hmin. apply py_round_min.
    + exists l. done.
Qed.

Lemma safety_final_score_is_min_witness :
  ∃ r, calculate_safety_score_dual_track [2.0; 4.0; 8.0] 6 STANDARD_CONFIG = Ok r ∧
       final_score r == Qmin (score_a r) (score_b r).
Proof.
  destruct (safety_final_score_is_min [2.0; 4.0; 8.0] 6 STANDARD_CONFIG)
    as [Hreturns Hmin].
  destruct Hreturns as [r Hr]; [simpl; lia | simpl; lia |].
  exists r. split; [exact Hr|]. by apply Hmin.
Defined.

(** ** Performance, single period *)

(** Claim C7, as amended.  For every raw score, a grade that normalizes to
    ["D"] yields the configured [radar_override] rounded to one decimal, with
    status RED, provided the configuration lists the coefficient of D (the
    display label reads it).  The value is [radar_override] itself when that
    has at most one decimal digit; under the standard configuration it is 50
    whatever the raw score. *)
Theorem monthly_grade_D_override grade raw_score config c :
  normalize_grade grade = "D"%string →
  grade_coefficients (performance config) !! "D"%string = Some c →
  let override := ranges_D_radar_override (grade_ranges (performance config)) in
  ∃ r, calculate_performance_score_monthly grade raw_score config = Ok r ∧
       m_radar_value r = py_round override 1 ∧
       m_status_color r = RED ∧
       (∀ k : Z, override * 10 == inject_Z k → m_radar_value r == override) ∧
       (config = STANDARD_CONFIG → m_radar_value r == 50).
Proof.
  intros Hg Hc override.
  unfold calculate_performance_score_monthly. rewrite Hg. simpl.
  unfold coefficient_of. rewrite Hc. simpl.
  eexists. split; [reflexivity|]. simpl.
  repeat split.
  - intros k Hk. by apply (py_round_tenths _ k).
  - intros ->. vm_compute. reflexivity.
Qed.

Lemma monthly_grade_D_override_witness :
  ∃ r, calculate_performance_score_monthly "D" 105 STANDARD_CONFIG = Ok r ∧
       m_radar_value r == 50 ∧ m_status_color r = RED.
Proof.
  destruct (monthly_grade_D_override "D" 105 STANDARD_CONFIG 0.0)
    as (r & Hr & _ & Hred & _ & Hstd); [reflexivity | reflexivity |].
  exists r. split; [exact Hr|]. split; [by apply Hstd | exact Hred].
Defined.

(** Claim C7 as stated fails: with [radar_override = 50.25] grade D
    returns 50.2, not the configured value. *)
Lemma monthly_grade_D_override_counterexample :
  ∃ r, calculate_performance_score_monthly "D" 105 FINE_OVERRIDE_CONFIG = Ok r ∧
       m_radar_value r == 50.2 ∧
       ¬ m_radar_value r ==
           ranges_D_radar_override (grade_ranges (performance FINE_OVERRIDE_CONFIG)).
Proof.
  eexists. split; [vm_compute; reflexivity|]. split; [reflexivity|].
  intros H. vm_compute in H. discriminate H.
Qed.

(** ** Training *)

Lemma count_step_failures records acc :
  fst (fold_left count_step records acc) = (fst acc + count_failures records)%Z.
Proof.
  revert acc. induction records as [|record records IH]; intros acc.
  - unfold count_failures. simpl. lia.
  - simpl fold_left. rewrite IH. unfold count_failures, count_step.
    rewrite filter_cons.
    destruct (decide (is_fail record = true)) as [->|Hn].
    + simpl. lia.
    + apply not_true_is_false in Hn. rewrite Hn. simpl. lia.
Qed.



Lemma count_step_score_total records acc :
  snd (fold_left count_step records acc)
  = fold_left Qplus (map (λ record, default 0 (tr_score record)) records)
      (snd acc).
Proof.
  revert acc. induction records as [|record records IH]; intros acc; [done|].
  cbn [fold_left map]. by rewrite IH.
Qed.

(** Claim C2.  For a non-empty record list whose number of failing records
    reaches [absolute_threshold.fail_count], the calculator applies the
    coefficient [absolute_threshold.coefficient] at level CRITICAL, whatever
    the number of records, the duration and the seniority: it returns that
    coefficient, the average score rounded to one decimal as
    [original_score], and the average multiplied by that coefficient, rounded
    to one decimal, as [radar_score].  Under the standard configuration the
    coefficient is 0.5, not the small-sample 0.7. *)
Theorem training_absolute_threshold_first records duration_days cert_years config :
  records ≠ [] →
  (at_fail_count (absolute_threshold (penalty_rules (training config)))
     <= count_failures records)%Z →
  ∃ r, calculate_training_score_with_penalty records duration_days cert_years
         config = Ok r ∧
       penalty_coefficient r =
         at_coefficient (absolute_threshold (penalty_rules (training config))) ∧
       radar_score r =
         py_round
           (score_total records / inject_Z (Z.of_nat (length records)) *
            at_coefficient (absolute_threshold (penalty_rules (training config))))
           1 ∧
       original_score r =
         py_round (score_total records / inject_Z (Z.of_nat (length records))) 1 ∧
       level (risk_alert r) = CRITICAL ∧
       t_status_color r = RED ∧
       fail_count (stats r) = count_failures records ∧
       (config = STANDARD_CONFIG →
        penalty_coefficient r = 0.5 ∧
        ¬ penalty_coefficient r ==
            ss_coefficient (small_sample (penalty_rules (training config)))).
Proof.
  intros Hne Hfail.
  unfold calculate_training_score_with_penalty.
  assert (0 < Z.of_nat (length records))%Z as Hlen.
  { destruct records; [done|]. simpl length. lia. }
  destruct (Z.eqb_spec (Z.of_nat (length records)) 0) as [?|_]; [lia|].
  pose proof (count_step_failures records (0%Z, 0)) as Hcount.
  pose proof (count_step_score_total records (0%Z, 0)) as Htotal.
  destruct (fold_left count_step records (0%Z, 0)) as [fail_count total_score].
  assert (fail_count = count_failures records) as -> by (simpl in Hcount; lia).
  clear Hcount. cbn [snd] in Htotal. fold (score_total records) in Htotal.
  subst total_score.
  destruct (Z.ltb_spec 0 (Z.of_nat (length records))) as [_|?]; [|lia].
  rewrite py_truediv_ok by (apply inject_Z_nonzero; lia).
  unfold select_penalty.
  destruct (Z.leb_spec
    (at_fail_count (absolute_threshold (penalty_rules (training config))))
    (count_failures records)) as [_|?]; [|lia].
  eexists. split; [reflexivity|]. cbn -[score_total].
  split_and!; try reflexivity.
  intros ->. split; [reflexivity|].
  intros H. vm_compute in H. discriminate H.
Qed.

(** Three records scored 80 and judged not qualified: the average 80 is
    returned halved. *)
Lemma training_absolute_threshold_first_witness :
  ∃ r, calculate_training_score_with_penalty
         [unqualified_record; unqualified_record; unqualified_record] 30 None
         STANDARD_CONFIG = Ok r ∧
       penalty_coefficient r = 0.5 ∧ radar_score r == 40 ∧
       original_score r == 80 ∧ level (risk_alert r) = CRITICAL.
Proof.
  destruct (training_absolute_threshold_first
              [unqualified_record; unqualified_record; unqualified_record] 30
              None STANDARD_CONFIG)
    as (r & Hr & _ & Hradar & Horiginal & Hlevel & _ & _ & Hstd);
    [done | vm_compute; discriminate |].
  exists r. split; [exact Hr|]. split_and!.
  - by apply Hstd.
  - rewrite Hradar. vm_compute. reflexivity.
  - rewrite Horiginal. vm_compute. reflexivity.
  - exact Hlevel.
Defined.

Lemma annualized_failure_rate_ok fail_count duration_days :
  annualized_failure_rate fail_count duration_days =
  Ok (Z.max 1 duration_days,
      inject_Z fail_count / inject_Z (Z.max 1 duration_days) * 365).
Proof.
  unfold annualized_failure_rate.
  rewrite py_truediv_ok by (apply inject_Z_nonzero; lia). reflexivity.
Qed.

Lemma select_penalty_returns config total_ops fail_count duration_days cert_years :
  ∃ penalty,
    select_penalty config total_ops fail_count duration_days cert_years = Ok penalty.
Proof.
  unfold select_penalty.
  repeat (match goal with
          | |- context [if ?b then _ else _] => destruct b
          end; eauto).
  all: rewrite annualized_failure_rate_ok; simpl.
  all: repeat (match goal with
               | |- context [match ?x with _ => _ end] => destruct x
               end; eauto).
Qed.

Lemma training_returns records duration_days cert_years config :
  ∃ r, calculate_training_score_with_penalty records duration_days cert_years
         config = Ok r.
Proof.
  unfold calculate_training_score_with_penalty.
  destruct (Z.eqb_spec (Z.of_nat (length records)) 0) as [?|Hne]; [eauto|].
  destruct (fold_left count_step records (0%Z, 0)) as [fail_count total_score].
  destruct (Z.ltb_spec 0 (Z.of_nat (length records))) as [_|?]; [|lia].
  rewrite py_truediv_ok by (by apply inject_Z_nonzero).
  destruct (select_penalty_returns config (Z.of_nat (length records)) fail_count
              duration_days cert_years) as [penalty ->].
  simpl. eauto.
Qed.

(** ** Division guards *)


Lemma safety_never_divides_by_zero vs months_active config :
  calculate_safety_score_dual_track vs months_active config
  ≠ Raise ZeroDivisionError.
Proof.
  unfold calculate_safety_score_dual_track, safety_locals.
  rewrite monthly_avg_freq_ok. unfold list_index.
  unfold mbind, result_bind.
  repeat (match goal with
          | |- context [match ?l !! ?i with _ => _ end] => destruct (l !! i)
          | |- context [if ?b then _ else _] =>
              match type of b with bool => destruct b end
          | |- context [match ?x with pair _ _ => _ end] => destruct x
          end; try discriminate).
Qed.

(** Claim C9, as amended.  No division of the two calculators can raise
    [ZeroDivisionError].  The safety calculator divides the violation count
    by [months_active] when that is positive and takes an average frequency of
    0 otherwise (it does not floor [months_active] at 1); for
    [months_active >= 1] this is the division by [max(1, months_active)].
    The AFR computation divides [fail_count] by [max(1, duration_days)], and
    the training calculator always returns. *)
Theorem division_guards :
  (∀ violation_count months_active,
     monthly_avg_freq violation_count months_active =
     Ok (if (0 <? months_active)%Z
         then math_ceil (inject_Z violation_count / inject_Z months_active)
         else 0%Z)) ∧
  (∀ violation_count months_active,
     (1 <= months_active)%Z →
     monthly_avg_freq violation_count months_active =
     Ok (math_ceil (inject_Z violation_count / inject_Z (Z.max 1 months_active)))) ∧
  (∀ vs months_active config,
     calculate_safety_score_dual_track vs months_active config
     ≠ Raise ZeroDivisionError) ∧
  (∀ fail_count duration_days,
     annualized_failure_rate fail_count duration_days =
     Ok (Z.max 1 duration_days,
         inject_Z fail_count / inject_Z (Z.max 1 duration_days) * 365)) ∧
  (∀ records duration_days cert_years config,
     ∃ r, calculate_training_score_with_penalty records duration_days
            cert_years config = Ok r).
Proof.
  split_and!.
  - apply monthly_avg_freq_ok.
  - intros c m Hm. rewrite monthly_avg_freq_ok.
    destruct (Z.ltb_spec 0 m) as [_|?]; [|lia].
    by rewrite Z.max_r by lia.
  - apply safety_never_divides_by_zero.
  - apply annualized_failure_rate_ok.
  - apply training_returns.
Qed.

Lemma division_guards_witness :
  monthly_avg_freq 5 2 = Ok 3%Z.
Proof.
  rewrite (proj1 (proj2 division_guards) 5%Z 2%Z); [reflexivity | lia].
Defined.

(** Claim C9 as stated fails for the safety calculator: with three
    violations and [months_active = 0] the average frequency is 0, whereas
    dividing by [max(1, months_active)] gives 3 (and a [score_a] of 85
    instead of 100). *)
Lemma safety_divisor_floor_counterexample :
  ∃ r, calculate_safety_score_dual_track [1; 1; 1] 0 STANDARD_CONFIG = Ok r ∧
       avg_freq r = 0%Z ∧
       score_a r == 100 ∧
       math_ceil (inject_Z (Z.of_nat (length [1; 1; 1]))
                  / inject_Z (Z.max 1 0)) = 3%Z ∧
       avg_freq r ≠ math_ceil (inject_Z (Z.of_nat (length [1; 1; 1]))
                               / inject_Z (Z.max 1 0)).
Proof.
  eexists. split; [vm_compute; reflexivity|]. simpl. split_and!; done.
Qed.

(** ** Key-personnel flag *)

(** Claim C6.  The flag is true exactly when the composite score is below
    [comprehensive_threshold] or the average monthly violation frequency
    (the count divided by the months, rounded up; 0 when [months_active] is
    not positive) is at least [monthly_violation_threshold]; each condition
    alone sets it. *)
Theorem key_personnel_flag_iff comprehensive_score violations_list
    months_active key_personnel_config :
  ∃ avg_freq flag,
    monthly_avg_freq (Z.of_nat (length violations_list)) months_active
      = Ok avg_freq ∧
    avg_freq =
      (if (0 <? months_active)%Z
       then math_ceil (inject_Z (Z.of_nat (length violations_list))
                       / inject_Z months_active)
       else 0%Z) ∧
    is_key_personnel comprehensive_score violations_list months_active
      key_personnel_config = Ok flag ∧
    (flag = true ↔
       comprehensive_score < comprehensive_threshold key_personnel_config ∨
       monthly_violation_threshold key_personnel_config <= inject_Z avg_freq) ∧
    (comprehensive_score < comprehensive_threshold key_personnel_config →
     flag = true) ∧
    (monthly_violation_threshold key_personnel_config <= inject_Z avg_freq →
     flag = true).
Proof.
  unfold is_key_personnel. rewrite monthly_avg_freq_ok.
  eexists. eexists. split; [reflexivity|]. split; [reflexivity|].
  split; [reflexivity|].
  rewrite orb_true_iff, Qltb_lt, Qle_bool_iff. tauto.
Qed.

Lemma key_personnel_flag_iff_witness :
  is_key_personnel 82.5 [1; 2; 1; 4; 2; 1] 2 (key_personnel STANDARD_CONFIG)
  = Ok true.
Proof.
  destruct (key_personnel_flag_iff 82.5 [1; 2; 1; 4; 2; 1] 2
              (key_personnel STANDARD_CONFIG))
    as (f & flag & Hf & _ & Hflag & _ & _ & Hfreq).
  rewrite Hflag. f_equal. apply Hfreq.
  vm_compute in Hf. injection Hf as <-. vm_compute. discriminate.
Defined.

(** ** Stability *)

Lemma stability_grade_color final_score :
  (70 <= final_score → fst (stability_grade final_score) = GREEN) ∧
  (50 <= final_score → final_score < 70 →
   fst (stability_grade final_score) = ORANGE) ∧
  (final_score < 50 → fst (stability_grade final_score) = RED) ∧
  (85 <= final_score → snd (stability_grade final_score) = "✅ 稳定可靠"%string) ∧
  (70 <= final_score → final_score < 85 →
   snd (stability_grade final_score) = "✅ 基本稳定"%string).
Proof.
  unfold stability_grade.
  destruct (Qle_bool 85 final_score) eqn:E85;
  destruct (Qle_bool 70 final_score) eqn:E70;
  destruct (Qle_bool 50 final_score) eqn:E50;
  rewrite ?Qle_bool_iff, ?Qle_bool_gt in *;
  simpl; split_and!; intros; try reflexivity; lra.
Qed.

Lemma volatility_score_of_returns penalty volatility_coefficient :
  ∃ score, volatility_score_of penalty volatility_coefficient = Ok score.
Proof.
  unfold volatility_score_of.
  destruct (Qle_bool volatility_coefficient (low_threshold penalty)) eqn:Elow;
    [eauto|].
  destruct (Qle_bool (high_threshold penalty) volatility_coefficient) eqn:Ehigh;
    [eauto|].
  apply Qle_bool_gt in Elow, Ehigh.
  rewrite py_truediv_ok by lra. simpl. eauto.
Qed.

Lemma stability_locals_returns days_since np_std
    birth_date work_start_date entry_date certification_date solo_driving_date
    historical_scores config :
  let caps := seniority_thresholds
                (default default_stability_config (stability config)) in
  ¬ age_cap caps == 0 → ¬ working_cap caps == 0 → ¬ company_cap caps == 0 →
  ¬ cert_cap caps == 0 → ¬ solo_cap caps == 0 →
  ∃ locals,
    stability_locals days_since np_std birth_date work_start_date entry_date
      certification_date solo_driving_date historical_scores config = Ok locals.
Proof.
  intros caps Hage Hworking Hcompany Hcert Hsolo.
  unfold stability_locals, capped_ramp. fold caps.
  rewrite !py_truediv_ok by done. unfold mbind, result_bind.
  destruct (has_history historical_scores); [|eauto].
  destruct (std_devs_of np_std _) as [|std_dev std_devs]; [eauto|].
  match goal with
  | |- context [volatility_score_of ?p ?v] =>
      destruct (volatility_score_of_returns p v) as [score ->]
  end.
  eauto.
Qed.

(** Claim C10, as amended.  The stability calculator returns whenever the
    five seniority caps of the configuration are not zero, and whenever it
    returns, its colour is decided by the local [final_score] before
    rounding, not by the returned [stability_score], which is [final_score]
    rounded to one decimal: GREEN from 70 up, ORANGE from 50 up to 70, RED
    below 50.  The threshold 85 only selects the alert tag. *)
Theorem stability_color_by_final_score days_since np_std
    birth_date work_start_date entry_date certification_date solo_driving_date
    historical_scores config :
  let caps := seniority_thresholds
                (default default_stability_config (stability config)) in
  (¬ age_cap caps == 0 → ¬ working_cap caps == 0 → ¬ company_cap caps == 0 →
   ¬ cert_cap caps == 0 → ¬ solo_cap caps == 0 →
   ∃ r, calculate_stability_score days_since np_std birth_date work_start_date
          entry_date certification_date solo_driving_date historical_scores
          config = Ok r) ∧
  (∀ r,
     calculate_stability_score days_since np_std birth_date work_start_date
       entry_date certification_date solo_driving_date historical_scores config
       = Ok r →
     ∃ locals,
       stability_locals days_since np_std birth_date work_start_date entry_date
         certification_date solo_driving_date historical_scores config
         = Ok locals ∧
       let final_score := sl_final_score locals in
       stability_score r = py_round final_score 1 ∧
       (70 <= final_score → st_status_color r = GREEN) ∧
       (50 <= final_score → final_score < 70 → st_status_color r = ORANGE) ∧
       (final_score < 50 → st_status_color r = RED) ∧
       (st_status_color r = GREEN ∨ st_status_color r = ORANGE ∨
        st_status_color r = RED) ∧
       (85 <= final_score → st_alert_tag r = "✅ 稳定可靠"%string) ∧
       (70 <= final_score → final_score < 85 →
        st_alert_tag r = "✅ 基本稳定"%string)).
Proof.
  intros caps. unfold calculate_stability_score. split.
  - intros Hage Hworking Hcompany Hcert Hsolo.
    destruct (stability_locals_returns days_since np_std birth_date
                work_start_date entry_date certification_date solo_driving_date
                historical_scores config Hage Hworking Hcompany Hcert Hsolo)
      as [locals ->].
    unfold mbind, result_bind.
    destruct (stability_grade (sl_final_score locals)). eauto.
  - intros r H.
    destruct (stability_locals _ _ _ _ _ _ _ _ _) as [locals|e];
      [|discriminate H].
    unfold mbind, result_bind in H.
    pose proof (stability_grade_color (sl_final_score locals))
      as (Hgreen & Horange & Hred & Htag85 & Htag70).
    destruct (stability_grade (sl_final_score locals))
      as [status_color alert_tag].
    injection H as <-. exists locals. simpl in *.
    split_and!; try done.
    destruct (Qlt_le_dec (sl_final_score locals) 70) as [H70|H70];
      [destruct (Qlt_le_dec (sl_final_score locals) 50) as [H50|H50]|]; auto.
Qed.

Lemma stability_color_by_final_score_witness :
  ∃ r, calculate_stability_score (λ _, Some 3653%Z) (λ _, 0)
         (Some "1996-01-01"%string) None (Some "2016-01-01"%string)
         (Some "2016-01-01"%string) (Some "2016-01-01"%string) None
         STANDARD_CONFIG = Ok r ∧
       st_status_color r = GREEN.
Proof.
  destruct (stability_color_by_final_score (λ _, Some 3653%Z) (λ _, 0)
              (Some "1996-01-01"%string) None (Some "2016-01-01"%string)
              (Some "2016-01-01"%string) (Some "2016-01-01"%string) None
              STANDARD_CONFIG) as [Hreturns Hcolor].
  destruct Hreturns as [r Hr]; try (vm_compute; discriminate).
  exists r. split; [exact Hr|].
  destruct (Hcolor r Hr) as (locals & Hl & _ & Hgreen & _).
  apply Hgreen. vm_compute in Hl. injection Hl as <-.
  vm_compute. discriminate.
Defined.

(** Claim C10 as stated fails: for a birth 13000 days ago and the four
    career dates 1702 days ago, without history, the final score is
    69.969...; the returned [stability_score] is 70.0 and the colour is
    ORANGE. *)
Lemma stability_color_by_final_score_counterexample :
  ∃ r, calculate_stability_score sample_days_since (λ _, 0)
         (Some "1991-04-04"%string) (Some "2022-03-10"%string)
         (Some "2022-03-10"%string) (Some "2022-03-10"%string)
         (Some "2022-03-10"%string) None STANDARD_CONFIG = Ok r ∧
       stability_score r == 70 ∧
       st_status_color r = ORANGE ∧
       ¬ (70 <= stability_score r → st_status_color r = GREEN).
Proof.
  eexists. split; [vm_compute; reflexivity|]. cbn [stability_score st_status_color].
  split_and!; [reflexivity|reflexivity|].
  intros H. enough (ORANGE = GREEN) by discriminate.
  apply H. vm_compute. discriminate.
Qed.

(** ** Configuration validation *)

Lemma lift_only_rejects {A} (r : result A) : only_rejects (lift r).
Proof. intros v H. destruct r; discriminate H. Qed.

Lemma require_only_rejects cond msg : only_rejects (require cond msg).
Proof.
  intros v H. unfold require in H. destruct cond; [discriminate H|].
  by injection H as <-.
Qed.

Lemma continue_only_rejects {A} (a : A) : only_rejects (Continue a).
Proof. intros v H. discriminate H. Qed.

Lemma bind_only_rejects {A B} (m : flow A) (f : A → flow B) :
  only_rejects m → (∀ a, only_rejects (f a)) → only_rejects (m ≫= f).
Proof.
  intros Hm Hf v H. destruct m as [a|v'|e]; simpl in H.
  - by apply (Hf a).
  - injection H as <-. by apply Hm.
  - discriminate H.
Qed.

Create HintDb rejects.

#[local] Hint Resolve lift_only_rejects require_only_rejects
  continue_only_rejects : rejects.

Ltac only_rejects :=
  repeat first
    [ apply bind_only_rejects; [|intros ?]
    | match goal with
      | |- only_rejects (if ?b then _ else _) => destruct b
      end
    | solve [auto with rejects] ].

Lemma check_sections_only_rejects sections config_data :
  only_rejects (check_sections sections config_data).
Proof. induction sections; simpl; only_rejects. Qed.

Lemma check_grades_only_rejects grades perf :
  only_rejects (check_grades grades perf).
Proof. induction grades; simpl; only_rejects. Qed.

#[local] Hint Resolve check_sections_only_rejects check_grades_only_rejects
  : rejects.

Lemma validate_structure_only_rejects c : only_rejects (validate_structure c).
Proof. unfold validate_structure. only_rejects. Qed.

Lemma validate_performance_only_rejects c : only_rejects (validate_performance c).
Proof. unfold validate_performance. only_rejects. Qed.

Lemma validate_safety_only_rejects c : only_rejects (validate_safety c).
Proof. unfold validate_safety. only_rejects. Qed.

Lemma validate_training_only_rejects c : only_rejects (validate_training c).
Proof. unfold validate_training. only_rejects. Qed.

Lemma validate_comprehensive_only_rejects c : only_rejects (validate_comprehensive c).
Proof. unfold validate_comprehensive. only_rejects. Qed.

Lemma validate_key_personnel_only_rejects c : only_rejects (validate_key_personnel c).
Proof. unfold validate_key_personnel. only_rejects. Qed.

(** An accepted configuration has passed each of the six checks. *)
Lemma validate_config_accepts config_data :
  fst (validate_config config_data) = true →
  validate_structure config_data = Continue tt ∧
  validate_performance config_data = Continue tt ∧
  validate_safety config_data = Continue tt ∧
  validate_training config_data = Continue tt ∧
  validate_comprehensive config_data = Continue tt ∧
  validate_key_personnel config_data = Continue tt.
Proof.
  unfold validate_config, validate_config_body.
  pose proof (validate_structure_only_rejects config_data) as H1.
  pose proof (validate_performance_only_rejects config_data) as H2.
  pose proof (validate_safety_only_rejects config_data) as H3.
  pose proof (validate_training_only_rejects config_data) as H4.
  pose proof (validate_comprehensive_only_rejects config_data) as H5.
  pose proof (validate_key_personnel_only_rejects config_data) as H6.
  destruct (validate_structure config_data) as [[]|v|e]; simpl;
    [|by rewrite (H1 v) | done].
  destruct (validate_performance config_data) as [[]|v|e]; simpl;
    [|by rewrite (H2 v) | done].
  destruct (validate_safety config_data) as [[]|v|e]; simpl;
    [|by rewrite (H3 v) | done].
  destruct (validate_training config_data) as [[]|v|e]; simpl;
    [|by rewrite (H4 v) | done].
  destruct (validate_comprehensive config_data) as [[]|v|e]; simpl;
    [|by rewrite (H5 v) | done].
  destruct (validate_key_personnel config_data) as [[]|v|e]; simpl;
    [|by rewrite (H6 v) | done].
  done.
Qed.

(** Claim C3.  The weight check of [validate_config] does not reject weights
    that hold the float NaN: with [performance] set to NaN and the other four
    weights 0.30, 0.20, 0.10 and 0.05, the sum is NaN, which is not within
    0.01 of 1.0, and the comparison [abs(total_weight - 1.0) > 0.01] is
    false, so the check lets the weights through.  On the weights of the
    standard configuration the check passes, and on weights that sum to 1.15
    it rejects. *)
Theorem weight_sum_check_passes_nan :
  let weights := [nan; 0.30; 0.20; 0.10; 0.05]%float in
  PrimFloat.is_nan (float_sum weights) = true ∧
  PrimFloat.leb (PrimFloat.abs (PrimFloat.sub (float_sum weights) 1.0%float))
                0.01%float = false ∧
  weight_sum_rejected weights = false ∧
  weight_sum_rejected [0.35; 0.30; 0.20; 0.10; 0.05]%float = false ∧
  weight_sum_rejected [0.5; 0.30; 0.20; 0.10; 0.05]%float = true.
Proof. cbv zeta. split_and!; vm_compute; reflexivity. Qed.

(** ** Configuration update *)

(** Claim C8.  When the configuration fails validation,
    [update_custom_config] returns a failure and leaves the whole state as
    it was: active configuration, change log and cache. *)
Theorem update_custom_config_rejected_unchanged config_data user_id reason
    username ip_address now s :
  fst (validate_config config_data) = false →
  update_custom_config config_data user_id reason username ip_address now s
  = ((false, UpdateRejected (snd (validate_config config_data))), s).
Proof.
  intros H. unfold update_custom_config.
  destruct (validate_config config_data) as [is_valid error_msg].
  simpl in H. subst is_valid. reflexivity.
Qed.

Lemma update_custom_config_rejected_unchanged_witness :
  ∃ msg,
    update_custom_config (config_json HEAVY_WEIGHTS_CONFIG) (Some 1%Z)
      "reweighting" (Some "admin"%string) None "2026-11-05 10:00:00"
      sample_service
    = ((false, UpdateRejected msg), sample_service).
Proof.
  eexists.
  apply (update_custom_config_rejected_unchanged
           (config_json HEAVY_WEIGHTS_CONFIG)).
  vm_compute. reflexivity.
Defined.

Lemma replace_active_config_ok row d :
  references_user d (updated_by row) = true →
  replace_active_config row d
  = Ok {| algorithm_active_config := Some row;
          algorithm_config_logs := algorithm_config_logs d;
          users := users d; foreign_keys := foreign_keys d |}.
Proof. unfold replace_active_config. by intros ->. Qed.

Lemma update_transaction_ok config_data id reason username ip_address now d :
  references_user d (Some id) = true →
  update_transaction config_data (Some id) reason username ip_address now d
  = Ok {| algorithm_active_config :=
            Some {| based_on_preset := None; is_customized := true;
                    row_config_data := config_data; updated_by := Some id;
                    updated_at := now |};
          algorithm_config_logs :=
            algorithm_config_logs d ++
            [{| action := "CUSTOM_UPDATE"; preset_name := None;
                old_config := row_config_data <$> algorithm_active_config d;
                new_config := Some config_data;
                change_reason := reason; changed_by := id;
                changed_by_name := log_username username (Some id) d;
                ip_address := ip_address |}];
          users := users d; foreign_keys := foreign_keys d |}.
Proof.
  intros Href. unfold update_transaction.
  rewrite replace_active_config_ok by exact Href.
  unfold mbind, result_bind, insert_config_log.
  change (references_user _ (Some id)) with (references_user d (Some id)).
  rewrite Href. by destruct (algorithm_active_config d).
Qed.

Lemma update_transaction_fails config_data user_id reason username ip_address
    now d :
  (∀ id, user_id = Some id → references_user d user_id = false) →
  update_transaction config_data user_id reason username ip_address now d
  = Raise IntegrityError.
Proof.
  intros Href. unfold update_transaction, replace_active_config.
  cbn [updated_by]. destruct user_id as [id|].
  - by rewrite (Href id eq_refl).
  - reflexivity.
Qed.

Lemma get_active_config_cold t d :
  fst (get_active_config t {| db := d; _cache := None; _cache_time := 0 |})
  = match algorithm_active_config d with
    | Some row => Ok (row_config_data row)
    | None => Raise ValueError
    end.
Proof. unfold get_active_config. cbn. by destruct (algorithm_active_config d). Qed.

Lemma sample_service_user_1 : references_user (db sample_service) (Some 1%Z) = true.
Proof. vm_compute. reflexivity. Qed.

(** By contrast, an accepted configuration written by a known user is
    installed as a customized configuration, logged, and the cache is
    cleared. *)
Lemma update_custom_config_installs :
  ∃ s', update_custom_config (config_json D_REWARDING_CONFIG) (Some 1%Z)
          "experiment" None None "2026-11-05 10:00:00" sample_service
        = ((true, UpdateSucceeded), s') ∧
        (row_config_data <$> algorithm_active_config (db s'))
          = Some (config_json D_REWARDING_CONFIG) ∧
        (is_customized <$> algorithm_active_config (db s')) = Some true ∧
        length (algorithm_config_logs (db s')) = 1%nat ∧
        _cache s' = None.
Proof.
  unfold update_custom_config. rewrite D_rewarding_config_validates. cbn [negb].
  rewrite update_transaction_ok by exact sample_service_user_1.
  eexists. split; [reflexivity|].
  unfold clear_cache.
  cbn [db _cache algorithm_active_config algorithm_config_logs fmap option_fmap
       option_map is_customized row_config_data sample_service app length].
  split_and!; reflexivity.
Qed.

(** ** Performance, several periods *)

Lemma fold_left_Qplus l a : fold_left Qplus l a == a + Qsum l.
Proof.
  revert a. induction l as [|x l IH]; intros a; simpl.
  - ring.
  - rewrite IH. ring.
Qed.

Lemma py_sum_Qsum l : py_sum l == Qsum l.
Proof. unfold py_sum. rewrite fold_left_Qplus. ring. Qed.

Lemma Qsum_app a b : Qsum (a ++ b) == Qsum a + Qsum b.
Proof.
  induction a as [|x a IH]; simpl.
  - ring.
  - rewrite IH. ring.
Qed.

Lemma Qsum_insert_at i x l : Qsum (insert_at i x l) == Qsum l + x.
Proof.
  unfold insert_at. rewrite <- (take_drop i l) at 3.
  rewrite !Qsum_app. simpl. ring.
Qed.

Lemma length_insert_at {A} i (x : A) l : length (insert_at i x l) = S (length l).
Proof.
  unfold insert_at. rewrite length_app. simpl.
  rewrite <- (take_drop i l) at 3. rewrite length_app. lia.
Qed.

Lemma map_insert_at {A B} (f : A → B) i x l :
  map f (insert_at i x l) = insert_at i (f x) (map f l).
Proof.
  revert i. induction l as [|a l IH]; intros [|i]; try reflexivity.
  unfold insert_at in *. simpl. f_equal. apply IH.
Qed.

Lemma combine_insert_at {A B} i (x : A) (y : B) l k :
  length l = length k →
  combine (insert_at i x l) (insert_at i y k) = insert_at i (x, y) (combine l k).
Proof.
  revert i k. induction l as [|a l IH]; intros i [|b k] Hlen; try discriminate.
  - by destruct i.
  - destruct i as [|i]; [reflexivity|].
    unfold insert_at in *. simpl. f_equal. apply IH. by injection Hlen.
Qed.

Lemma Qsum_nonneg_bound c l :
  Forall (λ x, c <= x) l → c * inject_Z (Z.of_nat (length l)) <= Qsum l.
Proof.
  induction 1 as [|x l Hx Hl IH].
  - simpl. unfold Qle. simpl. lia.
  - simpl length. rewrite Nat2Z.inj_succ. unfold Z.succ.
    rewrite inject_Z_plus. simpl Qsum. change (inject_Z 1) with 1. lra.
Qed.

Lemma Qdiv_le_cross a b c d :
  0 < b → 0 < d → a * d <= c * b → a / b <= c / d.
Proof.
  intros Hb Hd H.
  apply Qle_shift_div_r; [done|].
  assert (c / d * b == (c * b) / d) as -> by (field; lra).
  apply Qle_shift_div_l; [done|]. lra.
Qed.

Lemma mean_singleton c : mean [c] == c.
Proof.
  unfold mean, py_sum. cbn [fold_left length].
  change (inject_Z (Z.of_nat 1)) with 1. field.
Qed.

Lemma mean_insert_le i c l :
  l ≠ [] → Forall (λ x, c <= x) l → mean (insert_at i c l) <= mean l.
Proof.
  intros Hne Hall. unfold mean.
  rewrite !py_sum_Qsum, length_insert_at, Qsum_insert_at.
  pose proof (Qsum_nonneg_bound c l Hall) as Hb.
  assert (0 < inject_Z (Z.of_nat (length l))) as Hn.
  { change 0 with (inject_Z 0). rewrite <- Zlt_Qlt.
    destruct l; [done|simpl length; lia]. }
  rewrite Nat2Z.inj_succ. unfold Z.succ. rewrite inject_Z_plus.
  change (inject_Z 1) with 1.
  apply Qdiv_le_cross; lra.
Qed.

Section PeriodFacts.

Variable strptime_ym : string → option (Z * Z).
Variable now_year now_month : Z.
Variable config : AlgorithmConfig.

Abbreviation coeff_map := (grade_coefficients (performance config)).
Abbreviation weight := (grade_weight strptime_ym now_year now_month config).
Abbreviation step_decay :=
  (scan_decay strptime_ym now_year now_month coeff_map
     (decay_months_of config) (decay_rate_of config)).

Lemma scan_plain_step acc grade :
  plain_invariant acc →
  let acc' := scan_plain coeff_map acc grade in
  plain_invariant acc' ∧
  coeffs acc' = coeffs acc ++ [month_coefficient config grade] ∧
  d_count_effective acc' == d_count_effective acc + weight "D" (grade, None) ∧
  c_count_effective acc' == c_count_effective acc + weight "C" (grade, None).
Proof.
  intros [Hd Hc]. unfold scan_plain, grade_weight, plain_invariant,
    month_coefficient. simpl.
  destruct (String.eqb_spec (normalize_grade grade) "D") as [->|HD]; simpl.
  - rewrite inject_Z_plus, Hd. change (inject_Z 1) with 1.
    split_and!; try done; lra.
  - destruct (String.eqb_spec (normalize_grade grade) "C") as [->|HC]; simpl.
    + rewrite inject_Z_plus, Hc. change (inject_Z 1) with 1.
      split_and!; try done; lra.
    + split_and!; try done; lra.
Qed.

Lemma scan_plain_fold grades acc :
  plain_invariant acc →
  let r := fold_left (scan_plain coeff_map) grades acc in
  coeffs r = coeffs acc ++ map (month_coefficient config) grades ∧
  d_count_effective r
    == d_count_effective acc
       + Qsum (map (weight "D") (map (λ grade, (grade, None)) grades)) ∧
  c_count_effective r
    == c_count_effective acc
       + Qsum (map (weight "C") (map (λ grade, (grade, None)) grades)).
Proof.
  revert acc. induction grades as [|grade grades IH]; intros acc Hinv.
  - simpl. rewrite app_nil_r. split_and!; [done|ring..].
  - destruct (scan_plain_step acc grade Hinv) as (Hinv' & Hco & Hd & Hc).
    destruct (IH _ Hinv') as (IHco & IHd & IHc).
    simpl. rewrite IHco, IHd, IHc, Hco, Hd, Hc, <- app_assoc.
    split_and!; [done|ring..].
Qed.

Lemma scan_decay_step acc grade date_str :
  let acc' := step_decay acc (grade, date_str) in
  coeffs acc' = coeffs acc ++ [month_coefficient config grade] ∧
  d_count_effective acc'
    == d_count_effective acc + weight "D" (grade, Some date_str) ∧
  c_count_effective acc'
    == c_count_effective acc + weight "C" (grade, Some date_str).
Proof.
  unfold scan_decay, grade_weight, month_weight, month_coefficient, scan_except.
  simpl.
  destruct (String.eqb_spec (normalize_grade grade) "D") as [->|HD];
    [|destruct (String.eqb_spec (normalize_grade grade) "C") as [->|HC]];
    simpl;
    destruct (months_ago_of _ _ _ date_str) as [months_ago|]; simpl;
    try (destruct (Qle_bool _ _); simpl);
    try (destruct (py_pow _ _); simpl);
    split_and!; try done; ring.
Qed.

Lemma scan_decay_fold items acc :
  let r := fold_left step_decay items acc in
  coeffs r = coeffs acc ++ map (λ item, month_coefficient config (fst item)) items ∧
  d_count_effective r
    == d_count_effective acc
       + Qsum (map (λ item, weight "D" (fst item, Some (snd item))) items) ∧
  c_count_effective r
    == c_count_effective acc
       + Qsum (map (λ item, weight "C" (fst item, Some (snd item))) items).
Proof.
  revert acc. induction items as [|[grade date_str] items IH]; intros acc.
  - simpl. rewrite app_nil_r. split_and!; [done|ring..].
  - destruct (scan_decay_step acc grade date_str) as (Hco & Hd & Hc).
    destruct (IH (step_decay acc (grade, date_str))) as (IHco & IHd & IHc).
    cbv zeta in *. cbn [fold_left map fst snd]. unfold Qsum in *.
    cbn [fold_right]. rewrite IHco, IHd, IHc, Hco, Hd, Hc, <- app_assoc.
    split_and!; [done|ring..].
Qed.


Lemma map_fst_combine_eq {A B C} (f : A → C) (l : list A) (k : list B) :
  length l = length k → map (λ item, f (fst item)) (combine l k) = map f l.
Proof.
  revert k. induction l as [|a l IH]; intros [|b k] Hlen; try discriminate.
  - reflexivity.
  - simpl. f_equal. apply IH. by injection Hlen.
Qed.

Lemma map_combine_Some {A B C} (f : A * option B → C) (l : list A) (k : list B) :
  map f (combine l (map Some k))
  = map (λ item, f (fst item, Some (snd item))) (combine l k).
Proof.
  revert k. induction l as [|a l IH]; intros [|b k]; try reflexivity.
  simpl. f_equal. apply IH.
Qed.

Lemma decay_applies_dates grades dates :
  decay_applies grades dates config = true →
  ∃ ds, dates = Some ds ∧ length grades = length ds.
Proof.
  unfold decay_applies. intros H. apply andb_true_iff in H as [_ H].
  destruct dates as [[|d ds]|]; try discriminate H.
  exists (d :: ds). split; [done|]. symmetry. by apply Nat.eqb_eq.
Qed.

Lemma period_locals_summary grades dates :
  grades ≠ [] →
  ∃ locals,
    period_locals strptime_ym now_year now_month grades dates config = Ok locals ∧
    use_time_decay locals = decay_applies grades dates config ∧
    coeffs (scan locals) = map (month_coefficient config) grades ∧
    avg_coeff locals = mean (map (month_coefficient config) grades) ∧
    base_score locals = mean (map (month_coefficient config) grades) * 95 ∧
    d_count_effective (scan locals)
      == Qsum (map (weight "D") (counted_months config grades dates)) ∧
    c_count_effective (scan locals)
      == Qsum (map (weight "C") (counted_months config grades dates)).
Proof.
  intros Hne. unfold period_locals, counted_months.
  change (default true _ && _) with (decay_applies grades dates config).
  change (default 6 _) with (decay_months_of config).
  change (default 0.9 _) with (decay_rate_of config).
  set (scanned := if decay_applies grades dates config then _ else _).
  assert (coeffs scanned = map (month_coefficient config) grades ∧
          d_count_effective scanned
            == Qsum (map (weight "D")
                 (if decay_applies grades dates config
                  then combine grades (map Some (default [] dates))
                  else map (λ grade, (grade, None)) grades)) ∧
          c_count_effective scanned
            == Qsum (map (weight "C")
                 (if decay_applies grades dates config
                  then combine grades (map Some (default [] dates))
                  else map (λ grade, (grade, None)) grades)))
    as (Hco & Hd & Hc).
  { subst scanned.
    destruct (decay_applies grades dates config) eqn:Hdecay.
    - destruct (decay_applies_dates _ _ Hdecay) as (ds & -> & Hlen). simpl.
      destruct (scan_decay_fold (combine grades ds) empty_scan) as (Hco & Hd & Hc).
      rewrite !map_combine_Some, Hco, Hd, Hc. simpl.
      rewrite map_fst_combine_eq by done. split_and!; [done|ring..].
    - destruct (scan_plain_fold grades empty_scan) as (Hco & Hd & Hc).
      { split; reflexivity. }
      rewrite Hco, Hd, Hc. simpl. split_and!; [done|ring..]. }
  assert (∃ a, (match coeffs scanned with
                | [] => Ok 1.0
                | _ :: _ => py_truediv (py_sum (coeffs scanned))
                              (inject_Z (Z.of_nat (length (coeffs scanned))))
                end) = Ok a ∧
               a = mean (map (month_coefficient config) grades))
    as (a & -> & ->).
  { rewrite Hco. destruct grades as [|g grades]; [done|].
    simpl map. rewrite py_truediv_ok.
    - eexists. split; reflexivity.
    - apply inject_Z_nonzero. simpl length. lia. }
  eexists. split; [reflexivity|]. simpl. done.
Qed.


Lemma period_result grades dates locals :
  grades ≠ [] →
  period_locals strptime_ym now_year now_month grades dates config = Ok locals →
  ∃ r, calculate_performance_score_period strptime_ym now_year now_month
         grades dates config = Ok r ∧
       p_radar_value r = py_round (fst (fst (period_final locals config))) 1 ∧
       p_display_label r = [Lit "平均系数"; Fixed 2 (avg_coeff locals)].
Proof.
  intros Hne Hlocals. unfold calculate_performance_score_period.
  destruct grades as [|g grades]; [done|]. rewrite Hlocals.
  unfold mbind, result_bind.
  destruct (period_final locals config) as [[final_score status_color] alert_tag].
  eexists. split; [reflexivity|]. simpl. done.
Qed.

Ltac Qmin_cases :=
  repeat match goal with
         | |- context [Qmin ?a ?b] =>
             let H := fresh in
             let E := fresh in
             destruct (Q.min_spec_le a b) as [[H E]|[H E]]; rewrite E; clear E
         end.

Lemma period_final_le_base locals :
  fst (fst (period_final locals config)) <= base_score locals.
Proof.
  unfold period_final.
  repeat match goal with
         | |- context [if ?b then _ else _] =>
             match type of b with bool => destruct b end
         end; simpl; apply Q.le_min_l.
Qed.

Lemma period_final_mono locals locals' :
  let rules := contamination_rules (performance config) in
  d_cap_score rules <= c_cap_score rules →
  d_cap_score rules <= 110 →
  base_score locals' <= base_score locals →
  d_count_effective (scan locals) <= d_count_effective (scan locals') →
  c_count_effective (scan locals') == c_count_effective (scan locals) →
  fst (fst (period_final locals' config)) <= fst (fst (period_final locals config)).
Proof.
  intros rules Hcaps Hcap Hbase Hd Hc. unfold period_final. fold rules.
  rewrite Hc.
  destruct (Qle_bool (d_count_threshold rules) (d_count_effective (scan locals)))
    eqn:Ed;
  destruct (Qle_bool (d_count_threshold rules) (d_count_effective (scan locals')))
    eqn:Ed';
  destruct (Qle_bool (c_count_threshold rules) (c_count_effective (scan locals)))
    eqn:Ec;
  rewrite ?Qle_bool_iff, ?Qle_bool_gt in *; try lra;
  repeat match goal with
         | |- context [if ?b then _ else _] =>
             match type of b with bool => destruct b end
         end; simpl; Qmin_cases; lra.
Qed.


Lemma month_weight_nonneg date :
  0 <= decay_rate_of config →
  0 <= month_weight strptime_ym now_year now_month config date.
Proof.
  intros Hrate. unfold month_weight.
  destruct date as [date_str|]; [|lra].
  destruct (months_ago_of _ _ _ date_str) as [months_ago|]; [|lra].
  destruct (Qle_bool _ _); [|lra].
  unfold py_pow. destruct (_ && _); [lra|]. by apply Qpower_0_le.
Qed.

Lemma insert_at_not_nil {A} i (x : A) l : insert_at i x l ≠ [].
Proof. unfold insert_at. by destruct (take i l). Qed.

Lemma decay_applies_insert i date grades dates :
  grades ≠ [] →
  decay_applies (insert_at i "D"%string grades) (insert_at i date <$> dates) config
  = decay_applies grades dates config.
Proof.
  intros Hne. unfold decay_applies. f_equal.
  destruct dates as [ds|]; [|reflexivity]. simpl.
  pose proof (length_insert_at i date ds) as Hlen.
  pose proof (insert_at_not_nil i date ds) as Hnn.
  destruct (insert_at i date ds) as [|d' ds'] eqn:E; [done|].
  rewrite Hlen, length_insert_at.
  destruct ds as [|d ds]; [|reflexivity].
  destruct grades; [done|reflexivity].
Qed.

Lemma counted_months_insert i date grades dates :
  grades ≠ [] →
  counted_months config (insert_at i "D"%string grades) (insert_at i date <$> dates)
  = insert_at i ("D"%string,
                 if decay_applies grades dates config then Some date else None)
      (counted_months config grades dates).
Proof.
  intros Hne. unfold counted_months. rewrite decay_applies_insert by done.
  destruct (decay_applies grades dates config) eqn:Hdecay.
  - destruct (decay_applies_dates _ _ Hdecay) as (ds & -> & Hlen). simpl.
    rewrite map_insert_at. apply combine_insert_at. by rewrite length_map.
  - apply (map_insert_at (λ grade : string, (grade, @None string))).
Qed.

End PeriodFacts.

(** Claim C5.  For a non-empty grade list the average coefficient is the
    plain mean of the coefficients of the months and the base score is that
    mean times 95: no decay weight enters.  The same values come out for any
    other dates, clock and time-decay settings, which therefore bear only on
    the effective D and C counts. *)
Theorem period_base_score_is_plain_mean strptime_ym now_year now_month
    grades dates config :
  grades ≠ [] →
  let plain_mean := mean (map (month_coefficient config) grades) in
  (∃ locals r,
     period_locals strptime_ym now_year now_month grades dates config = Ok locals ∧
     avg_coeff locals = plain_mean ∧
     base_score locals = plain_mean * 95 ∧
     calculate_performance_score_period strptime_ym now_year now_month
       grades dates config = Ok r ∧
     p_display_label r = [Lit "平均系数"; Fixed 2 plain_mean]) ∧
  (∀ strptime_ym' now_year' now_month' dates' time_decay',
   ∃ locals',
     period_locals strptime_ym' now_year' now_month' grades dates'
       (set_time_decay time_decay' config) = Ok locals' ∧
     avg_coeff locals' = plain_mean ∧
     base_score locals' = plain_mean * 95).
Proof.
  intros Hne plain_mean. split.
  - destruct (period_locals_summary strptime_ym now_year now_month config
                grades dates Hne) as (locals & Hl & _ & _ & Havg & Hbase & _).
    destruct (period_result strptime_ym now_year now_month config grades dates
                locals Hne Hl) as (r & Hr & _ & Hlabel).
    exists locals, r. rewrite Hlabel, Havg. done.
  - intros strptime_ym' now_year' now_month' dates' time_decay'.
    destruct (period_locals_summary strptime_ym' now_year' now_month'
                (set_time_decay time_decay' config) grades dates' Hne)
      as (locals' & Hl & _ & _ & Havg & Hbase & _).
    exists locals'. done.
Qed.

(** Claim C4, as amended.  When the coefficient of D is 0 and is the lowest
    coefficient of the configuration (none is negative), the D cap is at most
    the C cap and at most 110, and the decay rate is not negative (all true of
    the shipped presets), adding one D month, with its date when dates are
    given, never increases [radar_value]: the added month adds 0 to the sum
    of the coefficients and 1 to their number. *)
Theorem period_more_D_not_higher strptime_ym now_year now_month config
    i date grades dates :
  let rules := contamination_rules (performance config) in
  month_coefficient config "D" == 0 →
  (∀ grade, month_coefficient config "D" <= month_coefficient config grade) →
  d_cap_score rules <= c_cap_score rules →
  d_cap_score rules <= 110 →
  0 <= decay_rate_of config →
  ∃ r r',
    calculate_performance_score_period strptime_ym now_year now_month
      grades dates config = Ok r ∧
    calculate_performance_score_period strptime_ym now_year now_month
      (insert_at i "D"%string grades) (insert_at i date <$> dates) config = Ok r' ∧
    p_radar_value r' <= p_radar_value r.
Proof.
  intros rules Hzero Hlow Hcaps Hcap Hrate.
  assert (month_coefficient config "D" <= 1) as Hone by (rewrite Hzero; lra).
  pose proof (insert_at_not_nil i "D"%string grades) as Hne'.
  destruct (period_locals_summary strptime_ym now_year now_month config
              _ (insert_at i date <$> dates) Hne')
    as (locals' & Hl' & _ & _ & _ & Hbase' & Hd' & Hc').
  destruct (period_result strptime_ym now_year now_month config _ _ _ Hne' Hl')
    as (r' & Hr' & Hradar' & _).
  destruct grades as [|g grades].
  - eexists. exists r'. split; [reflexivity|]. split; [exact Hr'|].
    rewrite Hradar'. simpl p_radar_value.
    assert (95.0 == py_round 95 1) as -> by reflexivity.
    apply py_round_mono.
    eapply Qle_trans; [apply period_final_le_base|].
    rewrite Hbase'. unfold insert_at. rewrite take_nil, drop_nil.
    cbn [app map]. rewrite mean_singleton. lra.
  - set (grades0 := g :: grades) in *.
    assert (grades0 ≠ []) as Hne by done.
    destruct (period_locals_summary strptime_ym now_year now_month config
                grades0 dates Hne)
      as (locals & Hl & _ & _ & _ & Hbase & Hd & Hc).
    destruct (period_result strptime_ym now_year now_month config _ _ _ Hne Hl)
      as (r & Hr & Hradar & _).
    exists r, r'. split; [exact Hr|]. split; [exact Hr'|].
    rewrite Hradar, Hradar'. apply py_round_mono.
    rewrite counted_months_insert in Hd', Hc' by done.
    rewrite map_insert_at, Qsum_insert_at in Hd', Hc'.
    apply period_final_mono; try done.
    + rewrite Hbase, Hbase', map_insert_at.
      apply Qmult_le_compat_r; [|lra].
      apply mean_insert_le.
      * by destruct grades0.
      * apply List.Forall_map, Forall_true. intros grade. apply Hlow.
    + rewrite Hd, Hd'.
      assert (0 <= grade_weight strptime_ym now_year now_month config "D"
                     ("D"%string,
                      if decay_applies grades0 dates config then Some date else None)).
      { unfold grade_weight. simpl. by apply month_weight_nonneg. }
      lra.
    + rewrite Hc, Hc'. unfold grade_weight. simpl. ring.
Qed.

Lemma standard_coefficients_nonneg grade :
  0 <= month_coefficient STANDARD_CONFIG grade.
Proof.
  unfold month_coefficient, coeff_get.
  destruct (grade_coefficients (performance STANDARD_CONFIG)
              !! normalize_grade grade) as [c|] eqn:E; [|simpl; lra].
  simpl in E |- *.
  repeat (apply lookup_insert_Some in E as [[_ <-]|[_ E]]; [lra|]).
  apply lookup_singleton_Some in E as [_ <-]. lra.
Qed.

Lemma period_base_score_is_plain_mean_witness :
  ∃ locals,
    period_locals sample_strptime_ym 2026 11 ["A"; "D"]%string
      (Some ["2026-10"; "2025-01"]%string) STANDARD_CONFIG = Ok locals ∧
    base_score locals == 52.25.
Proof.
  destruct (period_base_score_is_plain_mean sample_strptime_ym 2026 11
              ["A"; "D"]%string (Some ["2026-10"; "2025-01"]%string)
              STANDARD_CONFIG) as [(locals & r & Hl & _ & Hbase & _) _];
    [done|].
  exists locals. split; [exact Hl|]. rewrite Hbase. vm_compute. reflexivity.
Defined.

Lemma period_more_D_not_higher_witness :
  ∃ r r',
    calculate_performance_score_period sample_strptime_ym 2026 11
      ["A"; "B"]%string (Some ["2026-10"; "2026-09"]%string) STANDARD_CONFIG
      = Ok r ∧
    calculate_performance_score_period sample_strptime_ym 2026 11
      ["A"; "D"; "B"]%string (Some ["2026-10"; "2025-01"; "2026-09"]%string)
      STANDARD_CONFIG = Ok r' ∧
    p_radar_value r' <= p_radar_value r.
Proof.
  apply (period_more_D_not_higher sample_strptime_ym 2026 11 STANDARD_CONFIG
           1 "2025-01"%string ["A"; "B"]%string
           (Some ["2026-10"; "2026-09"]%string)).
  - reflexivity.
  - intros grade.
    assert (month_coefficient STANDARD_CONFIG "D" == 0) as -> by reflexivity.
    apply standard_coefficients_nonneg.
  - vm_compute. discriminate.
  - vm_compute. discriminate.
  - vm_compute. discriminate.
Defined.

(** Claim C4 as stated fails: with the coefficient of D set to 2.0, which
    [validate_config] accepts, one more D month raises the value from 57 to
    90. *)
Lemma period_more_D_counterexample :
  ∃ r r',
    calculate_performance_score_period sample_strptime_ym 2026 11
      ["C"]%string None D_REWARDING_CONFIG = Ok r ∧
    calculate_performance_score_period sample_strptime_ym 2026 11
      (insert_at 1 "D"%string ["C"]%string) (insert_at 1 "2026-10"%string <$> None)
      D_REWARDING_CONFIG = Ok r' ∧
    p_radar_value r == 57 ∧ p_radar_value r' == 90 ∧
    p_radar_value r < p_radar_value r'.
Proof.
  eexists. eexists. split; [vm_compute; reflexivity|].
  split; [vm_compute; reflexivity|]. simpl. split_and!; reflexivity.
Qed.

(** ** The store around an update *)

(** A write that violates a constraint of the log table is rolled back: the
    state is the one before the call, cache included. *)
Example update_custom_config_rolls_back :
  update_custom_config (config_json D_REWARDING_CONFIG) (Some 7%Z)
    "experiment" None None "2026-11-05 10:00:00" sample_service
  = ((false, UpdateFailed IntegrityError), sample_service).
Proof.
  unfold update_custom_config. rewrite D_rewarding_config_validates. cbn [negb].
  rewrite update_transaction_fails; [reflexivity|].
  intros id [= <-]. vm_compute. reflexivity.
Qed.

(** After a successful update a read within the former cache lifetime sees
    the new configuration, not the cached one. *)
Example update_custom_config_then_read :
  ∃ s', update_custom_config (config_json D_REWARDING_CONFIG) (Some 1%Z)
          "experiment" None None "2026-11-05 10:00:00" sample_service
        = ((true, UpdateSucceeded), s') ∧
        fst (get_active_config 101 sample_service)
          = Ok (config_json STANDARD_CONFIG) ∧
        fst (get_active_config 101 s') = Ok (config_json D_REWARDING_CONFIG).
Proof.
  unfold update_custom_config. rewrite D_rewarding_config_validates. cbn [negb].
  rewrite update_transaction_ok by exact sample_service_user_1.
  eexists. split; [reflexivity|]. split.
  - unfold get_active_config.
    change (_cache sample_service) with (Some (config_json STANDARD_CONFIG)).
    cbv beta iota.
    assert (Qltb (101 - _cache_time sample_service) cache_ttl = true) as ->
      by (vm_compute; reflexivity).
    reflexivity.
  - unfold clear_cache. cbn [db]. by rewrite get_active_config_cold.
Qed.

(** * Further properties *)

(** ** Safety: bounds, clean records, red lines *)

Lemma math_ceil_nonneg x : 0 <= x → (0 <= math_ceil x)%Z.
Proof.
  intros Hx. unfold math_ceil.
  change 0%Z with (Qceiling 0). by apply Qceiling_resp_le.
Qed.

Lemma py_round_nonneg x n : 0 <= x → 0 <= py_round x n.
Proof.
  intros Hx. assert (py_round 0 n == 0) as <-.
  { unfold py_round. destruct n; reflexivity. }
  by apply py_round_mono.
Qed.

Lemma py_round_le_100 x : x <= 100 → py_round x 1 <= 100.
Proof.
  intros Hx. assert (py_round 100 1 == 100) as <- by reflexivity.
  by apply py_round_mono.
Qed.

Lemma safety_locals_inv vs months_active config l :
  safety_locals vs months_active config = Ok l →
  let severity := fold_left (severity_step (severity_track (safety config)))
                    vs (0, false) in
  ∃ m, m ∈ freq_multipliers (behavior_track (safety config)) ∧
    l_avg_freq l =
      (if (0 <? months_active)%Z
       then math_ceil (inject_Z (Z.of_nat (length vs)) / inject_Z months_active)
       else 0%Z) ∧
    l_score_a l = Qmax 0 (100 - inject_Z (l_avg_freq l) * m) ∧
    l_score_b l = Qmax 0 (100 - fst severity) ∧
    l_has_critical_violation l = snd severity ∧
    l_final_score l = Qmin (l_score_a l) (l_score_b l).
Proof.
  unfold safety_locals. rewrite monthly_avg_freq_ok.
  unfold list_index, mbind, result_bind. intros H. cbv zeta in *.
  destruct (fold_left _ vs (0, false)) as [deduction critical] eqn:Hfold.
  cbv beta iota in H.
  repeat (match type of H with
          | context [match ?l !! ?i with _ => _ end] =>
              let E := fresh "E" in destruct (l !! i) eqn:E; try discriminate H
          | context [if ?b then _ else _] =>
              match type of b with
              | bool => match b with
                        | (0 <? _)%Z => fail 1
                        | _ => destruct b
                        end
              end
          end); try discriminate H; injection H as <-; cbn [l_avg_freq l_score_a l_score_b
            l_has_critical_violation l_final_score fst snd];
    eexists; (split; [|split_and!; reflexivity]);
    eapply list_elem_of_lookup_2; eassumption.
Qed.

Lemma safety_result_inv vs months_active config r :
  calculate_safety_score_dual_track vs months_active config = Ok r →
  ∃ l, safety_locals vs months_active config = Ok l ∧
    score_a r = py_round (l_score_a l) 1 ∧
    score_b r = py_round (l_score_b l) 1 ∧
    final_score r = py_round (l_final_score l) 1 ∧
    violation_count r = Z.of_nat (length vs) ∧
    avg_freq r = l_avg_freq l ∧
    (s_status_color r, s_alert_tag r) =
      (let thresholds := thresholds (safety config) in
       if Qltb (l_final_score l) (fail_score thresholds)
          || l_has_critical_violation l then
         (RED, if l_has_critical_violation l then "⛔ 重大红线（存在高扣分）"%string
               else "⛔ 安全不合格"%string)
       else if Qle_bool (fail_score thresholds) (l_final_score l)
               && Qltb (l_final_score l) (warning_score thresholds) then
         (ORANGE, if Qltb (l_score_a l) (l_score_b l) then "⚠️ 高频违规风险"%string
                  else "⚠️ 扣分过多风险"%string)
       else (GREEN, "✅ 安全"%string)).
Proof.
  unfold calculate_safety_score_dual_track, mbind, result_bind. intros H.
  destruct (safety_locals vs months_active config) as [l|e]; [|discriminate H].
  exists l. split; [reflexivity|]. cbv zeta in *.
  destruct (if _ : bool then _ else _) as [c t] eqn:E in H.
  injection H as <-. cbn [score_a score_b final_score violation_count avg_freq
    s_status_color s_alert_tag]. rewrite <- E. split_and!; reflexivity.
Qed.

Lemma avg_freq_nonneg (n : nat) months_active :
  (0 <= (if (0 <? months_active)%Z
         then math_ceil (inject_Z (Z.of_nat n) / inject_Z months_active)
         else 0))%Z.
Proof.
  destruct (Z.ltb_spec 0 months_active) as [Hm|_]; [|lia].
  apply math_ceil_nonneg. apply Qle_shift_div_l.
  - change 0 with (inject_Z 0). rewrite <- Zlt_Qlt. lia.
  - rewrite Qmult_0_l. change 0 with (inject_Z 0). rewrite <- Zle_Qle. lia.
Qed.

(** Property X1.  Whenever the safety calculator returns, its two track scores
    and its final score are not negative; when no frequency multiplier of the
    configuration is negative, the behaviour score and the final score are at
    most 100. *)
Theorem safety_scores_bounded vs months_active config r :
  calculate_safety_score_dual_track vs months_active config = Ok r →
  0 <= score_a r ∧ 0 <= score_b r ∧ 0 <= final_score r ∧
  (Forall (λ m, 0 <= m) (freq_multipliers (behavior_track (safety config))) →
   score_a r <= 100 ∧ final_score r <= 100).
Proof.
  intros Hr. apply safety_result_inv in Hr as (l & Hl & -> & -> & -> & _).
  apply safety_locals_inv in Hl as (m & Hm & Hfreq & Ha & Hb & _ & Hfinal).
  cbv zeta in *. rewrite Hfinal, Ha, Hb.
  split_and!.
  - apply py_round_nonneg, Q.le_max_l.
  - apply py_round_nonneg, Q.le_max_l.
  - apply py_round_nonneg, Q.min_glb; apply Q.le_max_l.
  - intros Hmult. rewrite Forall_forall in Hmult. apply Hmult in Hm.
    assert (0 <= inject_Z (l_avg_freq l)) as Hf.
    { rewrite Hfreq. change 0 with (inject_Z 0). rewrite <- Zle_Qle.
      apply avg_freq_nonneg. }
    assert (Qmax 0 (100 - inject_Z (l_avg_freq l) * m) <= 100) as Hle.
    { apply Q.max_lub; [done|]. 
      assert (0 <= inject_Z (l_avg_freq l) * m) by (by apply Qmult_le_0_compat).
      lra. }
    split; apply py_round_le_100; [done|].
    eapply Qle_trans; [apply Q.le_min_l|done].
Qed.

Lemma safety_scores_bounded_witness :
  ∃ r, calculate_safety_score_dual_track [2.0; 4.0; 8.0] 6 STANDARD_CONFIG = Ok r ∧
       0 <= final_score r ∧ final_score r <= 100.
Proof.
  assert (∃ r, calculate_safety_score_dual_track [2.0; 4.0; 8.0] 6 STANDARD_CONFIG
               = Ok r) as [r Hr] by (eexists; vm_compute; reflexivity).
  exists r. split; [exact Hr|].
  destruct (safety_scores_bounded _ _ _ _ Hr) as (_ & _ & H0 & H100).
  split; [exact H0|]. apply H100.
  repeat constructor; vm_compute; discriminate.
Defined.

Lemma safety_returns vs months_active config :
  (3 <= length (freq_thresholds (behavior_track (safety config))))%nat →
  (3 <= length (freq_multipliers (behavior_track (safety config))))%nat →
  ∃ r, calculate_safety_score_dual_track vs months_active config = Ok r.
Proof.
  intros Ht Hm.
  destruct (safety_locals_returns vs months_active config Ht Hm) as [l Hl].
  unfold calculate_safety_score_dual_track, mbind, result_bind. rewrite Hl.
  cbv zeta. destruct (if _ : bool then _ else _) as [c t]. eauto.
Qed.

Lemma severity_critical st vs acc :
  snd (fold_left (severity_step st) vs acc)
  = snd acc || existsb (Qle_bool (critical_threshold st)) vs.
Proof.
  revert acc. induction vs as [|v vs IH]; intros acc.
  - simpl. by rewrite orb_false_r.
  - cbn [fold_left existsb]. rewrite IH. unfold severity_step.
    cbn [snd]. destruct (Qle_bool (critical_threshold st) v); cbn [orb].
    + by rewrite orb_true_r.
    + done.
Qed.

(** Property X2.  With no violation at all, under a configuration that lists
    three frequency tiers, the safety calculator returns 100 on both tracks
    and as final score, with a violation count and an average frequency of 0,
    whatever [months_active] is; the status is GREEN when neither threshold
    exceeds 100. *)
Theorem safety_no_violations months_active config :
  (3 <= length (freq_thresholds (behavior_track (safety config))))%nat →
  (3 <= length (freq_multipliers (behavior_track (safety config))))%nat →
  ∃ r, calculate_safety_score_dual_track [] months_active config = Ok r ∧
       score_a r == 100 ∧ score_b r == 100 ∧ final_score r == 100 ∧
       violation_count r = 0%Z ∧ avg_freq r = 0%Z ∧
       (fail_score (thresholds (safety config)) <= 100 →
        warning_score (thresholds (safety config)) <= 100 →
        s_status_color r = GREEN ∧ s_alert_tag r = "✅ 安全"%string).
Proof.
  intros Ht Hm.
  destruct (safety_returns [] months_active config Ht Hm) as [r Hr].
  exists r. split; [exact Hr|].
  apply safety_result_inv in Hr as (l & Hl & -> & -> & -> & -> & -> & Hcolor).
  apply safety_locals_inv in Hl as (m & _ & Hfreq & Ha & Hb & Hcrit & Hfinal).
  cbn [fold_left fst snd length] in *.
  assert (l_avg_freq l = 0%Z) as Hzero.
  { rewrite Hfreq. destruct (0 <? months_active)%Z; [|done].
    unfold math_ceil. transitivity (Qceiling 0); [|reflexivity].
    apply Qceiling_comp. unfold Qdiv. apply Qmult_0_l. }
  rewrite Hzero in Ha.
  assert (l_score_a l == 100) as Ea.
  { rewrite Ha. rewrite Qmult_0_l. reflexivity. }
  assert (l_score_b l == 100) as Eb by (rewrite Hb; reflexivity).
  assert (l_final_score l == 100) as Ef.
  { rewrite Hfinal, Ea, Eb. reflexivity. }
  split_and!.
  - rewrite Ea. reflexivity.
  - rewrite Eb. reflexivity.
  - rewrite Ef. reflexivity.
  - reflexivity.
  - exact Hzero.
  - intros Hfail Hwarn. rewrite Hcrit in Hcolor. cbv zeta in Hcolor.
    destruct (Qltb (l_final_score l) (fail_score _)) eqn:E1.
    { apply Qltb_lt in E1. rewrite Ef in E1. lra. }
    destruct (Qltb (l_final_score l) (warning_score _)) eqn:E2.
    { apply Qltb_lt in E2. rewrite Ef in E2. lra. }
    rewrite andb_false_r in Hcolor. cbn [orb] in Hcolor.
    by injection Hcolor as -> ->.
Qed.

Lemma safety_no_violations_witness :
  ∃ r, calculate_safety_score_dual_track [] 6 STANDARD_CONFIG = Ok r ∧
       final_score r == 100 ∧ s_status_color r = GREEN.
Proof.
  destruct (safety_no_violations 6 STANDARD_CONFIG)
    as (r & Hr & _ & _ & Hf & _ & _ & Hc); [simpl; lia|simpl; lia|].
  exists r. split; [exact Hr|]. split; [exact Hf|].
  apply Hc; vm_compute; discriminate.
Defined.

(** Property X3.  The alert tag of the safety result is the red-line tag
    exactly when some violation reaches [critical_threshold]; such a violation
    makes the status RED whatever the final score. *)
Theorem safety_red_line vs months_active config r :
  calculate_safety_score_dual_track vs months_active config = Ok r →
  (s_alert_tag r = "⛔ 重大红线（存在高扣分）"%string
   ↔ ∃ v, v ∈ vs ∧ critical_threshold (severity_track (safety config)) <= v) ∧
  ((∃ v, v ∈ vs ∧ critical_threshold (severity_track (safety config)) <= v) →
   s_status_color r = RED).
Proof.
  intros Hr.
  apply safety_result_inv in Hr as (l & Hl & _ & _ & _ & _ & _ & Hcolor).
  apply safety_locals_inv in Hl as (m & _ & _ & _ & _ & Hcrit & _).
  cbv zeta in *. rewrite severity_critical in Hcrit. cbn [snd orb] in Hcrit.
  assert (l_has_critical_violation l = true
          ↔ ∃ v, v ∈ vs ∧ critical_threshold (severity_track (safety config)) <= v)
    as Hiff.
  { rewrite Hcrit, existsb_exists. split.
    - intros (v & Hin & Hv). exists v. rewrite list_elem_of_In.
      by rewrite Qle_bool_iff in Hv.
    - intros (v & Hin & Hv). exists v. rewrite <- list_elem_of_In.
      by rewrite Qle_bool_iff. }
  rewrite <- Hiff. clear Hiff Hcrit.
  destruct (l_has_critical_violation l).
  - rewrite orb_true_r in Hcolor. by injection Hcolor as -> ->.
  - split; [|done]. split; [|done]. intros Htag.
    repeat (match type of Hcolor with
            | context [if ?b then _ else _] => destruct b
            end); injection Hcolor as _ Ht; rewrite Htag in Ht; discriminate Ht.
Qed.

Lemma safety_red_line_witness :
  ∃ r, calculate_safety_score_dual_track [1; 12] 6 STANDARD_CONFIG = Ok r ∧
       s_status_color r = RED.
Proof.
  assert (∃ r, calculate_safety_score_dual_track [1; 12] 6 STANDARD_CONFIG
               = Ok r) as [r Hr] by (eexists; vm_compute; reflexivity).
  exists r. split; [exact Hr|].
  apply (safety_red_line _ _ _ _ Hr). exists 12. split.
  - apply list_elem_of_further, list_elem_of_here.
  - vm_compute. discriminate.
Defined.

Lemma severity_deduction st vs acc :
  fst (fold_left (severity_step st) vs acc)
  == fst acc + Qsum (map (λ v, v * severity_multiplier (score_ranges st) v) vs).
Proof.
  revert acc. induction vs as [|v vs IH]; intros acc.
  - unfold Qsum. simpl. lra.
  - cbn [fold_left map]. rewrite IH. unfold severity_step. cbn [fst].
    unfold Qsum. cbn [fold_right]. lra.
Qed.

Lemma severity_multiplier_nonneg ranges v :
  Forall (λ rule, 0 <= sr_multiplier rule) ranges →
  0 <= severity_multiplier ranges v.
Proof.
  induction 1 as [|rule ranges Hrule _ IH]; cbn [severity_multiplier].
  - lra.
  - destruct (sr_min rule), (sr_max rule);
      repeat match goal with
             | |- context [if ?b then _ else _] => destruct b
             end; done.
Qed.

(** Property X4.  When no severity multiplier is negative, one more violation
    with a non-negative score, recorded at any position of the list, never
    raises the severity score [score_b]. *)
Theorem safety_more_violations_not_higher vs months_active config i v r r' :
  Forall (λ rule, 0 <= sr_multiplier rule)
         (score_ranges (severity_track (safety config))) →
  0 <= v →
  calculate_safety_score_dual_track vs months_active config = Ok r →
  calculate_safety_score_dual_track (insert_at i v vs) months_active config
    = Ok r' →
  score_b r' <= score_b r.
Proof.
  intros Hrules Hv Hr Hr'.
  apply safety_result_inv in Hr as (l & Hl & _ & -> & _).
  apply safety_result_inv in Hr' as (l' & Hl' & _ & -> & _).
  apply safety_locals_inv in Hl as (_ & _ & _ & _ & -> & _).
  apply safety_locals_inv in Hl' as (_ & _ & _ & _ & -> & _).
  apply py_round_mono.
  rewrite !severity_deduction. cbn [fst].
  rewrite map_insert_at, Qsum_insert_at.
  pose proof (severity_multiplier_nonneg _ v Hrules) as Hm.
  assert (0 <= v * severity_multiplier
                    (score_ranges (severity_track (safety config))) v)
    by (by apply Qmult_le_0_compat).
  apply Q.max_le_compat_l. lra.
Qed.

Lemma safety_more_violations_not_higher_witness :
  ∃ r r',
    calculate_safety_score_dual_track [2; 4] 6 STANDARD_CONFIG = Ok r ∧
    calculate_safety_score_dual_track [2; 6; 4] 6 STANDARD_CONFIG = Ok r' ∧
    score_b r' <= score_b r.
Proof.
  assert (∃ r, calculate_safety_score_dual_track [2; 4] 6 STANDARD_CONFIG
               = Ok r) as [r Hr] by (eexists; vm_compute; reflexivity).
  assert (∃ r, calculate_safety_score_dual_track (insert_at 1 6 [2; 4]) 6
                 STANDARD_CONFIG = Ok r) as [r' Hr']
    by (eexists; vm_compute; reflexivity).
  exists r, r'. split; [exact Hr|]. split; [exact Hr'|].
  apply (safety_more_violations_not_higher [2; 4] 6 STANDARD_CONFIG 1 6 r r');
    [|vm_compute; discriminate|exact Hr|exact Hr'].
  repeat constructor; vm_compute; discriminate.
Defined.

(** ** Training: the penalty ladder *)

Lemma count_step_total records acc :
  snd (fold_left count_step records acc)
  == snd acc + Qsum (map (λ record, default 0 (tr_score record)) records).
Proof.
  revert acc. induction records as [|record records IH]; intros acc.
  - unfold Qsum. simpl. lra.
  - cbn [fold_left map]. rewrite IH. unfold count_step. cbn [snd].
    unfold Qsum. cbn [fold_right]. lra.
Qed.

Lemma Qsum_upper_bound c l :
  Forall (λ x, x <= c) l → Qsum l <= c * inject_Z (Z.of_nat (length l)).
Proof.
  induction 1 as [|x l Hx _ IH].
  - simpl. unfold Qle. simpl. lia.
  - simpl length. rewrite Nat2Z.inj_succ. unfold Z.succ.
    rewrite inject_Z_plus. simpl Qsum. change (inject_Z 1) with 1. lra.
Qed.

(** The result on a non-empty list of records, by the locals of the
    function. *)
Lemma training_result_inv records duration_days cert_years config r :
  records ≠ [] →
  calculate_training_score_with_penalty records duration_days cert_years config
    = Ok r →
  let n := Z.of_nat (length records) in
  let mean_score :=
    Qsum (map (λ record, default 0 (tr_score record)) records) / inject_Z n in
  ∃ penalty total_score,
    select_penalty config n (count_failures records) duration_days
      cert_years = Ok penalty ∧
    total_score / inject_Z n == mean_score ∧
    radar_score r = py_round (total_score / inject_Z n * coeff penalty) 1 ∧
    original_score r = py_round (total_score / inject_Z n) 1 ∧
    penalty_coefficient r = coeff penalty ∧
    fail_count (stats r) = count_failures records ∧
    total_ops (stats r) = Z.of_nat (length records) ∧
    show (risk_alert r) = (0 <? count_failures records)%Z ∧
    level (risk_alert r) = tag_level penalty ∧
    t_status_color r = status_color_of_level (tag_level penalty).
Proof.
  intros Hne. unfold calculate_training_score_with_penalty.
  assert (0 < Z.of_nat (length records))%Z as Hlen.
  { destruct records; [done|]. simpl length. lia. }
  destruct (Z.eqb_spec (Z.of_nat (length records)) 0) as [?|_]; [lia|].
  pose proof (count_step_failures records (0%Z, 0)) as Hcount.
  pose proof (count_step_total records (0%Z, 0)) as Htotal.
  destruct (fold_left count_step records (0%Z, 0)) as [fail_count total_score].
  assert (fail_count = count_failures records) as -> by (simpl in Hcount; lia).
  clear Hcount. cbn [snd] in Htotal.
  destruct (Z.ltb_spec 0 (Z.of_nat (length records))) as [_|?]; [|lia].
  rewrite py_truediv_ok by (apply inject_Z_nonzero; lia).
  unfold mbind, result_bind.
  destruct (select_penalty _ _ _ _ _) as [penalty|e]; [|discriminate].
  intros [= <-]. exists penalty, total_score. cbn.
  split_and!; try reflexivity.
  rewrite Htotal. rewrite Qplus_0_l. reflexivity.
Qed.

Lemma afr_lookup_elem table AFR rule :
  afr_lookup table AFR = Some rule → rule ∈ table.
Proof.
  induction table as [|first rest IH]; cbn [afr_lookup]; [done|].
  destruct (afr_max first);
    match goal with
    | |- context [if ?b then _ else _] => destruct b
    end; intros H; try (injection H as <-; apply list_elem_of_here);
    apply list_elem_of_further; auto.
Qed.

Lemma afr_lookup_below table AFR :
  Forall (λ rule, AFR < afr_min rule) table → afr_lookup table AFR = None.
Proof.
  induction 1 as [|rule rest Hrule _ IH]; cbn [afr_lookup]; [done|].
  apply Qle_bool_gt in Hrule. rewrite Hrule. cbn [andb]. by destruct (afr_max rule).
Qed.

(** The table the AFR rule is taken from is one of the three of the
    configuration. *)
Lemma afr_table_rules rules (is_new_employee : bool) rule :
  rule ∈ (if is_new_employee
          then default (default [] (afr_thresholds rules))
                       (afr_thresholds_new_employee rules)
          else default (default [] (afr_thresholds rules))
                       (afr_thresholds_experienced rules)) →
  rule ∈ all_afr_rules rules.
Proof.
  unfold all_afr_rules. rewrite !elem_of_app.
  destruct is_new_employee, (afr_thresholds_new_employee rules),
    (afr_thresholds_experienced rules); cbn [default]; tauto.
Qed.

Lemma select_penalty_coeff config total_ops fail_count duration_days cert_years
    penalty :
  select_penalty config total_ops fail_count duration_days cert_years
    = Ok penalty →
  let rules := penalty_rules (training config) in
  coeff penalty = at_coefficient (absolute_threshold rules) ∨
  coeff penalty = ss_coefficient (small_sample rules) ∨
  (∃ rule, rule ∈ all_afr_rules rules ∧ coeff penalty = afr_coefficient rule) ∨
  coeff penalty = 1.0.
Proof.
  unfold select_penalty. cbv zeta.
  destruct (_ <=? _)%Z; [intros [= <-]; by left|].
  destruct (_ && _); [intros [= <-]; right; by left|].
  destruct (Qle_bool _ _).
  2: { destruct (_ =? _)%Z; intros [= <-]; by repeat right. }
  rewrite annualized_failure_rate_ok. unfold mbind, result_bind. cbv beta iota.
  set (is_new := match cert_years with None => true | Some y => Qltb y 1.0 end).
  set (AFR := _ * 365).
  intros H.
  assert (∃ table label,
            (rule_table ← Some table; Some rule_table) = Some table ∧
            (∀ rule, rule ∈ table → rule ∈ all_afr_rules (penalty_rules (training config))) ∧
            match afr_lookup table AFR with
            | Some rule =>
                match afr_max rule with
                | Some max =>
                    Ok {| coeff := afr_coefficient rule;
                          tag_level :=
                            if Qle_bool (afr_coefficient rule) 0.7 then WARNING else NOTICE;
                          alert_msg :=
                            [Lit "⛔ "; Lit (afr_label rule); Lit " (年化 ";
                             Fixed 1 AFR; Lit " 次)"];
                          penalty_description :=
                            [Lit "年化失格频率"; Fixed 1 AFR; Lit "次/年，";
                             Lit label; Lit "阈值"; Num (afr_min rule);
                             Lit "-"; Num max; Lit "，需要重点关注。"];
                          penalty_duration_days := Z.max 1 duration_days |}
                | None =>
                    Ok {| coeff := afr_coefficient rule;
                          tag_level := CRITICAL;
                          alert_msg :=
                            [Lit "❌ "; Lit (afr_label rule); Lit " (年化 ";
                             Fixed 1 AFR; Lit " 次)"];
                          penalty_description :=
                            [Lit "当前周期"; Num (inject_Z (Z.max 1 duration_days));
                             Lit "天内失格"; Num (inject_Z fail_count);
                             Lit "次，年化等效"; Fixed 1 AFR; Lit "次/年，超过";
                             Lit label; Lit "红线阈值"; Num (afr_min rule);
                             Lit "次/年。"];
                          penalty_duration_days := Z.max 1 duration_days |}
                end
            | None => Ok (normal_penalty (Z.max 1 duration_days))
            end = Ok penalty) as (table & label & _ & Htable & Hsel).
  { destruct is_new eqn:E; eexists; eexists; (split; [reflexivity|]);
      (split; [|exact H]); intros rule Hin;
      apply (afr_table_rules _ is_new); rewrite E; exact Hin. }
  clear H. destruct (afr_lookup table AFR) as [rule|] eqn:Hlookup.
  - apply afr_lookup_elem, Htable in Hlookup.
    destruct (afr_max rule); injection Hsel as <-;
      right; right; left; exists rule; by split.
  - injection Hsel as <-. by repeat right.
Qed.

(** Property X5.  With at least one failing record but fewer than
    [absolute_threshold.fail_count], and fewer records than
    [small_sample.sample_size], the training calculator applies the
    small-sample coefficient at level HIGH_RISK, shown in PURPLE: it returns
    that coefficient, the average score rounded to one decimal as
    [original_score], and the average multiplied by that coefficient, rounded
    to one decimal, as [radar_score]. *)
Theorem training_small_sample_rule records duration_days cert_years config :
  let rules := penalty_rules (training config) in
  (0 < count_failures records)%Z →
  (count_failures records < at_fail_count (absolute_threshold rules))%Z →
  inject_Z (Z.of_nat (length records)) < sample_size (small_sample rules) →
  ∃ r, calculate_training_score_with_penalty records duration_days cert_years
         config = Ok r ∧
       penalty_coefficient r = ss_coefficient (small_sample rules) ∧
       radar_score r =
         py_round
           (score_total records / inject_Z (Z.of_nat (length records)) *
            ss_coefficient (small_sample rules)) 1 ∧
       original_score r =
         py_round (score_total records / inject_Z (Z.of_nat (length records))) 1 ∧
       level (risk_alert r) = HIGH_RISK ∧
       show (risk_alert r) = true ∧
       t_status_color r = PURPLE.
Proof.
  intros rules Hpos Hbelow Hsmall.
  assert (0 < Z.of_nat (length records))%Z as Hlen.
  { destruct records; [|simpl length; lia].
    unfold count_failures in Hpos. simpl in Hpos. lia. }
  unfold calculate_training_score_with_penalty.
  destruct (Z.eqb_spec (Z.of_nat (length records)) 0) as [?|_]; [lia|].
  pose proof (count_step_failures records (0%Z, 0)) as Hcount.
  pose proof (count_step_score_total records (0%Z, 0)) as Htotal.
  destruct (fold_left count_step records (0%Z, 0)) as [fail_count total_score].
  assert (fail_count = count_failures records) as -> by (simpl in Hcount; lia).
  clear Hcount. cbn [snd] in Htotal. fold (score_total records) in Htotal.
  subst total_score.
  destruct (Z.ltb_spec 0 (Z.of_nat (length records))) as [_|?]; [|lia].
  rewrite py_truediv_ok by (apply inject_Z_nonzero; lia).
  unfold select_penalty. cbv zeta. fold rules.
  destruct (Z.leb_spec (at_fail_count (absolute_threshold rules))
              (count_failures records)) as [?|_]; [lia|].
  apply Qltb_lt in Hsmall. rewrite Hsmall.
  destruct (Z.ltb_spec 0 (count_failures records)) as [_|?]; [|lia].
  cbn [andb]. eexists. split; [reflexivity|]. cbn -[score_total].
  split_and!; reflexivity.
Qed.

(** One failure among two records: the average 45 is returned as 31.5. *)
Lemma training_small_sample_rule_witness :
  ∃ r, calculate_training_score_with_penalty
         [failed_record;
          {| tr_score := Some 90; tr_is_qualified := Some 1%Z;
             tr_is_disqualified := Some 0%Z; tr_training_date := "2026-10-02" |}]
         30 None STANDARD_CONFIG = Ok r ∧
       penalty_coefficient r = 0.7 ∧ radar_score r == 31.5 ∧
       original_score r == 45 ∧ t_status_color r = PURPLE.
Proof.
  destruct (training_small_sample_rule
              [failed_record;
               {| tr_score := Some 90; tr_is_qualified := Some 1%Z;
                  tr_is_disqualified := Some 0%Z;
                  tr_training_date := "2026-10-02" |}]
              30 None STANDARD_CONFIG)
    as (r & Hr & Hcoeff & Hradar & Horiginal & _ & _ & Hcolor);
    [vm_compute; reflexivity | vm_compute; reflexivity
    | vm_compute; reflexivity |].
  exists r. split; [exact Hr|]. split_and!.
  - exact Hcoeff.
  - rewrite Hradar. vm_compute. reflexivity.
  - rewrite Horiginal. vm_compute. reflexivity.
  - exact Hcolor.
Defined.

(** Property X6.  A non-empty record list without any failing record is not
    penalized: coefficient 1.0, level NORMAL, GREEN, no alert shown, and the
    radar score is the original score.  This needs the absolute fail count to
    be positive and every AFR rule to start above 0: a rule with [min <= 0]
    matches an annualized rate of 0. *)
Theorem training_no_failure_no_penalty records duration_days cert_years config :
  let rules := penalty_rules (training config) in
  records ≠ [] →
  count_failures records = 0%Z →
  (0 < at_fail_count (absolute_threshold rules))%Z →
  (∀ rule, rule ∈ all_afr_rules rules → 0 < afr_min rule) →
  ∃ r, calculate_training_score_with_penalty records duration_days cert_years
         config = Ok r ∧
       penalty_coefficient r = 1.0 ∧
       level (risk_alert r) = NORMAL ∧
       show (risk_alert r) = false ∧
       t_status_color r = GREEN ∧
       radar_score r == original_score r.
Proof.
  intros rules Hne Hzero Hat Hrules.
  destruct (training_returns records duration_days cert_years config) as [r Hr].
  exists r. split; [exact Hr|].
  apply training_result_inv in Hr
    as (penalty & total & Hsel & _ & -> & -> & -> & _ & _ & -> & -> & ->);
    [|exact Hne].
  rewrite Hzero in *.
  assert (penalty = normal_penalty (penalty_duration_days penalty)) as ->.
  { unfold select_penalty in Hsel. cbv zeta in Hsel. fold rules in Hsel.
    destruct (Z.leb_spec (at_fail_count (absolute_threshold rules)) 0)
      as [?|_]; [lia|].
    change (0 <? 0)%Z with false in Hsel. rewrite andb_false_r in Hsel.
    destruct (Qle_bool _ _).
    2: { change (0 =? 0)%Z with true in Hsel. by injection Hsel as <-. }
    rewrite annualized_failure_rate_ok in Hsel.
    unfold mbind, result_bind in Hsel. cbv beta iota in Hsel.
    set (is_new := match cert_years with None => true | Some y => Qltb y 1.0 end)
      in Hsel.
    set (AFR := _ * 365) in Hsel.
    assert (AFR == 0) as HAFR.
    { unfold AFR, Qdiv. change (inject_Z 0) with 0. lra. }
    assert (∀ table,
              (∀ rule, rule ∈ table → rule ∈ all_afr_rules rules) →
              afr_lookup table AFR = None) as Hnone.
    { intros table Hsub. apply afr_lookup_below, Forall_forall.
      intros rule Hin. rewrite HAFR. by apply Hrules, Hsub. }
    destruct is_new eqn:E; cbv beta iota in Hsel.
    - rewrite Hnone in Hsel.
      + by injection Hsel as <-.
      + intros rule Hin. by apply (afr_table_rules _ true).
    - rewrite Hnone in Hsel.
      + by injection Hsel as <-.
      + intros rule Hin. by apply (afr_table_rules _ false). }
  cbn. split_and!; try reflexivity.
  apply py_round_comp. assert (1.0 == 1) as -> by reflexivity. lra.
Qed.

Lemma training_no_failure_no_penalty_witness :
  ∃ r, calculate_training_score_with_penalty
         [{| tr_score := Some 90; tr_is_qualified := Some 1%Z;
             tr_is_disqualified := Some 0%Z; tr_training_date := "2026-10-02" |}]
         30 None STANDARD_CONFIG = Ok r ∧
       penalty_coefficient r = 1.0 ∧ t_status_color r = GREEN.
Proof.
  destruct (training_no_failure_no_penalty
              [{| tr_score := Some 90; tr_is_qualified := Some 1%Z;
                  tr_is_disqualified := Some 0%Z;
                  tr_training_date := "2026-10-02" |}]
              30 None STANDARD_CONFIG)
    as (r & Hr & Hc & _ & _ & Hcol & _); [done|by vm_compute|by vm_compute| |].
  - intros rule Hin. cbn in Hin.
    repeat (apply elem_of_cons in Hin as [->|Hin]; [by vm_compute|]).
    by apply elem_of_nil in Hin.
  - exists r. split; [exact Hr|]. split; [exact Hc|exact Hcol].
Defined.

(** Property X7.  When every coefficient of the penalty rules lies in [0, 1]
    and every recorded score lies in [0, 100], the penalty of the training
    calculator never raises a score: the coefficient applied is in [0, 1] and
    0 <= radar_score <= original_score <= 100. *)
Theorem training_penalty_never_raises records duration_days cert_years config r :
  let rules := penalty_rules (training config) in
  records ≠ [] →
  0 <= at_coefficient (absolute_threshold rules) <= 1 →
  0 <= ss_coefficient (small_sample rules) <= 1 →
  (∀ rule, rule ∈ all_afr_rules rules → 0 <= afr_coefficient rule <= 1) →
  Forall (λ record, ∀ s, tr_score record = Some s → 0 <= s <= 100) records →
  calculate_training_score_with_penalty records duration_days cert_years config
    = Ok r →
  0 <= penalty_coefficient r <= 1 ∧
  0 <= radar_score r ∧ radar_score r <= original_score r ∧
  original_score r <= 100.
Proof.
  intros rules Hne Hat Hss Hafr Hscores Hr.
  apply training_result_inv in Hr
    as (penalty & total & Hsel & Hmean & -> & -> & -> & _); [|exact Hne].
  assert (0 <= coeff penalty <= 1) as Hcoeff.
  { apply select_penalty_coeff in Hsel as [->|[->|[(rule & Hin & ->)| ->]]];
      [done|done|by apply Hafr|]. split; [by compute|by compute]. }
  set (scores := map (λ record, default 0 (tr_score record)) records) in *.
  assert (0 < inject_Z (Z.of_nat (length records))) as Hn.
  { change 0 with (inject_Z 0). rewrite <- Zlt_Qlt.
    destruct records; [done|simpl length; lia]. }
  assert (Forall (λ x, 0 <= x ∧ x <= 100) scores) as Hall.
  { unfold scores. apply List.Forall_map. eapply Forall_impl; [exact Hscores|].
    intros record Hrec. cbv beta in *.
    destruct (tr_score record) as [s|]; cbn [default].
    - exact (Hrec s eq_refl).
    - split; [apply Qle_refl|by compute]. }
  assert (0 <= total / inject_Z (Z.of_nat (length records)) <= 100) as Hbase.
  { rewrite Hmean. 
    pose proof (Qsum_nonneg_bound 0 scores) as Hlo.
    pose proof (Qsum_upper_bound 100 scores) as Hhi.
    assert (length scores = length records) as Hlen
      by (unfold scores; apply length_map).
    rewrite Hlen in Hlo, Hhi. split.
    - apply Qle_shift_div_l; [done|]. rewrite Qmult_0_l.
      eapply Qle_trans; [|apply Hlo; eapply Forall_impl; [exact Hall|]; by intros ? []].
      lra.
    - apply Qle_shift_div_r; [done|].
      apply Hhi. eapply Forall_impl; [exact Hall|]. by intros ? []. }
  set (base := total / inject_Z (Z.of_nat (length records))) in *.
  split; [exact Hcoeff|]. split_and!.
  - apply py_round_nonneg. apply Qmult_le_0_compat; tauto.
  - apply py_round_mono.
    assert (0 <= base * (1 - coeff penalty)).
    { apply Qmult_le_0_compat; lra. }
    lra.
  - apply py_round_le_100. tauto.
Qed.

Lemma training_penalty_never_raises_witness :
  ∃ r, calculate_training_score_with_penalty
         [failed_record; failed_record; failed_record] 30 None STANDARD_CONFIG
       = Ok r ∧
       radar_score r <= original_score r ∧ original_score r <= 100.
Proof.
  assert (∃ r, calculate_training_score_with_penalty
                 [failed_record; failed_record; failed_record] 30 None
                 STANDARD_CONFIG = Ok r) as [r Hr]
    by (eexists; vm_compute; reflexivity).
  exists r. split; [exact Hr|].
  destruct (training_penalty_never_raises
              [failed_record; failed_record; failed_record] 30 None
              STANDARD_CONFIG r) as (_ & _ & H1 & H2);
    [done|split; vm_compute; discriminate|split; vm_compute; discriminate| |
     |exact Hr|by split].
  - intros rule Hin. cbn in Hin.
    repeat (apply elem_of_cons in Hin as [->|Hin];
            [split; vm_compute; discriminate|]).
    by apply elem_of_nil in Hin.
  - repeat (apply List.Forall_cons;
            [intros s [= <-]; split; vm_compute; discriminate|]).
    apply List.Forall_nil.
Defined.

(** ** Performance, single period: the grade's range *)

Lemma clamp_to_range_bounds raw_score range :
  clamp_to_range raw_score range <= range_max range ∧
  (range_min range <= range_max range →
   range_min range <= clamp_to_range raw_score range) ∧
  (range_min range <= raw_score <= range_max range →
   clamp_to_range raw_score range == raw_score).
Proof.
  unfold clamp_to_range. split_and!.
  - apply Q.le_min_r.
  - intros H. apply Q.min_glb; [apply Q.le_max_r|done].
  - intros [H1 H2]. rewrite Q.max_l by done. by rewrite Q.min_l.
Qed.

(** Property X8.  For a grade other than D the monthly radar value is the raw
    score clamped to the range of the grade (that of B+ for an unknown grade)
    and rounded: it never exceeds the rounded upper bound, never falls below
    the rounded lower bound of a well-formed range, keeps a raw score that
    lies in the range, and the status is never RED. *)
Theorem monthly_radar_within_range grade raw_score config r :
  normalize_grade grade ≠ "D"%string →
  calculate_performance_score_monthly grade raw_score config = Ok r →
  let range := range_of_grade (grade_ranges (performance config))
                 (normalize_grade grade) in
  m_radar_value r = py_round (clamp_to_range raw_score range) 1 ∧
  m_radar_value r <= py_round (range_max range) 1 ∧
  (range_min range <= range_max range →
   py_round (range_min range) 1 <= m_radar_value r) ∧
  (range_min range <= raw_score <= range_max range →
   m_radar_value r == py_round raw_score 1) ∧
  m_status_color r ≠ RED.
Proof.
  intros HD. unfold calculate_performance_score_monthly, range_of_grade.
  cbv zeta. apply String.eqb_neq in HD. rewrite HD.
  unfold coefficient_of, mbind, result_bind.
  assert (∀ range c t l,
            Ok {| m_radar_value := py_round (clamp_to_range raw_score range) 1;
                  m_display_label := l; m_status_color := c; m_alert_tag := t;
                  m_grade := normalize_grade grade; m_mode := "MONTHLY" |} = Ok r →
            c ≠ RED →
            m_radar_value r = py_round (clamp_to_range raw_score range) 1 ∧
            m_radar_value r <= py_round (range_max range) 1 ∧
            (range_min range <= range_max range →
             py_round (range_min range) 1 <= m_radar_value r) ∧
            (range_min range <= raw_score <= range_max range →
             m_radar_value r == py_round raw_score 1) ∧
            m_status_color r ≠ RED) as Hcase.
  { intros range c t l [= <-] Hc. cbn.
    destruct (clamp_to_range_bounds raw_score range) as (Hmax & Hmin & Hin).
    split_and!; [done|by apply py_round_mono| |  |done].
    - intros H. by apply py_round_mono, Hmin.
    - intros H. by apply py_round_comp, Hin. }
  destruct (String.eqb (normalize_grade grade) "C") eqn:EC.
  { destruct (_ !! _); [|discriminate]. intros H. by eapply Hcase. }
  destruct (String.eqb (normalize_grade grade) "B") eqn:EB.
  { destruct (_ !! _); [|discriminate]. intros H. by eapply Hcase. }
  destruct (String.eqb (normalize_grade grade) "B+") eqn:EBp.
  { destruct (_ !! _); [|discriminate]. intros H.
    destruct (String.eqb (normalize_grade grade) "A") eqn:EA.
    { apply String.eqb_eq in EBp, EA. congruence. }
    by eapply Hcase. }
  destruct (String.eqb (normalize_grade grade) "A") eqn:EA.
  { destruct (_ !! _); [|discriminate]. intros H. by eapply Hcase. }
  destruct (_ !! _); [|discriminate]. intros H. by eapply Hcase.
Qed.

Lemma monthly_radar_within_range_witness :
  ∃ r, calculate_performance_score_monthly "c" 50 STANDARD_CONFIG = Ok r ∧
       m_radar_value r == 80 ∧ m_status_color r ≠ RED.
Proof.
  assert (∃ r, calculate_performance_score_monthly "c" 50 STANDARD_CONFIG = Ok r)
    as [r Hr] by (eexists; vm_compute; reflexivity).
  exists r. split; [exact Hr|].
  destruct (monthly_radar_within_range "c" 50 STANDARD_CONFIG r)
    as (Hvalue & _ & _ & _ & Hcolor); [vm_compute; discriminate|exact Hr|].
  split; [|exact Hcolor]. rewrite Hvalue. vm_compute. reflexivity.
Defined.

(** ** Performance, several periods: contamination and bounds *)

Section PeriodMore.

Variable strptime_ym : string → option (Z * Z).
Variable now_year now_month : Z.
Variable config : AlgorithmConfig.

Lemma period_result_final grades dates r :
  grades ≠ [] →
  calculate_performance_score_period strptime_ym now_year now_month grades dates
    config = Ok r →
  ∃ locals,
    period_locals strptime_ym now_year now_month grades dates config = Ok locals ∧
    p_radar_value r = py_round (fst (fst (period_final locals config))) 1 ∧
    p_status_color r = snd (fst (period_final locals config)) ∧
    p_alert_tag r = snd (period_final locals config).
Proof.
  intros Hne. unfold calculate_performance_score_period.
  destruct grades as [|g grades]; [done|].
  unfold mbind, result_bind.
  destruct (period_locals _ _ _ _ _ _) as [locals|e]; [|discriminate].
  destruct (period_final locals config) as [[final c] t] eqn:E.
  intros [= <-]. exists locals. rewrite E. split_and!; reflexivity.
Qed.

Lemma period_returns grades dates :
  ∃ r, calculate_performance_score_period strptime_ym now_year now_month grades
         dates config = Ok r.
Proof.
  destruct grades as [|g grades]; [by eexists|].
  destruct (period_locals_summary strptime_ym now_year now_month config
              (g :: grades) dates) as (locals & Hl & _); [done|].
  destruct (period_result strptime_ym now_year now_month config
              (g :: grades) dates locals) as (r & Hr & _); [done|done|].
  by exists r.
Qed.

(** Property X9.  When the effective number of D months reaches
    [d_count_threshold], the period result is RED and its radar value is the
    base score (the mean coefficient times 95) capped at [d_cap_score],
    however many C months there are. *)
Theorem period_D_contamination grades dates :
  let rules := contamination_rules (performance config) in
  grades ≠ [] →
  d_count_threshold rules
    <= Qsum (map (grade_weight strptime_ym now_year now_month config "D")
                 (counted_months config grades dates)) →
  ∃ r, calculate_performance_score_period strptime_ym now_year now_month grades
         dates config = Ok r ∧
       p_status_color r = RED ∧
       p_radar_value r
         == py_round (Qmin (mean (map (month_coefficient config) grades) * 95)
                           (d_cap_score rules)) 1 ∧
       p_radar_value r <= py_round (d_cap_score rules) 1.
Proof.
  intros rules Hne HD.
  destruct (period_returns grades dates) as [r Hr]. exists r.
  split; [exact Hr|].
  apply period_result_final in Hr as (locals & Hl & -> & -> & _); [|exact Hne].
  destruct (period_locals_summary strptime_ym now_year now_month config
              grades dates Hne) as (locals' & Hl' & _ & _ & _ & Hbase & Hd & _).
  rewrite Hl in Hl'. injection Hl' as <-.
  unfold period_final. cbv zeta. fold rules.
  rewrite <- Hd in HD. apply Qle_bool_iff in HD. rewrite HD. cbn [fst snd].
  rewrite Hbase. split_and!.
  - reflexivity.
  - reflexivity.
  - apply py_round_mono, Q.le_min_r.
Qed.

(** Property X10.  When no grade coefficient is negative and both caps lie in
    [0, 110], the radar value of the period calculator lies in [0, 110]. *)
Theorem period_radar_bounds grades dates r :
  let rules := contamination_rules (performance config) in
  (∀ grade, 0 <= month_coefficient config grade) →
  0 <= d_cap_score rules <= 110 →
  0 <= c_cap_score rules <= 110 →
  calculate_performance_score_period strptime_ym now_year now_month grades dates
    config = Ok r →
  0 <= p_radar_value r <= 110.
Proof.
  intros rules Hcoeff Hd Hc.
  destruct grades as [|g grades].
  { intros [= <-]. cbn. split; by compute. }
  intros Hr.
  apply period_result_final in Hr as (locals & Hl & -> & _); [|done].
  destruct (period_locals_summary strptime_ym now_year now_month config
              (g :: grades) dates) as (locals' & Hl' & _ & _ & _ & Hbase & _);
    [done|].
  rewrite Hl in Hl'. injection Hl' as <-.
  assert (0 <= base_score locals) as Hb.
  { rewrite Hbase. unfold mean. rewrite py_sum_Qsum.
    apply Qmult_le_0_compat; [|by compute].
    apply Qle_shift_div_l.
    - rewrite length_map. change 0 with (inject_Z 0). rewrite <- Zlt_Qlt.
      simpl length. lia.
    - rewrite Qmult_0_l.
      pose proof (Qsum_nonneg_bound 0 (map (month_coefficient config) (g :: grades)))
        as H.
      eapply Qle_trans; [|apply H].
      + lra.
      + apply List.Forall_map, Forall_forall. intros grade _. apply Hcoeff. }
  assert (0 <= fst (fst (period_final locals config)) <= 110) as [H0 H110].
  { unfold period_final. cbv zeta. fold rules.
    repeat match goal with
           | |- context [if ?b then _ else _] => destruct b
           end; cbn [fst snd];
      (split; [apply Q.min_glb; lra|]);
      (eapply Qle_trans; [apply Q.le_min_r|]; lra). }
  split.
  - by apply py_round_nonneg.
  - assert (py_round 110 1 == 110) as <- by reflexivity.
    by apply py_round_mono.
Qed.

End PeriodMore.

Lemma period_radar_bounds_witness :
  ∃ r, calculate_performance_score_period sample_strptime_ym 2026 11
         ["A"; "A"; "A"]%string None STANDARD_CONFIG = Ok r ∧
       0 <= p_radar_value r <= 110.
Proof.
  assert (∃ r, calculate_performance_score_period sample_strptime_ym 2026 11
                 ["A"; "A"; "A"]%string None STANDARD_CONFIG = Ok r)
    as [r Hr] by (eexists; vm_compute; reflexivity).
  exists r. split; [exact Hr|].
  apply (period_radar_bounds sample_strptime_ym 2026 11 STANDARD_CONFIG
           ["A"; "A"; "A"]%string None r);
    [|split; vm_compute; discriminate|split; vm_compute; discriminate|exact Hr].
  apply standard_coefficients_nonneg.
Defined.

Lemma period_D_contamination_witness :
  ∃ r, calculate_performance_score_period sample_strptime_ym 2026 11
         ["A"; "D"; "A"]%string None STANDARD_CONFIG = Ok r ∧
       p_status_color r = RED ∧ p_radar_value r <= 90.
Proof.
  destruct (period_D_contamination sample_strptime_ym 2026 11 STANDARD_CONFIG
              ["A"; "D"; "A"]%string None)
    as (r & Hr & Hc & _ & Hcap); [done|vm_compute; discriminate|].
  exists r. split; [exact Hr|]. split; [exact Hc|].
  eapply Qle_trans; [exact Hcap|]. vm_compute. discriminate.
Defined.

(** ** Stability: the score never exceeds 100 *)

Lemma capped_ramp_le_100 years cap score :
  capped_ramp years cap = Ok score → score <= 100.
Proof.
  unfold capped_ramp, py_truediv, mbind, result_bind.
  destruct (Qeq_bool cap 0); [discriminate|]. intros [= <-]. apply Q.le_min_l.
Qed.

Lemma volatility_score_le_100 penalty coefficient score :
  0 <= max_penalty penalty →
  volatility_score_of penalty coefficient = Ok score → score <= 100.
Proof.
  intros Hmax. unfold volatility_score_of. cbv zeta.
  destruct (Qle_bool coefficient _) eqn:Elow; [intros [= <-]; lra|].
  destruct (Qle_bool _ coefficient) eqn:Ehigh; [intros [= <-]; lra|].
  apply Qle_bool_gt in Elow, Ehigh.
  rewrite py_truediv_ok by lra. unfold mbind, result_bind. intros [= <-].
  assert (0 <= (coefficient - low_threshold penalty)
               / (high_threshold penalty - low_threshold penalty)) as Hratio.
  { apply Qle_shift_div_l; lra. }
  pose proof (Qmult_le_0_compat _ _ Hmax Hratio). lra.
Qed.

Lemma weighted_le_100 score weight : score <= 100 → 0 <= weight →
  score * weight <= 100 * weight.
Proof. intros. by apply Qmult_le_compat_r. Qed.

Lemma stability_locals_le_100 days_since np_std
    birth_date work_start_date entry_date certification_date solo_driving_date
    historical_scores config locals :
  normalized_stability (default default_stability_config (stability config)) →
  stability_locals days_since np_std birth_date work_start_date entry_date
    certification_date solo_driving_date historical_scores config = Ok locals →
  sl_seniority_score locals <= 100 ∧ sl_volatility_score locals <= 100 ∧
  sl_final_score locals <= 100.
Proof.
  intros (Ha & Hw & Hc & Hce & Hs & Hsum & Hds & Hdv & Hdsum & Hmax).
  unfold stability_locals. cbv zeta.
  set (sc := default default_stability_config (stability config)) in *.
  unfold mbind, result_bind.
  destruct (capped_ramp _ (age_cap _)) as [s1|] eqn:E1; [|discriminate].
  destruct (capped_ramp _ (working_cap _)) as [s2|] eqn:E2; [|discriminate].
  destruct (capped_ramp _ (company_cap _)) as [s3|] eqn:E3; [|discriminate].
  destruct (capped_ramp _ (cert_cap _)) as [s4|] eqn:E4; [|discriminate].
  destruct (capped_ramp _ (solo_cap _)) as [s5|] eqn:E5; [|discriminate].
  apply capped_ramp_le_100 in E1, E2, E3, E4, E5.
  pose proof (weighted_le_100 _ _ E1 Ha). pose proof (weighted_le_100 _ _ E2 Hw).
  pose proof (weighted_le_100 _ _ E3 Hc). pose proof (weighted_le_100 _ _ E4 Hce).
  pose proof (weighted_le_100 _ _ E5 Hs).
  set (seniority := s1 * _ + _ + _ + _ + _) in *.
  assert (seniority <= 100) as Hsen by (unfold seniority; lra).
  assert (∀ vol : result (Q * Q),
            (∀ v c, vol = Ok (v, c) → v <= 100) →
            match vol with
            | Ok (volatility_score, volatility_coefficient) =>
                Ok {| sl_metrics := {|
                        age_years := years_since days_since birth_date;
                        working_years := years_since days_since work_start_date;
                        company_years := years_since days_since entry_date;
                        cert_years := years_since days_since certification_date;
                        solo_years := years_since days_since solo_driving_date;
                        volatility := volatility_coefficient |};
                      sl_seniority_score := seniority;
                      sl_volatility_score := volatility_score;
                      sl_final_score :=
                        seniority * dw_seniority (dimension_weights sc) +
                        volatility_score * dw_volatility (dimension_weights sc) |}
            | Raise e => Raise e
            end = Ok locals →
            sl_seniority_score locals <= 100 ∧ sl_volatility_score locals <= 100 ∧
            sl_final_score locals <= 100) as Hend.
  { intros [[v c]|e] Hv; [|discriminate]. intros [= <-]. cbn.
    specialize (Hv v c eq_refl).
    pose proof (weighted_le_100 _ _ Hsen Hds).
    pose proof (weighted_le_100 _ _ Hv Hdv). split_and!; [done|done|lra]. }
  apply Hend. intros v c.
  destruct (has_history historical_scores); [|intros [= <- _]; lra].
  destruct (std_devs_of _ _) as [|d ds]; [intros [= <- _]; lra|].
  destruct (volatility_score_of _ _) as [score|] eqn:Ev; [|discriminate].
  intros [= <- _]. by eapply volatility_score_le_100.
Qed.

Lemma default_stability_normalized :
  normalized_stability default_stability_config.
Proof. unfold normalized_stability. cbn. split_and!; by compute. Qed.

(** Property X12.  When the seniority weights and the two dimension weights
    are non-negative and sum to at most 1 each, and [max_penalty] is not
    negative, the stability score and its two components never exceed 100,
    whatever the dates, the history and the standard deviations. *)
Theorem stability_score_at_most_100 days_since np_std
    birth_date work_start_date entry_date certification_date solo_driving_date
    historical_scores config r :
  normalized_stability (default default_stability_config (stability config)) →
  calculate_stability_score days_since np_std birth_date work_start_date
    entry_date certification_date solo_driving_date historical_scores config
    = Ok r →
  stability_score r <= 100 ∧ seniority_score r <= 100 ∧
  volatility_score r <= 100.
Proof.
  intros Hnorm. unfold calculate_stability_score, mbind, result_bind.
  destruct (stability_locals _ _ _ _ _ _ _ _ _) as [locals|] eqn:Hl;
    [|discriminate].
  apply stability_locals_le_100 in Hl as (Hs & Hv & Hf); [|exact Hnorm].
  cbv zeta. destruct (stability_grade _) as [c t] eqn:Eg. intros [= <-]. cbn.
  split_and!; by apply py_round_le_100.
Qed.

Lemma stability_score_at_most_100_witness :
  ∃ r, calculate_stability_score (λ _, Some 3653%Z) (λ _, 0)
         (Some "1996-01-01"%string) None (Some "2016-01-01"%string)
         (Some "2016-01-01"%string) (Some "2016-01-01"%string) None
         STANDARD_CONFIG = Ok r ∧
       stability_score r <= 100.
Proof.
  assert (∃ r, calculate_stability_score (λ _, Some 3653%Z) (λ _, 0)
                 (Some "1996-01-01"%string) None (Some "2016-01-01"%string)
                 (Some "2016-01-01"%string) (Some "2016-01-01"%string) None
                 STANDARD_CONFIG = Ok r) as [r Hr]
    by (eexists; vm_compute; reflexivity).
  exists r. split; [exact Hr|].
  destruct (stability_score_at_most_100 _ _ _ _ _ _ _ _ STANDARD_CONFIG r
              default_stability_normalized Hr) as [H _].
  exact H.
Defined.

(** ** Configuration validation: what an accepted document guarantees *)

Lemma out_of_range_false v lo hi :
  out_of_range v lo hi = false → number_within v lo hi.
Proof.
  unfold out_of_range, number_within. destruct (as_number v) as [q|]; [|done].
  intros H. apply orb_false_elim in H as [H1 H2].
  apply Qltb_ge in H1, H2. by exists q.
Qed.

Lemma number_within_not_outside v lo hi :
  number_within v lo hi → number_not_outside v lo hi.
Proof.
  intros (q & Hq & Hlo & Hhi). exists q.
  split; [done|]. split; by apply Qle_not_lt.
Qed.

(** Property X13.  [validate_config] rejects every document that is not a JSON
    object (null, a boolean, a number, a string, even one that contains the
    section names, or a list), without raising. *)
Theorem validate_config_not_object config_data :
  (∀ m, config_data ≠ JObj m) → fst (validate_config config_data) = false.
Proof.
  intros Hobj.
  destruct (fst (validate_config config_data)) eqn:E; [|done].
  apply validate_config_accepts in E as (_ & Hperf & _).
  unfold validate_performance in Hperf.
  destruct config_data; try discriminate Hperf. by destruct (Hobj m).
Qed.

Lemma validate_config_not_object_witness :
  fst (validate_config
         (JStr "performance safety training comprehensive key_personnel"))
  = false.
Proof. by apply validate_config_not_object. Defined.

Lemma bind_lift_continue {A B} (r : result A) (k : A → flow B) b :
  (lift r ≫= k) = Continue b → ∃ a, r = Ok a ∧ k a = Continue b.
Proof. destruct r as [a|e]; [|discriminate]. intros H. by exists a. Qed.

Lemma bind_require_continue {B} cond msg (k : unit → flow B) b :
  (require cond msg ≫= k) = Continue b → cond = true ∧ k tt = Continue b.
Proof. destruct cond; [|discriminate]. intros H. by split. Qed.

Lemma require_continue cond msg : require cond msg = Continue tt → cond = true.
Proof. by destruct cond. Qed.

Ltac flow_step H :=
  first
    [ let a := fresh "v" in
      let E := fresh "E" in
      apply bind_lift_continue in H as (a & E & H)
    | let E := fresh "E" in
      apply bind_require_continue in H as (E & H) ].

Ltac flow_inv H := repeat flow_step H.

Lemma check_grades_continue grades perf :
  check_grades grades perf = Continue tt →
  ∀ grade, grade ∈ grades →
    ∃ coefficients v,
      py_getitem perf "grade_coefficients" = Ok coefficients ∧
      py_getitem coefficients grade = Ok v ∧
      number_within v 0 2.
Proof.
  induction grades as [|first rest IH]; cbn [check_grades]; intros H grade Hin.
  - by apply elem_of_nil in Hin.
  - flow_inv H.
    apply elem_of_cons in Hin as [->|Hin]; [|by apply IH].
    match goal with
    | Hv : py_getitem ?cs first = Ok ?x,
      Hr : negb (out_of_range ?x 0 2) = true |- _ =>
        exists cs, x; split_and!; [done|done|];
        apply out_of_range_false; by apply negb_true_iff
    end.
Qed.

(** Property X14.  In a document that [validate_config] accepts, the
    coefficient of each of the five grades is present and is a number that is
    neither below 0 nor above 2, and [key_personnel.comprehensive_threshold]
    is present and is a number that is neither below 0 nor above 100; when
    such a number is an integer it lies in the range.  The two comparisons
    are those of the code, which a float NaN passes as well. *)
Theorem validate_config_required_ranges config_data :
  fst (validate_config config_data) = true →
  (∀ grade, grade ∈ ["D"; "C"; "B"; "B+"; "A"]%string →
     ∃ v, py_path config_data ["performance"; "grade_coefficients"; grade]%string
            = Ok v ∧
          number_not_outside v 0 2 ∧
          (is_int v = true → number_within v 0 2)) ∧
  (∃ v, py_path config_data ["key_personnel"; "comprehensive_threshold"]%string
          = Ok v ∧
        number_not_outside v 0 100 ∧
        (is_int v = true → number_within v 0 100)).
Proof.
  intros H. apply validate_config_accepts in H as (_ & Hperf & _ & _ & _ & Hkey).
  split.
  - intros grade Hin. unfold validate_performance in Hperf.
    do 3 flow_step Hperf.
    destruct (check_grades_continue _ _ Hperf grade Hin)
      as (coefficients & c & Hcs & Hc & Hrange).
    exists c. split; [|split; [by apply number_within_not_outside|done]].
    unfold py_path. cbn [foldl].
    unfold mbind, result_bind.
    match goal with
    | Hp : py_getitem config_data "performance" = Ok _ |- _ => rewrite Hp
    end. by rewrite Hcs.
  - unfold validate_key_personnel in Hkey. flow_inv Hkey.
    apply require_continue, negb_true_iff, out_of_range_false in Hkey.
    match goal with
    | Hk : py_getitem config_data "key_personnel" = Ok ?kp,
      Ht : py_getitem ?kp "comprehensive_threshold" = Ok ?t |- _ =>
        exists t; split; [|split; [by apply number_within_not_outside|done]];
        unfold py_path; cbn [foldl];
        unfold mbind, result_bind; by rewrite Hk
    end.
Qed.

Lemma validate_config_required_ranges_witness :
  ∃ v, py_path (config_json STANDARD_CONFIG)
         ["key_personnel"; "comprehensive_threshold"]%string = Ok v ∧
       number_not_outside v 0 100 ∧
       (is_int v = true → number_within v 0 100).
Proof.
  apply (validate_config_required_ranges (config_json STANDARD_CONFIG)).
  vm_compute. reflexivity.
Defined.

(** Property X15.  In a document that [validate_config] accepts,
    [safety.severity_track.critical_threshold], when present, is a number
    that is neither below 1 nor above 50 (in the range when it is an
    integer; the two comparisons are those of the code, which a float NaN
    passes as well), and [training.penalty_rules.absolute_threshold.fail_count],
    when present, is an integer in [1, 10]. *)
Theorem validate_config_optional_ranges config_data :
  fst (validate_config config_data) = true →
  (∀ v, py_path config_data ["safety"; "severity_track"; "critical_threshold"]%string
          = Ok v →
        number_not_outside v 1 50 ∧
        (is_int v = true → number_within v 1 50)) ∧
  (∀ v, py_path config_data
          ["training"; "penalty_rules"; "absolute_threshold"; "fail_count"]%string
          = Ok v →
        is_int v = true ∧ number_within v 1 10).
Proof.
  intros H. apply validate_config_accepts in H as (_ & _ & Hsafe & Htrain & _).
  split.
  - intros v. unfold py_path. cbn [foldl]. unfold mbind, result_bind.
    destruct (py_getitem config_data "safety") as [safety|] eqn:E1; [|discriminate].
    destruct (py_getitem safety "severity_track") as [track|] eqn:E2; [|discriminate].
    intros E3.
    unfold validate_safety in Hsafe. rewrite E1 in Hsafe.
    cbn [lift mbind flow_bind] in Hsafe.
    destruct safety as [| | | | |?|safety]; try discriminate E2.
    destruct track as [| | | | |?|track]; try discriminate E3.
    cbn [py_in py_getitem lift mbind flow_bind] in *.
    destruct (safety !! "severity_track"%string) as [t|]; [|discriminate E2].
    injection E2 as ->. cbn [py_in py_getitem lift mbind flow_bind] in Hsafe.
    destruct (track !! "critical_threshold"%string) as [t|]; [|discriminate E3].
    injection E3 as ->. cbn [lift mbind flow_bind] in Hsafe.
    apply require_continue, negb_true_iff, out_of_range_false in Hsafe.
    split; [by apply number_within_not_outside|done].
  - intros v. unfold py_path. cbn [foldl]. unfold mbind, result_bind.
    destruct (py_getitem config_data "training") as [training|] eqn:E1;
      [|discriminate].
    destruct (py_getitem training "penalty_rules") as [rules|] eqn:E2;
      [|discriminate].
    destruct (py_getitem rules "absolute_threshold") as [absolute|] eqn:E3;
      [|discriminate].
    intros E4.
    unfold validate_training in Htrain. rewrite E1 in Htrain.
    cbn [lift mbind flow_bind] in Htrain.
    destruct training as [| | | | |?|training]; try discriminate E2.
    destruct rules as [| | | | |?|rules]; try discriminate E3.
    destruct absolute as [| | | | |?|absolute]; try discriminate E4.
    cbn [py_in py_getitem py_get lift mbind flow_bind] in *.
    destruct (training !! "penalty_rules"%string) as [t|]; [|discriminate E2].
    injection E2 as ->. cbn [py_in py_getitem lift mbind flow_bind] in Htrain.
    destruct (rules !! "absolute_threshold"%string) as [t|]; [|discriminate E3].
    injection E3 as ->. cbn [py_get lift mbind flow_bind] in Htrain.
    destruct (absolute !! "fail_count"%string) as [t|]; [|discriminate E4].
    injection E4 as ->. cbn [default] in Htrain.
    apply require_continue, andb_true_iff in Htrain as [Hint Hrange].
    split; [done|]. by apply negb_true_iff, out_of_range_false in Hrange.
Qed.

Lemma validate_config_optional_ranges_witness :
  number_not_outside (JFloat 12) 1 50.
Proof.
  destruct (validate_config_optional_ranges (config_json STANDARD_CONFIG))
    as [Hthreshold _]; [vm_compute; reflexivity|].
  apply (Hthreshold (JFloat 12)). vm_compute. reflexivity.
Defined.

(** ** The store: writes are all or nothing, reads are current *)

Lemma preset_transaction_ok preset_row preset_key id reason username ip_address
    now d :
  references_user d (Some id) = true →
  preset_transaction preset_row preset_key (Some id) reason username ip_address
    now d
  = Ok {| algorithm_active_config :=
            Some {| based_on_preset := Some preset_key; is_customized := false;
                    row_config_data := preset_row_config_data preset_row;
                    updated_by := Some id; updated_at := now |};
          algorithm_config_logs :=
            algorithm_config_logs d ++
            [{| action := "APPLY_PRESET";
                preset_name := Some (preset_row_name preset_row);
                old_config := row_config_data <$> algorithm_active_config d;
                new_config := Some (preset_row_config_data preset_row);
                change_reason := reason; changed_by := id;
                changed_by_name := log_username username (Some id) d;
                ip_address := ip_address |}];
          users := users d; foreign_keys := foreign_keys d |}.
Proof.
  intros Href. unfold preset_transaction.
  rewrite replace_active_config_ok by exact Href.
  unfold mbind, result_bind, insert_config_log.
  change (references_user _ (Some id)) with (references_user d (Some id)).
  rewrite Href. by destruct (algorithm_active_config d).
Qed.

Lemma preset_transaction_fails preset_row preset_key user_id reason username
    ip_address now d :
  (∀ id, user_id = Some id → references_user d user_id = false) →
  ∃ e, preset_transaction preset_row preset_key user_id reason username
         ip_address now d = Raise e.
Proof.
  intros Href. unfold preset_transaction, replace_active_config.
  cbn [updated_by]. destruct user_id as [id|].
  - rewrite (Href id eq_refl). by eexists.
  - cbn. by eexists.
Qed.

(** Property X16.  An accepted configuration written by a user that the log
    row may reference is installed: the active row holds the new document,
    marked customized and detached from any preset ([get_current_info] reports
    it); the log grows by exactly one CUSTOM_UPDATE entry that records the
    former and the new document; the cache is cleared, so every later read
    returns the new document. *)
Theorem update_custom_config_success config_data id reason username ip_address
    now s :
  fst (validate_config config_data) = true →
  references_user (db s) (Some id) = true →
  ∃ s' entry,
    update_custom_config config_data (Some id) reason username ip_address now s
      = ((true, UpdateSucceeded), s') ∧
    algorithm_active_config (db s')
      = Some {| based_on_preset := None; is_customized := true;
                row_config_data := config_data; updated_by := Some id;
                updated_at := now |} ∧
    algorithm_config_logs (db s') = algorithm_config_logs (db s) ++ [entry] ∧
    action entry = "CUSTOM_UPDATE"%string ∧
    old_config entry = row_config_data <$> algorithm_active_config (db s) ∧
    new_config entry = Some config_data ∧
    changed_by entry = id ∧
    _cache s' = None ∧
    get_current_info s'
      = {| info_based_on_preset := None; info_is_customized := true;
           info_updated_at := Some now |} ∧
    ∀ t, fst (get_active_config t s') = Ok config_data.
Proof.
  intros Hvalid Href. unfold update_custom_config.
  destruct (validate_config config_data) as [is_valid msg].
  cbn [fst] in Hvalid. subst is_valid. cbn [negb].
  rewrite update_transaction_ok by exact Href.
  eexists. eexists. split; [reflexivity|].
  unfold clear_cache, get_current_info. cbn [db _cache algorithm_active_config
    algorithm_config_logs action old_config new_config changed_by
    based_on_preset is_customized updated_at].
  split_and!; reflexivity.
Qed.

Lemma update_custom_config_success_witness :
  ∃ s', update_custom_config (config_json D_REWARDING_CONFIG) (Some 1%Z)
          "experiment" None None "2026-11-05 10:00:00" sample_service
        = ((true, UpdateSucceeded), s') ∧
        get_current_info s'
        = {| info_based_on_preset := None; info_is_customized := true;
             info_updated_at := Some "2026-11-05 10:00:00"%string |} ∧
        fst (get_active_config 101 s') = Ok (config_json D_REWARDING_CONFIG).
Proof.
  destruct (update_custom_config_success (config_json D_REWARDING_CONFIG) 1
              "experiment" None None "2026-11-05 10:00:00" sample_service)
    as (s' & entry & Hs & _ & _ & _ & _ & _ & _ & _ & Hinfo & Hread).
  - vm_compute. reflexivity.
  - vm_compute. reflexivity.
  - exists s'. split; [exact Hs|]. split; [exact Hinfo|apply Hread].
Defined.

(** Property X17.  [update_custom_config] is all or nothing: it succeeds
    exactly when the document is valid and the user can be referenced by the
    log row, and whenever it fails (rejection or rolled-back transaction) the
    store and the cache are exactly as before. *)
Theorem update_custom_config_all_or_nothing config_data user_id reason username
    ip_address now s :
  let outcome :=
    update_custom_config config_data user_id reason username ip_address now s in
  (fst (fst outcome) = true
   ↔ fst (validate_config config_data) = true
     ∧ ∃ id, user_id = Some id ∧ references_user (db s) (Some id) = true) ∧
  (fst (fst outcome) = false → snd outcome = s).
Proof.
  unfold update_custom_config.
  destruct (validate_config config_data) as [[|] msg]; cbn [negb fst snd].
  2: { split; [|done]. split; [done|]. by intros [? _]. }
  destruct user_id as [id|].
  - destruct (references_user (db s) (Some id)) eqn:Href.
    + rewrite update_transaction_ok by exact Href. cbn [fst snd].
      split; [|done]. split; [|done]. intros _. split; [done|]. by exists id.
    + rewrite update_transaction_fails by (by intros ? [= <-]).
      cbn [fst snd]. split; [|done]. split; [done|].
      intros (_ & id' & [= <-] & H). congruence.
  - rewrite update_transaction_fails by done.
    cbn [fst snd]. split; [|done]. split; [done|]. by intros (_ & ? & ? & _).
Qed.

(** Property X18.  [apply_preset] is all or nothing: it succeeds exactly when
    the preset key exists and the user can be referenced by the log row;
    whenever it fails the store and the cache are as before; an unknown key is
    reported as missing.  The preset document is not validated. *)
Theorem apply_preset_all_or_nothing presets preset_key user_id reason username
    ip_address now s :
  let outcome :=
    apply_preset presets preset_key user_id reason username ip_address now s in
  (fst (fst outcome) = true
   ↔ (∃ row, row ∈ presets ∧ preset_row_key row = preset_key)
     ∧ ∃ id, user_id = Some id ∧ references_user (db s) (Some id) = true) ∧
  (fst (fst outcome) = false → snd outcome = s) ∧
  ((∀ row, row ∈ presets → preset_row_key row ≠ preset_key) →
   fst outcome = (false, PresetMissing preset_key)).
Proof.
  unfold apply_preset, find_preset.
  destruct (List.find _ presets) as [row|] eqn:Hfind.
  2: { cbn [fst snd]. split_and!; [|done|done]. split; [done|].
       intros [(row & Hin & Hkey) _].
       apply list_elem_of_In in Hin. apply (find_none _ _ Hfind) in Hin.
       by apply String.eqb_neq in Hin. }
  apply find_some in Hfind as [Hin Hkey].
  apply list_elem_of_In in Hin. apply String.eqb_eq in Hkey.
  assert (∃ row, row ∈ presets ∧ preset_row_key row = preset_key) as Hex
    by (by exists row).
  destruct user_id as [id|].
  - destruct (references_user (db s) (Some id)) eqn:Href.
    + rewrite preset_transaction_ok by exact Href. cbn [fst snd].
      split_and!; [|done|].
      * split; [|done]. intros _. split; [done|]. by exists id.
      * intros Hnone. by destruct (Hnone row Hin).
    + destruct (preset_transaction_fails row preset_key (Some id) reason username
                  ip_address now (db s)) as [e ->].
      { by intros ? [= <-]. }
      cbn [fst snd]. split_and!; [|done|].
      * split; [done|]. intros (_ & id' & [= <-] & H). congruence.
      * intros Hnone. by destruct (Hnone row Hin).
  - destruct (preset_transaction_fails row preset_key None reason username
                ip_address now (db s)) as [e ->]; [done|].
    cbn [fst snd]. split_and!; [|done|].
    + split; [done|]. by intros (_ & ? & ? & _).
    + intros Hnone. by destruct (Hnone row Hin).
Qed.

(** Property X19.  Applying an existing preset for a user that can be
    referenced installs the preset document: [get_current_info] reports the
    preset key and not customized, the log grows by one APPLY_PRESET entry
    naming the preset with the former and the new document, the cache is
    cleared and every later read returns the preset document. *)
Theorem apply_preset_success presets preset_row id reason username ip_address
    now s :
  find_preset presets (preset_row_key preset_row) = Some preset_row →
  references_user (db s) (Some id) = true →
  ∃ s' entry,
    apply_preset presets (preset_row_key preset_row) (Some id) reason username
      ip_address now s
      = ((true, PresetApplied (preset_row_name preset_row)), s') ∧
    algorithm_config_logs (db s') = algorithm_config_logs (db s) ++ [entry] ∧
    action entry = "APPLY_PRESET"%string ∧
    preset_name entry = Some (preset_row_name preset_row) ∧
    old_config entry = row_config_data <$> algorithm_active_config (db s) ∧
    new_config entry = Some (preset_row_config_data preset_row) ∧
    _cache s' = None ∧
    get_current_info s'
      = {| info_based_on_preset := Some (preset_row_key preset_row);
           info_is_customized := false;
           info_updated_at := Some now |} ∧
    ∀ t, fst (get_active_config t s') = Ok (preset_row_config_data preset_row).
Proof.
  intros Hfind Href. unfold apply_preset. rewrite Hfind.
  rewrite preset_transaction_ok by exact Href.
  eexists. eexists. split; [reflexivity|].
  unfold clear_cache, get_current_info. cbn [db _cache algorithm_active_config
    algorithm_config_logs action old_config new_config changed_by preset_name
    based_on_preset is_customized updated_at].
  split_and!; reflexivity.
Qed.

Lemma apply_preset_success_witness :
  ∃ s', apply_preset seeded_presets "strict" (Some 1%Z) "tighten" None None
          "2026-11-05 10:00:00" sample_service
        = ((true, PresetApplied "严格"), s') ∧
        get_current_info s'
        = {| info_based_on_preset := Some "strict"%string;
             info_is_customized := false;
             info_updated_at := Some "2026-11-05 10:00:00"%string |} ∧
        fst (get_active_config 101 s') = Ok (config_json STRICT_CONFIG).
Proof.
  destruct (apply_preset_success seeded_presets
              {| preset_row_name := "严格"; preset_row_key := "strict";
                 preset_row_description := "更严格的惩罚力度，适用于高要求场景";
                 preset_row_config_data := config_json STRICT_CONFIG |}
              1 "tighten" None None "2026-11-05 10:00:00" sample_service)
    as (s' & entry & Hs & _ & _ & _ & _ & _ & _ & Hinfo & Hread).
  - reflexivity.
  - vm_compute. reflexivity.
  - exists s'. split; [exact Hs|]. split; [exact Hinfo|apply Hread].
Defined.

Lemma cache_coherent_cleared d :
  cache_coherent {| db := d; _cache := None; _cache_time := 0 |}.
Proof. intros cached. discriminate. Qed.

(** Property X20.  Cache coherence (the cache, when filled, holds the stored
    document) is an invariant of the service: it is preserved by
    [get_active_config], [update_custom_config] and [apply_preset]; under it
    every successful read returns the stored document. *)
Theorem cache_coherent_invariant s :
  cache_coherent s →
  (∀ t c, fst (get_active_config t s) = Ok c →
     row_config_data <$> algorithm_active_config (db s) = Some c) ∧
  (∀ t, cache_coherent (snd (get_active_config t s))) ∧
  (∀ config_data user_id reason username ip_address now,
     cache_coherent
       (snd (update_custom_config config_data user_id reason username
               ip_address now s))) ∧
  (∀ presets preset_key user_id reason username ip_address now,
     cache_coherent
       (snd (apply_preset presets preset_key user_id reason username ip_address
               now s))).
Proof.
  intros Hs. split_and!.
  - intros t c. unfold get_active_config.
    destruct (_cache s) as [cached|] eqn:Hc.
    + destruct (Qltb _ _).
      * cbn. intros [= <-]. by apply Hs.
      * destruct (algorithm_active_config (db s)); cbn; [|discriminate].
        by intros [= <-].
    + destruct (algorithm_active_config (db s)); cbn; [|discriminate].
      by intros [= <-].
  - intros t. unfold get_active_config.
    assert (∀ row, algorithm_active_config (db s) = Some row →
              cache_coherent {| db := db s; _cache := Some (row_config_data row);
                                _cache_time := t |}) as Hfill.
    { intros row Hrow cached. cbn. intros [= <-]. by rewrite Hrow. }
    destruct (_cache s) as [cached|] eqn:Hc.
    + destruct (Qltb _ _); [done|].
      destruct (algorithm_active_config (db s)) eqn:Hrow; cbn; [by apply Hfill|done].
    + destruct (algorithm_active_config (db s)) eqn:Hrow; cbn; [by apply Hfill|done].
  - intros config_data user_id reason username ip_address now.
    unfold update_custom_config.
    destruct (validate_config config_data) as [[|] msg]; cbn [negb]; [|done].
    destruct (update_transaction _ _ _ _ _ _ _); cbn [snd]; [|done].
    apply cache_coherent_cleared.
  - intros presets preset_key user_id reason username ip_address now.
    unfold apply_preset.
    destruct (find_preset _ _); [|done].
    destruct (preset_transaction _ _ _ _ _ _ _ _); cbn [snd]; [|done].
    apply cache_coherent_cleared.
Qed.

Lemma cache_coherent_invariant_witness :
  fst (get_active_config 101 sample_service) = Ok (config_json STANDARD_CONFIG) ∧
  row_config_data <$> algorithm_active_config (db sample_service)
  = Some (config_json STANDARD_CONFIG).
Proof.
  assert (fst (get_active_config 101 sample_service)
          = Ok (config_json STANDARD_CONFIG)) as Hread.
  { unfold get_active_config.
    change (_cache sample_service) with (Some (config_json STANDARD_CONFIG)).
    cbv beta iota.
    assert (Qltb (101 - _cache_time sample_service) cache_ttl = true) as ->
      by (vm_compute; reflexivity).
    reflexivity. }
  split; [exact Hread|].
  destruct (cache_coherent_invariant sample_service) as [Hcurrent _].
  - intros cached [= <-]. reflexivity.
  - exact (Hcurrent 101 _ Hread).
Defined.

Lemma py_round_ge_100 x : 100 <= x → 100 <= py_round x 1.
Proof.
  intros Hx. eapply Qle_trans; [|apply py_round_mono, Hx]. by vm_compute.
Qed.

(** ** Learning trend, month on month *)

(** Property X21.  The monthly learning score is never negative; a current
    score of at least 95 that dropped by at most 2 points gives a learning
    score of at least 100, GOLD, tier 高位企稳. *)
Theorem learning_monthly_floor score_curr score_prev :
  let r := calculate_learning_ability_monthly score_curr score_prev in
  0 <= ml_learning_score r ∧
  (95 <= score_curr → score_prev <= score_curr + 2 →
   100 <= ml_learning_score r ∧ ml_status_color r = GOLD ∧
   ml_tier r = "高位企稳"%string).
Proof.
  unfold calculate_learning_ability_monthly. cbv zeta.
  destruct (monthly_learning_case _ _ _) as [[[score tier] c] tag] eqn:E.
  cbn. split; [apply py_round_nonneg, Q.le_max_l|].
  intros Hhigh Hdelta. unfold monthly_learning_case in E.
  assert (Qle_bool 95 score_curr = true) as H1 by (by apply Qle_bool_iff).
  assert (Qle_bool (-2) (score_curr - score_prev) = true) as H2
    by (apply Qle_bool_iff; lra).
  rewrite H1, H2 in E. cbn [andb] in E. injection E as <- <- <- <-.
  split; [|done].
  apply py_round_ge_100. eapply Qle_trans; [apply Q.le_max_l|apply Q.le_max_r].
Qed.

(** Property X22.  When the previous score is the current one (what the
    callers pass in their fallback paths), the change is 0 and the
    result depends on the level only: from 95 the larger of 100 and the score,
    GOLD; from 70 up to 95 the score itself, GREEN; below 70 the score cut by
    20 percent, RED, tier 低位躺平. *)
Theorem learning_monthly_first_month score :
  let r := calculate_learning_ability_monthly score score in
  ml_delta r == 0 ∧
  (95 <= score →
   ml_learning_score r == py_round (Qmax 100 score) 1 ∧ ml_status_color r = GOLD) ∧
  (70 <= score → score < 95 →
   ml_learning_score r == py_round score 1 ∧ ml_status_color r = GREEN ∧
   ml_tier r = "稳健型"%string ∧ ml_alert_tag r = [Lit "✅ 状态正常"]) ∧
  (score < 70 →
   ml_learning_score r == py_round (Qmax 0 (score * 0.8)) 1 ∧
   ml_status_color r = RED ∧ ml_tier r = "低位躺平"%string).
Proof.
  unfold calculate_learning_ability_monthly. cbv zeta.
  assert (score - score == 0) as Hdelta by ring.
  assert (score + (score - score) * 1.5 == score) as Hbase by ring.
  destruct (monthly_learning_case _ _ _) as [[[s tier] c] tag] eqn:E.
  cbn. unfold monthly_learning_case in E.
  assert (Qle_bool (-2) (score - score) = true) as H2
    by (apply Qle_bool_iff; lra).
  assert (Qle_bool (score - score) 0 = true) as H0
    by (apply Qle_bool_iff; lra).
  assert (Qltb 10 (score - score) = false) as H10 by (apply Qltb_ge; lra).
  assert (Qltb (score - score) (-10) = false) as Hm10 by (apply Qltb_ge; lra).
  assert (Qltb 0 (score - score) = false) as Hpos by (apply Qltb_ge; lra).
  assert (Qltb (score - score) 0 = false) as Hneg by (apply Qltb_ge; lra).
  rewrite H2, H0, H10, Hm10, Hpos, Hneg in E. rewrite !andb_true_r in E.
  split_and!.
  - rewrite (py_round_comp _ 0 1 Hdelta). reflexivity.
  - intros H95. apply Qle_bool_iff in H95. rewrite H95 in E.
    injection E as <- <- <- <-. split; [|done].
    apply py_round_comp. rewrite Hbase.
    rewrite Q.max_r; [reflexivity|].
    eapply Qle_trans; [|apply Q.le_max_l]. by compute.
  - intros H70 H95. apply Qle_bool_gt in H95. apply Qltb_ge in H70.
    rewrite H95, H70 in E. injection E as <- <- <- <-.
    split_and!; try done. apply py_round_comp. rewrite Hbase.
    apply Qltb_ge in H70. apply Q.max_r. lra.
  - intros H70.
    assert (Qle_bool 95 score = false) as H95 by (apply Qle_bool_gt; lra).
    apply Qltb_lt in H70. rewrite H95, H70 in E. injection E as <- <- <- <-.
    split_and!; try done. apply py_round_comp. by rewrite Hbase.
Qed.

(** ** Learning trend, over several months *)

(** Property X23.  The long-term learning score always lies in [0, 100]; with
    fewer than two points the result is the GRAY one with score, slope and
    average 0; and the [decline_penalty] setting has no influence on the
    result. *)
Theorem learning_longterm_bounds score_list learning :
  let r := calculate_learning_ability_longterm score_list learning in
  0 <= lt_learning_score r <= 100 ∧
  ((length score_list < 2)%nat →
   lt_learning_score r = 0 ∧ lt_slope r = 0 ∧ lt_average_score r = 0 ∧
   lt_status_color r = GRAY) ∧
  (∀ settings p,
     learning = Some settings →
     calculate_learning_ability_longterm score_list
       (Some (set_decline_penalty p settings)) = r).
Proof.
  unfold calculate_learning_ability_longterm. cbv zeta. split; [|split].
  - destruct (length score_list <? 2)%nat; [cbn; split; by compute|].
    destruct (if Qltb _ _ then _ else _) as [[tier c] tag]. cbn.
    split.
    + apply py_round_nonneg, Q.le_max_l.
    + apply py_round_le_100, Q.max_lub; [by compute|apply Q.le_min_l].
  - intros Hlen. apply Nat.ltb_lt in Hlen. by rewrite Hlen.
  - intros settings p ->. reflexivity.
Qed.

(** ** Personnel: age *)

(** Property X25.  [_calculate_age] of a parsed birth date is never negative;
    for a birth date that is not after today it is the number of completed
    years (the birthday of that year is not after today, the next one is), and
    for a birth date in the future it is 0. *)
Theorem calculate_age_completed_years parsed today :
  ∃ a, _calculate_age (Some parsed) today = Some a ∧
       (0 <= a)%Z ∧
       (date_le parsed today →
        date_le (birthday parsed (year parsed + a)) today ∧
        ¬ date_le (birthday parsed (year parsed + a + 1)) today) ∧
       (¬ date_le parsed today → a = 0%Z).
Proof.
  unfold _calculate_age, pair_ltb. cbn [fst snd]. eexists. split; [reflexivity|].
  unfold date_le, birthday. cbn [year month day].
  destruct (Z.ltb_spec (month today) (month parsed));
    destruct (Z.eqb_spec (month today) (month parsed));
    destruct (Z.ltb_spec (day today) (day parsed)); cbn [orb andb]; lia.
Qed.

(** ** Personnel: the statistics charts *)

Lemma count_rows_cons p row rows :
  count_rows p (row :: rows) = (Z.b2z (p row) + count_rows p rows)%Z.
Proof.
  unfold count_rows. cbn [List.filter]. destruct (p row); cbn [length Z.b2z]; lia.
Qed.

Lemma age_step_counts row c0 c1 c2 c3 :
  age_step [c0; c1; c2; c3] row
  = [(c0 + Z.b2z (age_at_most 25 row))%Z;
     (c1 + Z.b2z (age_between 26 35 row))%Z;
     (c2 + Z.b2z (age_between 36 45 row))%Z;
     (c3 + Z.b2z (age_at_least 46 row))%Z].
Proof.
  unfold age_step, age_at_most, age_between, age_at_least, increment.
  destruct (age row) as [a|]; [|by rewrite !Z.add_0_r].
  destruct (Z.leb_spec a 25); destruct (Z.leb_spec 26 a);
    destruct (Z.leb_spec a 35); destruct (Z.leb_spec 36 a);
    destruct (Z.leb_spec a 45); destruct (Z.leb_spec 46 a);
    try lia; cbn [andb alter list_alter Z.b2z]; by rewrite !Z.add_0_r.
Qed.

Lemma age_counts_fold rows c0 c1 c2 c3 :
  fold_left age_step rows [c0; c1; c2; c3]
  = [(c0 + count_rows (age_at_most 25) rows)%Z;
     (c1 + count_rows (age_between 26 35) rows)%Z;
     (c2 + count_rows (age_between 36 45) rows)%Z;
     (c3 + count_rows (age_at_least 46) rows)%Z].
Proof.
  revert c0 c1 c2 c3. induction rows as [|row rows IH]; intros c0 c1 c2 c3.
  - unfold count_rows. cbn. by rewrite !Z.add_0_r.
  - cbn [fold_left]. rewrite age_step_counts, IH, !count_rows_cons.
    by rewrite !Z.add_assoc.
Qed.

Lemma age_groups_partition row :
  (Z.b2z (age_at_most 25 row) + Z.b2z (age_between 26 35 row)
   + Z.b2z (age_between 36 45 row) + Z.b2z (age_at_least 46 row))%Z
  = Z.b2z (match age row with Some _ => true | None => false end).
Proof.
  unfold age_at_most, age_between, age_at_least.
  destruct (age row) as [a|]; [|done].
  destruct (Z.leb_spec a 25); destruct (Z.leb_spec 26 a);
    destruct (Z.leb_spec a 35); destruct (Z.leb_spec 36 a);
    destruct (Z.leb_spec a 45); destruct (Z.leb_spec 46 a);
    cbn [andb Z.b2z]; lia.
Qed.

(** Property X26.  The age chart counts every row with an age in exactly one
    of its four groups (at most 25, 26 to 35, 36 to 45, at least 46): the four
    values are the sizes of the groups and sum to the number of rows that have
    an age. *)
Theorem age_chart_counts rows :
  let chart := chart_age (_build_personnel_charts rows) in
  values chart
  = [count_rows (age_at_most 25) rows; count_rows (age_between 26 35) rows;
     count_rows (age_between 36 45) rows; count_rows (age_at_least 46) rows] ∧
  length (labels chart) = length (values chart) ∧
  sum_counts (values chart)
  = count_rows (λ row, match age row with Some _ => true | None => false end) rows.
Proof.
  cbn [_build_personnel_charts chart_age values labels].
  rewrite age_counts_fold. cbn [Z.add]. split_and!; [done|done|].
  unfold sum_counts. cbn [fold_right]. rewrite Z.add_0_r.
  induction rows as [|row rows IH]; [done|].
  rewrite !count_rows_cons, <- age_groups_partition. lia.
Qed.

Lemma tenure_step_counts row c0 c1 c2 c3 c4 :
  tenure_step [c0; c1; c2; c3; c4] row
  = [(c0 + Z.b2z (tenure_between None (Some 1%Q) row))%Z;
     (c1 + Z.b2z (tenure_between (Some 1%Q) (Some 3%Q) row))%Z;
     (c2 + Z.b2z (tenure_between (Some 3%Q) (Some 5%Q) row))%Z;
     (c3 + Z.b2z (tenure_between (Some 5%Q) (Some 10%Q) row))%Z;
     (c4 + Z.b2z (tenure_between (Some 10%Q) None row))%Z].
Proof.
  unfold tenure_step, tenure_between, increment.
  destruct (tenure_years row) as [t|]; [|by rewrite !Z.add_0_r].
  destruct (Qltb t 1) eqn:E1; destruct (Qle_bool 1 t) eqn:E1';
    destruct (Qltb t 3) eqn:E3; destruct (Qle_bool 3 t) eqn:E3';
    destruct (Qltb t 5) eqn:E5; destruct (Qle_bool 5 t) eqn:E5';
    destruct (Qltb t 10) eqn:E10; destruct (Qle_bool 10 t) eqn:E10';
    rewrite ?Qltb_lt, ?Qltb_ge, ?Qle_bool_iff, ?Qle_bool_gt in *;
    try lra; cbn [andb alter list_alter Z.b2z]; by rewrite !Z.add_0_r.
Qed.

Lemma tenure_counts_fold rows c0 c1 c2 c3 c4 :
  fold_left tenure_step rows [c0; c1; c2; c3; c4]
  = [(c0 + count_rows (tenure_between None (Some 1%Q)) rows)%Z;
     (c1 + count_rows (tenure_between (Some 1%Q) (Some 3%Q)) rows)%Z;
     (c2 + count_rows (tenure_between (Some 3%Q) (Some 5%Q)) rows)%Z;
     (c3 + count_rows (tenure_between (Some 5%Q) (Some 10%Q)) rows)%Z;
     (c4 + count_rows (tenure_between (Some 10%Q) None) rows)%Z].
Proof.
  revert c0 c1 c2 c3 c4. induction rows as [|row rows IH]; intros c0 c1 c2 c3 c4.
  - unfold count_rows. cbn. by rewrite !Z.add_0_r.
  - cbn [fold_left]. rewrite tenure_step_counts, IH, !count_rows_cons.
    by rewrite !Z.add_assoc.
Qed.

Lemma tenure_groups_partition row :
  (Z.b2z (tenure_between None (Some 1%Q) row)
   + Z.b2z (tenure_between (Some 1%Q) (Some 3%Q) row)
   + Z.b2z (tenure_between (Some 3%Q) (Some 5%Q) row)
   + Z.b2z (tenure_between (Some 5%Q) (Some 10%Q) row)
   + Z.b2z (tenure_between (Some 10%Q) None row))%Z
  = Z.b2z (match tenure_years row with Some _ => true | None => false end).
Proof.
  unfold tenure_between.
  destruct (tenure_years row) as [t|]; [|done].
  destruct (Qltb t 1) eqn:E1; destruct (Qle_bool 1 t) eqn:E1';
    destruct (Qltb t 3) eqn:E3; destruct (Qle_bool 3 t) eqn:E3';
    destruct (Qltb t 5) eqn:E5; destruct (Qle_bool 5 t) eqn:E5';
    destruct (Qltb t 10) eqn:E10; destruct (Qle_bool 10 t) eqn:E10';
    rewrite ?Qltb_lt, ?Qltb_ge, ?Qle_bool_iff, ?Qle_bool_gt in *;
    try lra; cbn [andb Z.b2z]; lia.
Qed.

(** Property X27.  The tenure chart counts every row with a tenure in exactly
    one of its five groups (below 1, from 1 below 3, from 3 below 5, from 5
    below 10, from 10): the five values are the sizes of the groups and sum to
    the number of rows that have a tenure. *)
Theorem tenure_chart_counts rows :
  let chart := chart_tenure (_build_personnel_charts rows) in
  values chart
  = [count_rows (tenure_between None (Some 1%Q)) rows;
     count_rows (tenure_between (Some 1%Q) (Some 3%Q)) rows;
     count_rows (tenure_between (Some 3%Q) (Some 5%Q)) rows;
     count_rows (tenure_between (Some 5%Q) (Some 10%Q)) rows;
     count_rows (tenure_between (Some 10%Q) None) rows] ∧
  length (labels chart) = length (values chart) ∧
  sum_counts (values chart)
  = count_rows (λ row, match tenure_years row with
                       | Some _ => true | None => false end) rows.
Proof.
  cbn [_build_personnel_charts chart_tenure values labels].
  rewrite tenure_counts_fold. cbn [Z.add]. split_and!; [done|done|].
  unfold sum_counts. cbn [fold_right]. rewrite Z.add_0_r.
  induction rows as [|row rows IH]; [done|].
  rewrite !count_rows_cons, <- tenure_groups_partition. lia.
Qed.

(** The counter after one more label. *)
Lemma counter_add_getitem label counter key :
  counter_getitem (counter_add label counter) key
  = (counter_getitem counter key + Z.b2z (String.eqb label key))%Z.
Proof.
  induction counter as [|[k c] rest IH]; cbn [counter_add counter_getitem].
  - destruct (String.eqb label key); cbn [Z.b2z]; lia.
  - destruct (String.eqb_spec k label) as [->|Hne]; cbn [counter_getitem].
    + destruct (String.eqb label key); cbn [Z.b2z]; lia.
    + destruct (String.eqb_spec k key) as [->|Hkey]; [|exact IH].
      apply String.eqb_neq in Hne. rewrite String.eqb_sym in Hne.
      rewrite Hne. cbn [Z.b2z]. lia.
Qed.

Lemma counter_add_keys label counter :
  map fst (counter_add label counter)
  = if decide (label ∈ map fst counter) then map fst counter
    else map fst counter ++ [label].
Proof.
  induction counter as [|[k c] rest IH]; cbn [counter_add map fst app].
  - rewrite decide_False; [done|]. apply not_elem_of_nil.
  - destruct (String.eqb_spec k label) as [->|Hne]; cbn [map fst].
    + rewrite decide_True; [done|]. apply list_elem_of_here.
    + rewrite IH. destruct (decide (label ∈ map fst rest)) as [Hin|Hnin].
      * rewrite decide_True; [done|]. by apply list_elem_of_further.
      * rewrite decide_False; [done|]. rewrite elem_of_cons.
        intros [->|?]; [by apply Hne|by apply Hnin].
Qed.

Lemma counter_fold labels counter :
  let result := fold_left (λ counter label, counter_add label counter)
                  labels counter in
  (NoDup (map fst counter) → NoDup (map fst result)) ∧
  (∀ key, key ∈ map fst result ↔ key ∈ map fst counter ∨ key ∈ labels) ∧
  (∀ key, counter_getitem result key
          = (counter_getitem counter key
             + Z.of_nat (length (List.filter (λ label, String.eqb label key)
                                             labels)))%Z).
Proof.
  revert counter. induction labels as [|label labels IH]; intros counter.
  - cbn. split_and!; [done| |intros; lia].
    intros key. rewrite elem_of_nil. tauto.
  - cbn [fold_left]. destruct (IH (counter_add label counter)) as (Hd & Hk & Hg).
    cbv zeta. split_and!.
    + intros Hnd. apply Hd. rewrite counter_add_keys.
      destruct (decide _) as [|Hnin]; [done|].
      apply NoDup_app. split_and!; [done| |apply NoDup_singleton].
      intros x Hx Hx'. apply list_elem_of_singleton in Hx' as ->. done.
    + intros key. rewrite Hk, counter_add_keys, elem_of_cons.
      destruct (decide _) as [Hin|Hnin].
      * split; [tauto|]. intros [?|[->|?]]; tauto.
      * rewrite elem_of_app, list_elem_of_singleton. split; [tauto|].
        intros [?|[->|?]]; tauto.
    + intros key. rewrite Hg, counter_add_getitem. cbn [List.filter].
      destruct (String.eqb label key); cbn [length Z.b2z]; lia.
Qed.

Lemma count_rows_education label rows :
  count_rows (has_education label) rows
  = Z.of_nat (length (List.filter (λ l, String.eqb l label)
                                  (map education_of rows))).
Proof.
  unfold count_rows, has_education. f_equal.
  induction rows as [|row rows IH]; [done|]. cbn [List.filter map].
  destruct (String.eqb (education_of row) label); cbn [length]; by rewrite IH.
Qed.

Lemma sum_counts_add (f g : string → Z) keys :
  sum_counts (map (λ key, (f key + g key)%Z) keys)
  = (sum_counts (map f keys) + sum_counts (map g keys))%Z.
Proof.
  unfold sum_counts. induction keys as [|k keys IH]; cbn [map fold_right]; lia.
Qed.

Lemma sum_counts_indicator (l : string) keys :
  NoDup keys → l ∈ keys →
  sum_counts (map (λ key, Z.b2z (String.eqb l key)) keys) = 1%Z.
Proof.
  unfold sum_counts. induction keys as [|k keys IH]; intros Hnd Hl.
  - by apply elem_of_nil in Hl.
  - apply NoDup_cons in Hnd as [Hk Hnd]. cbn [map fold_right].
    destruct (String.eqb_spec l k) as [->|Hne].
    + assert (fold_right Z.add 0%Z
                (map (λ key, Z.b2z (String.eqb k key)) keys) = 0%Z) as ->; [|done].
      clear IH Hl Hnd. induction keys as [|k' keys IH]; [done|].
      cbn [map fold_right]. apply not_elem_of_cons in Hk as [Hne Hk].
      apply String.eqb_neq in Hne. rewrite Hne, IH by done. done.
    + apply elem_of_cons in Hl as [->|Hl]; [done|].
      rewrite IH by done. done.
Qed.

(** The counts of distinct labels add up to the number of rows. *)
Lemma sum_counts_labels (ls : list string) (keys : list string) :
  NoDup keys → (∀ l, l ∈ ls → l ∈ keys) →
  sum_counts
    (map (λ key, Z.of_nat (length (List.filter (λ l, String.eqb l key) ls))) keys)
  = Z.of_nat (length ls).
Proof.
  intros Hnd. induction ls as [|l ls IH]; intros Hsub.
  - clear. induction keys as [|k keys IHk]; [done|].
    unfold sum_counts in *. cbn [map fold_right List.filter length] in *.
    by rewrite IHk.
  - rewrite (map_ext _ (λ key, (Z.b2z (String.eqb l key)
               + Z.of_nat (length (List.filter (λ l, String.eqb l key) ls)))%Z)).
    2: { intros key. cbn [List.filter].
         destruct (String.eqb l key); cbn [length Z.b2z]; lia. }
    rewrite sum_counts_add, sum_counts_indicator, IH.
    + cbn [length]. lia.
    + intros x Hx. by apply Hsub, list_elem_of_further.
    + exact Hnd.
    + apply Hsub, list_elem_of_here.
Qed.

(** Property X28.  The education chart has one label per distinct education of
    the rows (a missing or empty one counts as 未填写), without repetition; the
    value of a label is the number of rows with that education, and the values
    sum to the number of rows. *)
Theorem education_chart_counts rows :
  let chart := chart_education (_build_personnel_charts rows) in
  NoDup (labels chart) ∧
  (∀ label, label ∈ labels chart ↔ ∃ row, row ∈ rows ∧ education_of row = label) ∧
  values chart = map (λ label, count_rows (has_education label) rows) (labels chart) ∧
  sum_counts (values chart) = Z.of_nat (length rows).
Proof.
  cbn [_build_personnel_charts chart_education values labels]. unfold Counter.
  destruct (counter_fold (map education_of rows) []) as (Hnd & Hkeys & Hget).
  cbv zeta in *. cbn [map counter_getitem] in *.
  set (counter := fold_left _ _ _) in *.
  assert (map (counter_getitem counter) (map fst counter)
          = map (λ label, count_rows (has_education label) rows) (map fst counter))
    as Hvalues.
  { apply map_ext. intros key. by rewrite Hget, count_rows_education. }
  split_and!.
  - apply Hnd, NoDup_nil_2.
  - intros label. rewrite Hkeys, elem_of_nil, list_elem_of_fmap. split.
    + intros [[]|(row & -> & Hin)]. by exists row.
    + intros (row & Hin & <-). right. by exists row.
  - exact Hvalues.
  - rewrite Hvalues.
    rewrite (map_ext _ (λ key, Z.of_nat (length (List.filter
               (λ l, String.eqb l key) (map education_of rows)))))
      by (intros; apply count_rows_education).
    rewrite sum_counts_labels; [by rewrite length_map|by apply Hnd, NoDup_nil_2|].
    intros l Hl. apply Hkeys. by right.
Qed.

(** ** The three presets, from strict to lenient *)

Lemma period_final_presets locals :
  fst (fst (period_final locals STRICT_CONFIG))
    <= fst (fst (period_final locals STANDARD_CONFIG)) ∧
  fst (fst (period_final locals STANDARD_CONFIG))
    <= fst (fst (period_final locals LENIENT_CONFIG)).
Proof.
  unfold period_final. cbv zeta.
  cbn [performance contamination_rules d_count_threshold c_count_threshold
       d_cap_score c_cap_score STRICT_CONFIG STANDARD_CONFIG LENIENT_CONFIG].
  destruct (Qle_bool 1 (d_count_effective (scan locals))).
  { cbn [fst]. split; apply Q.min_le_compat_l; by compute. }
  destruct (Qle_bool 2 (c_count_effective (scan locals))) eqn:E2;
    destruct (Qle_bool 3 (c_count_effective (scan locals))) eqn:E3.
  - cbn [fst]. split; apply Q.min_le_compat_l; by compute.
  - split; [cbn [fst]; apply Q.min_le_compat_l; by compute|].
    destruct (Qle_bool 95 _); [|destruct (Qle_bool 80 _)]; cbn [fst];
      apply Q.min_le_compat_l; by compute.
  - apply Qle_bool_gt in E2. apply Qle_bool_iff in E3. lra.
  - split; apply Qle_refl.
Qed.

(** Property X29.  On every grade list, with or without dates, the three
    presets are ordered: the period radar value under STRICT is at most that
    under STANDARD, which is at most that under LENIENT. *)
Theorem presets_order_performance strptime_ym now_year now_month grades dates :
  ∃ strict standard lenient,
    calculate_performance_score_period strptime_ym now_year now_month grades
      dates STRICT_CONFIG = Ok strict ∧
    calculate_performance_score_period strptime_ym now_year now_month grades
      dates STANDARD_CONFIG = Ok standard ∧
    calculate_performance_score_period strptime_ym now_year now_month grades
      dates LENIENT_CONFIG = Ok lenient ∧
    p_radar_value strict <= p_radar_value standard ∧
    p_radar_value standard <= p_radar_value lenient.
Proof.
  destruct (period_returns strptime_ym now_year now_month STRICT_CONFIG grades
              dates) as [strict Hstrict].
  destruct (period_returns strptime_ym now_year now_month STANDARD_CONFIG grades
              dates) as [standard Hstandard].
  destruct (period_returns strptime_ym now_year now_month LENIENT_CONFIG grades
              dates) as [lenient Hlenient].
  exists strict, standard, lenient. split_and!; [done|done|done|..].
  all: destruct grades as [|g grades];
    [injection Hstrict as <-; injection Hstandard as <-;
     injection Hlenient as <-; apply Qle_refl|].
  all: apply period_result_final in Hstrict as (l1 & H1 & R1 & _); [|done];
    apply period_result_final in Hstandard as (l2 & H2 & R2 & _); [|done];
    apply period_result_final in Hlenient as (l3 & H3 & R3 & _); [|done].
  all: change (period_locals strptime_ym now_year now_month (g :: grades) dates
                 STRICT_CONFIG)
         with (period_locals strptime_ym now_year now_month (g :: grades) dates
                 STANDARD_CONFIG) in H1;
    change (period_locals strptime_ym now_year now_month (g :: grades) dates
              LENIENT_CONFIG)
      with (period_locals strptime_ym now_year now_month (g :: grades) dates
              STANDARD_CONFIG) in H3;
    rewrite H2 in H1, H3; injection H1 as <-; injection H3 as <-;
    rewrite ?R1, ?R2, ?R3; apply py_round_mono, period_final_presets.
Qed.

Lemma existsb_threshold_mono (lo hi : Q) vs :
  lo <= hi → existsb (Qle_bool hi) vs = true → existsb (Qle_bool lo) vs = true.
Proof.
  intros Hle. rewrite !existsb_exists. intros (v & Hin & Hv). exists v.
  split; [done|]. apply Qle_bool_iff. apply Qle_bool_iff in Hv. lra.
Qed.

Lemma severity_deduction_ranges st st' vs acc acc' :
  score_ranges st = score_ranges st' → fst acc = fst acc' →
  fst (fold_left (severity_step st) vs acc)
  = fst (fold_left (severity_step st') vs acc').
Proof.
  intros Hsr. revert acc acc'. induction vs as [|v vs IH]; intros acc acc' Hacc.
  - exact Hacc.
  - cbn [fold_left]. apply IH. unfold severity_step. cbn [fst].
    by rewrite Hsr, Hacc.
Qed.

(** The locals under a configuration that differs in the red-line
    threshold only. *)
Lemma safety_locals_threshold vs months_active config config' l :
  behavior_track (safety config) = behavior_track (safety config') →
  score_ranges (severity_track (safety config))
    = score_ranges (severity_track (safety config')) →
  safety_locals vs months_active config = Ok l →
  safety_locals vs months_active config'
  = Ok {| l_avg_freq := l_avg_freq l;
          l_score_a := l_score_a l;
          l_score_b := l_score_b l;
          l_has_critical_violation :=
            existsb (Qle_bool (critical_threshold (severity_track (safety config'))))
                    vs;
          l_final_score := l_final_score l |}.
Proof.
  intros Hbt Hsr. unfold safety_locals. cbv zeta. rewrite <- Hbt.
  rewrite monthly_avg_freq_ok. unfold list_index, mbind, result_bind.
  pose proof (severity_critical (severity_track (safety config')) vs (0, false))
    as Hcrit.
  pose proof (severity_deduction_ranges (severity_track (safety config))
                (severity_track (safety config')) vs (0, false) (0, false) Hsr
                eq_refl) as Hded.
  destruct (fold_left (severity_step (severity_track (safety config))) vs
              (0, false)) as [deduction critical].
  destruct (fold_left (severity_step (severity_track (safety config'))) vs
              (0, false)) as [deduction' critical'].
  cbn [fst snd orb] in Hcrit, Hded. subst deduction' critical'.
  intros H.
  repeat (match type of H with
          | context [match ?l !! ?i with _ => _ end] =>
              destruct (l !! i); try discriminate H
          | context [if ?b then _ else _] =>
              match type of b with
              | bool => match b with
                        | (0 <? _)%Z => fail 1
                        | _ => destruct b
                        end
              end
          end); try discriminate H; by injection H as <-.
Qed.

(** Property X30.  The presets are ordered on the flags too: for one and the
    same composite score and violations, an employee flagged as key personnel
    under LENIENT is flagged under STANDARD, and one flagged under STANDARD
    is flagged under STRICT; the safety calculator
    returns the same final score under the three presets, and a status that is
    RED under a more lenient preset is RED under a stricter one. *)
Theorem presets_order_flags comprehensive_score violations_list months_active :
  (is_key_personnel comprehensive_score violations_list months_active
     (key_personnel LENIENT_CONFIG) = Ok true →
   is_key_personnel comprehensive_score violations_list months_active
     (key_personnel STANDARD_CONFIG) = Ok true) ∧
  (is_key_personnel comprehensive_score violations_list months_active
     (key_personnel STANDARD_CONFIG) = Ok true →
   is_key_personnel comprehensive_score violations_list months_active
     (key_personnel STRICT_CONFIG) = Ok true) ∧
  ∃ strict standard lenient,
    calculate_safety_score_dual_track violations_list months_active STRICT_CONFIG
      = Ok strict ∧
    calculate_safety_score_dual_track violations_list months_active
      STANDARD_CONFIG = Ok standard ∧
    calculate_safety_score_dual_track violations_list months_active
      LENIENT_CONFIG = Ok lenient ∧
    final_score strict = final_score standard ∧
    final_score standard = final_score lenient ∧
    (s_status_color lenient = RED → s_status_color standard = RED) ∧
    (s_status_color standard = RED → s_status_color strict = RED).
Proof.
  split_and!.
  - unfold is_key_personnel. rewrite monthly_avg_freq_ok.
    unfold mbind, result_bind. intros [= H]. f_equal.
    apply orb_true_iff in H. apply orb_true_iff.
    rewrite Qltb_lt, Qle_bool_iff in *.
    cbn [key_personnel comprehensive_threshold monthly_violation_threshold
         STANDARD_CONFIG LENIENT_CONFIG] in *. lra.
  - unfold is_key_personnel. rewrite monthly_avg_freq_ok.
    unfold mbind, result_bind. intros [= H]. f_equal.
    apply orb_true_iff in H. apply orb_true_iff.
    rewrite Qltb_lt, Qle_bool_iff in *.
    cbn [key_personnel comprehensive_threshold monthly_violation_threshold
         STANDARD_CONFIG STRICT_CONFIG] in *. lra.
  - destruct (safety_returns violations_list months_active STRICT_CONFIG)
      as [strict Hstrict]; [cbn; lia..|].
    destruct (safety_returns violations_list months_active STANDARD_CONFIG)
      as [standard Hstandard]; [cbn; lia..|].
    destruct (safety_returns violations_list months_active LENIENT_CONFIG)
      as [lenient Hlenient]; [cbn; lia..|].
    exists strict, standard, lenient. split_and!; [done|done|done|..].
    all: apply safety_result_inv in Hstrict
           as (l1 & H1 & _ & _ & F1 & _ & _ & C1);
      apply safety_result_inv in Hstandard
           as (l2 & H2 & _ & _ & F2 & _ & _ & C2);
      apply safety_result_inv in Hlenient
           as (l3 & H3 & _ & _ & F3 & _ & _ & C3).
    all: pose proof (safety_locals_threshold _ _ STANDARD_CONFIG STRICT_CONFIG
                       l2 eq_refl eq_refl H2) as H1';
      pose proof (safety_locals_threshold _ _ STANDARD_CONFIG LENIENT_CONFIG
                    l2 eq_refl eq_refl H2) as H3';
      pose proof (safety_locals_threshold _ _ STANDARD_CONFIG STANDARD_CONFIG
                    l2 eq_refl eq_refl H2) as H2';
      rewrite H1 in H1'; injection H1' as ->; rewrite H3 in H3';
      injection H3' as ->; rewrite H2 in H2';
      assert (l_has_critical_violation l2
              = existsb (Qle_bool (critical_threshold
                           (severity_track (safety STANDARD_CONFIG))))
                        violations_list) as E2
        by (injection H2' as E2; by rewrite E2 at 1);
      cbn [l_final_score l_has_critical_violation l_score_a l_score_b] in *.
    + congruence.
    + congruence.
    + cbv zeta in C2, C3.
      cbn [safety thresholds fail_score warning_score severity_track
           critical_threshold STANDARD_CONFIG LENIENT_CONFIG] in C2, C3, E2.
      rewrite E2 in C2.
      destruct (existsb (Qle_bool 15) violations_list) eqn:K3.
      * apply (existsb_threshold_mono 12 15) in K3; [|by compute].
        rewrite K3, orb_true_r in C2. by injection C2 as -> _.
      * intros Hred. rewrite orb_false_r in C3.
        destruct (Qltb (l_final_score l2) 60) eqn:Efail.
        { cbn [orb] in C2. by injection C2 as -> _. }
        cbn [orb] in C3.
        destruct (_ && _) in C3; injection C3 as C3 _; congruence.
    + cbv zeta in C1, C2.
      cbn [safety thresholds fail_score warning_score severity_track
           critical_threshold STANDARD_CONFIG STRICT_CONFIG] in C1, C2, E2.
      rewrite E2 in C2.
      destruct (existsb (Qle_bool 12) violations_list) eqn:K2.
      * apply (existsb_threshold_mono 10 12) in K2; [|by compute].
        rewrite K2, orb_true_r in C1. by injection C1 as -> _.
      * intros Hred. rewrite orb_false_r in C2.
        destruct (Qltb (l_final_score l2) 60) eqn:Efail.
        { cbn [orb] in C1. by injection C1 as -> _. }
        cbn [orb] in C2.
        destruct (_ && _) in C2; injection C2 as C2 _; congruence.
Qed.
